(** * VisitorCheckin: the visitor viewer, the dashboard aggregation,
      the registration form and the API client, embedded in Rocq.

    Sources embedded here:
    - [src/admin/Visitors.jsx]   ([applyFilters], pagination)
    - [src/admin/Dashboard.jsx]  ([fetchStats])
    - [components/VisitorForm]   ([validateForm], [handleSubmit])
    - [services/api], [services/auth], [routes/ProtectedRoute.jsx]

    A JavaScript string is modelled by its UTF-16 code units, one per
    character of a [string], for the strings whose code units are all
    below 256 (U+0000 to U+00FF); case mapping and white space are those
    of that range. Numbers that hold time values or indices are [Z], a
    missing object property ([undefined]) is [None], and an exception is
    the [Throw] completion. *)

From Stdlib Require Import ZArith Lia List Bool Ascii String Sorted Permutation.
From stdpp Require Import base option list strings gmap.

Import ListNotations.
Local Open Scope string_scope.
Local Open Scope list_scope.
Local Open Scope Z_scope.

(* ===================================================================== *)
(** ** JavaScript strings *)
(* ===================================================================== *)

Module JsString.

Definition code (c : ascii) : Z := Z.of_N (N_of_ascii c).

(** The code units below 256 that [toLowerCase] changes: A-Z, and
    U+00C0 to U+00DE without the multiplication sign U+00D7. Each maps to
    the code unit 32 above it. *)
Definition isUpper (c : ascii) : bool :=
  ((65 <=? code c) && (code c <=? 90))
  || ((192 <=? code c) && (code c <=? 222) && negb (code c =? 215)).
Definition isDigit (c : ascii) : bool := (48 <=? code c) && (code c <=? 57).

(** The class [\s], which is also what [trim] removes, on the code units
    below 256: TAB, LF, VT, FF, CR, SPACE and the no-break space U+00A0. *)
Definition isSpace (c : ascii) : bool :=
  ((9 <=? code c) && (code c <=? 13)) || (code c =? 32) || (code c =? 160).

Definition lowerChar (c : ascii) : ascii :=
  if isUpper c then ascii_of_N (N_of_ascii c + 32) else c.

(** [String.prototype.toLowerCase] *)
Fixpoint toLowerCase (s : string) : string :=
  match s with
  | EmptyString => EmptyString
  | String c s' => String (lowerChar c) (toLowerCase s')
  end.

(** [startsWith]: is [p] a prefix of [s]? *)
Fixpoint startsWith (s p : string) {struct p} : bool :=
  match p, s with
  | EmptyString, _ => true
  | String _ _, EmptyString => false
  | String a p', String b s' => Ascii.eqb a b && startsWith s' p'
  end.

(** [String.prototype.includes]: [includes s sub] is [s.includes(sub)]. *)
Fixpoint includes (s sub : string) : bool :=
  startsWith s sub ||
  match s with
  | EmptyString => false
  | String _ s' => includes s' sub
  end.

(** Removal of every code unit satisfying [p]; [replace(/[...]/g, '')]. *)
Fixpoint remove (p : ascii -> bool) (s : string) : string :=
  match s with
  | EmptyString => EmptyString
  | String c s' => if p c then remove p s' else String c (remove p s')
  end.

Fixpoint all (p : ascii -> bool) (s : string) : bool :=
  match s with
  | EmptyString => true
  | String c s' => p c && all p s'
  end.

Fixpoint trimStart (s : string) : string :=
  match s with
  | EmptyString => EmptyString
  | String c s' => if isSpace c then trimStart s' else s
  end.

(** Is the string made of white space only?  Then [trim] gives ['']. *)
Definition blank (s : string) : bool := all isSpace s.

Fixpoint trimEnd (s : string) : string :=
  match s with
  | EmptyString => EmptyString
  | String c s' => if blank s then EmptyString else String c (trimEnd s')
  end.

(** [String.prototype.trim] *)
Definition trim (s : string) : string := trimEnd (trimStart s).

Definition len (s : string) : Z := Z.of_nat (String.length s).

Definition isEmpty (s : string) : bool :=
  match s with EmptyString => true | _ => false end.

(** Comparison of strings by code units, as [<] [<=] [>=] on two strings. *)
Fixpoint ltb (a b : string) : bool :=
  match a, b with
  | _, EmptyString => false
  | EmptyString, String _ _ => true
  | String x a', String y b' =>
      if code x <? code y then true
      else if code y <? code x then false
      else ltb a' b'
  end.

Definition leb (a b : string) : bool := negb (ltb b a).
Definition geb (a b : string) : bool := negb (ltb a b).

End JsString.

(* ===================================================================== *)
(** ** Completions: a value, or a thrown exception *)
(* ===================================================================== *)

Inductive JsError : Type := TypeError | RangeError.

Inductive Completion (A : Type) : Type :=
| Normal (a : A)
| Throw (e : JsError).

Arguments Normal {A} a.
Arguments Throw {A} e.

#[global] Instance completion_ret : MRet Completion := fun A a => Normal a.

#[global] Instance completion_bind : MBind Completion := fun A B k m =>
  match m with
  | Normal a => k a
  | Throw e => Throw e
  end.

(** [Array.prototype.filter] with a callback that may throw: the callback
    runs on the elements in index order and the first exception aborts. *)
Fixpoint filterM {A} (p : A -> Completion bool) (l : list A) : Completion (list A) :=
  match l with
  | [] => Normal []
  | x :: l' =>
      match p x with
      | Throw e => Throw e
      | Normal b =>
          match filterM p l' with
          | Throw e => Throw e
          | Normal r => Normal (if b then x :: r else r)
          end
      end
  end.

(* ===================================================================== *)
(** ** Visitor records as the backend returns them *)
(* ===================================================================== *)

(** A property holds a string ([Some s]) or does not ([None]); in the
    second case it is absent ([undefined]) unless its name is listed in
    [v_null], the properties that the backend sent as the JSON [null].
    The backend names some fields in two ways, so both spellings are
    kept. *)
Record Visitor : Type := mkVisitor {
  v_id : Z;
  v_name : option string;
  v_full_name : option string;
  v_email : option string;
  v_phone : option string;
  v_phone_number : option string;
  v_purpose : option string;
  v_checkin_time : option string;
  v_entry_time : option string;
  v_created_at : option string;
  v_null : list string
}.

(** Is the property [name] of the record the JSON [null]?  Both [null]
    and [undefined] are falsy, have no method [toLowerCase] and differ
    from every string; they part ways as the argument of [new Date] and
    as text in a template literal. *)
Definition isNull (v : Visitor) (name : string) : bool :=
  existsb (String.eqb name) (v_null v).

(** Truthiness of a property: [undefined], [null] and [''] are falsy. *)
Definition truthy (x : option string) : bool :=
  match x with
  | Some s => negb (JsString.isEmpty s)
  | None => false
  end.

(** [a || b] *)
Definition js_or (a b : option string) : option string :=
  if truthy a then a else b.

(** [x || ''], which is always a string. *)
Definition orEmpty (x : option string) : string :=
  match js_or x (Some "") with
  | Some s => s
  | None => ""
  end.

(** [x.toLowerCase()] on a property that may be absent or [null]: a
    [TypeError] either way. *)
Definition toLowerCaseOf (x : option string) : Completion string :=
  match x with
  | Some s => Normal (JsString.toLowerCase s)
  | None => Throw TypeError
  end.

Section Search.

(** Visitors.jsx, lines 68-71: the callback of the search filter, with
    [search = searchTerm.toLowerCase()].  [||] evaluates left to right
    and stops at the first true disjunct. *)
Definition searchMatch (search : string) (v : Visitor) : Completion bool :=
  if JsString.includes
       (JsString.toLowerCase (orEmpty (js_or (v_name v) (v_full_name v)))) search
  then Normal true
  else
    match toLowerCaseOf (v_email v) with
    | Throw e => Throw e
    | Normal e =>
        if JsString.includes e search then Normal true
        else Normal (JsString.includes
                       (orEmpty (js_or (v_phone v) (v_phone_number v))) search)
    end.

(** Visitors.jsx, lines 65-73. *)
Definition searchFilter (searchTerm : string) (l : list Visitor) : Completion (list Visitor) :=
  if negb (JsString.isEmpty searchTerm) then
    filterM (searchMatch (JsString.toLowerCase searchTerm)) l
  else Normal l.

(** Visitors.jsx, lines 76-78. *)
Definition purposeMatch (purposeFilter : string) (v : Visitor) : bool :=
  match v_purpose v with
  | Some p => String.eqb p purposeFilter
  | None => false
  end.

Definition purposeFilterStage (purposeFilter : string) (l : list Visitor) : list Visitor :=
  if negb (JsString.isEmpty purposeFilter) && negb (String.eqb purposeFilter "All")
  then List.filter (purposeMatch purposeFilter) l
  else l.

End Search.

(* ===================================================================== *)
(** ** JavaScript dates *)
(* ===================================================================== *)

(** A [Date] object holds a time value: milliseconds since the epoch in
    UTC, or [NaN] (an invalid date), here [None].  The calendar functions
    are the abstract operations of ECMAScript ([Day], [TimeWithinDay],
    [MakeDay], [WeekDay], ...), on the proleptic Gregorian calendar. *)
Module JsDate.

Definition msPerDay : Z := 86400000.
Definition maxTime : Z := 8640000000000000.

Definition Day (t : Z) : Z := t / msPerDay.
Definition TimeWithinDay (t : Z) : Z := t mod msPerDay.

(** The Gregorian calendar repeats every 400 years, 146097 days, an
    era; eras begin on 1 March, so that the leap day ends a year.

    The day of the era of the civil date [yoe]-[m]-[d], [yoe] the year
    of the era (0..399) and [m] in 1..12. *)
Definition doeOfCivil (yoe m d : Z) : Z :=
  let mp := if 2 <? m then m - 3 else m + 9 in
  let doy := (153 * mp + 2) / 5 + d - 1 in
  yoe * 365 + yoe / 4 - yoe / 100 + doy.

(** Days since the epoch of the civil date [y]-[m]-[d], [m] in 1..12. *)
Definition daysFromCivil (y m d : Z) : Z :=
  let y' := if m <=? 2 then y - 1 else y in
  let era := y' / 400 in
  era * 146097 + doeOfCivil (y' - era * 400) m d - 719468.

(** Year of the era, month (1..12) and day of the month of a day of
    the era. *)
Definition civilOfDoe (doe : Z) : Z * Z * Z :=
  let yoe := (doe - doe / 1460 + doe / 36524 - doe / 146096) / 365 in
  let doy := doe - (365 * yoe + yoe / 4 - yoe / 100) in
  let mp := (5 * doy + 2) / 153 in
  let d := doy - (153 * mp + 2) / 5 + 1 in
  let m := if mp <? 10 then mp + 3 else mp - 9 in
  (yoe, m, d).

(** The civil date (year, month in 1..12, day of month) of a day number. *)
Definition civilFromDays (z : Z) : Z * Z * Z :=
  let z' := z + 719468 in
  let era := z' / 146097 in
  let '(yoe, m, d) := civilOfDoe (z' - era * 146097) in
  (yoe + era * 400 + (if m <=? 2 then 1 else 0), m, d).

Definition YearFromTime (t : Z) : Z := fst (fst (civilFromDays (Day t))).
(** Months count from 0, as [getMonth] does. *)
Definition MonthFromTime (t : Z) : Z := snd (fst (civilFromDays (Day t))) - 1.
Definition DateFromTime (t : Z) : Z := snd (civilFromDays (Day t)).
(** 0 is Sunday; the epoch was a Thursday. *)
Definition WeekDay (t : Z) : Z := (Day t + 4) mod 7.

(** [MakeDay(year, month, date)] with [month] counted from 0; months and
    days out of range carry over, as in [new Date(2024, 4, -2)]. *)
Definition MakeDay (year month date : Z) : Z :=
  daysFromCivil (year + month / 12) (month mod 12 + 1) 1 + date - 1.

Definition MakeDate (day time : Z) : Z := day * msPerDay + time.

(** [TimeClip]: a time value out of range is [NaN]. *)
Definition TimeClip (t : Z) : option Z :=
  if Z.abs t <=? maxTime then Some t else None.

(** *** Formatting *)

Definition digitChar (d : Z) : ascii := ascii_of_N (Z.to_N (48 + d)).

(** The [w] low decimal digits of [n], most significant first. *)
Fixpoint padDigits (w : nat) (n : Z) (acc : string) : string :=
  match w with
  | O => acc
  | S w' => padDigits w' (n / 10) (String (digitChar (n mod 10)) acc)
  end.

Definition pad (w : nat) (n : Z) : string := padDigits w n "".

(** Years 0..9999 print with four digits, the others with a sign and six. *)
Definition yearString (y : Z) : string :=
  if (0 <=? y) && (y <=? 9999) then pad 4 y
  else (if y <? 0 then "-" else "+") +:+ pad 6 (Z.abs y).

(** [Date.prototype.toISOString]: the UTC fields; throws on an invalid date. *)
Definition toISOString (d : option Z) : Completion string :=
  match d with
  | None => Throw RangeError
  | Some t =>
      let '(y, m, dd) := civilFromDays (Day t) in
      let tw := TimeWithinDay t in
      Normal (yearString y +:+ "-" +:+ pad 2 m +:+ "-" +:+ pad 2 dd +:+ "T"
              +:+ pad 2 (tw / 3600000) +:+ ":" +:+ pad 2 (tw / 60000 mod 60) +:+ ":"
              +:+ pad 2 (tw / 1000 mod 60) +:+ "." +:+ pad 3 (tw mod 1000) +:+ "Z")
  end.

(** [s.split('T')[0]]: the part of [s] before its first ['T']. *)
Fixpoint beforeT (s : string) : string :=
  match s with
  | EmptyString => EmptyString
  | String c s' => if Ascii.eqb c "T" then EmptyString else String c (beforeT s')
  end.

(** *** Local time

    The time zone of the browser is a fixed offset [tz] in milliseconds,
    local time being [t + tz] (no daylight saving changes). *)
Section Local.
Variable tz : Z.

Definition LocalTime (t : Z) : Z := t + tz.
Definition UTC (t : Z) : Z := t - tz.

Definition getFullYear (t : Z) : Z := YearFromTime (LocalTime t).
Definition getMonth (t : Z) : Z := MonthFromTime (LocalTime t).
Definition getDate (t : Z) : Z := DateFromTime (LocalTime t).
Definition getDay (t : Z) : Z := WeekDay (LocalTime t).

(** The constructor reads a year from 0 to 99 as a year of the 1900s. *)
Definition fullYear (year : Z) : Z :=
  if (0 <=? year) && (year <=? 99) then 1900 + year else year.

(** [new Date(year, month, date)]: local midnight of that day. *)
Definition newDateYMD (year month date : Z) : Z :=
  UTC (MakeDate (MakeDay (fullYear year) month date) 0).

(** [d.setDate(date)]: the day of the month changes, the local time of
    day stays; the result is the new time value of [d]. *)
Definition setDate (t : Z) (date : Z) : Z :=
  let lt := LocalTime t in
  UTC (MakeDate (MakeDay (YearFromTime lt) (MonthFromTime lt) date)
                (TimeWithinDay lt)).

End Local.

(** *** Parsing

    [Date.parse] on the date-time string format of ECMAScript:
    [YYYY-MM-DD], or [YYYY-MM-DDTHH:mm], [:ss] and [.sss] optional,
    followed by [Z], an offset [+HH:mm] / [-HH:mm], or nothing (local
    time).  A date alone is UTC.  Every other string is [NaN]. *)

Definition digitVal (c : ascii) : option Z :=
  if JsString.isDigit c then Some (JsString.code c - 48) else None.

Definition num2 (a b : ascii) : option Z :=
  x ← digitVal a; y ← digitVal b; Some (10 * x + y).

Definition num3 (a b c : ascii) : option Z :=
  x ← digitVal a; y ← num2 b c; Some (100 * x + y).

Definition num4 (a b c d : ascii) : option Z :=
  x ← num2 a b; y ← num2 c d; Some (100 * x + y).

(** The offset to subtract, in milliseconds; [tz] when none is written. *)
Definition parseZone (tz : Z) (l : list ascii) : option Z :=
  match l with
  | [] => Some tz
  | ["Z"%char] => Some 0
  | [sg; h1; h2; ":"%char; m1; m2] =>
      h ← num2 h1 h2; m ← num2 m1 m2;
      if Ascii.eqb sg "+" then Some (h * 3600000 + m * 60000)
      else if Ascii.eqb sg "-" then Some (- (h * 3600000 + m * 60000))
      else None
  | _ => None
  end.

(** Seconds and milliseconds, then the zone. *)
Definition parseSeconds (tz : Z) (l : list ascii) : option (Z * Z) :=
  match l with
  | ":"%char :: s1 :: s2 :: "."%char :: f1 :: f2 :: f3 :: rest =>
      s ← num2 s1 s2; f ← num3 f1 f2 f3; z ← parseZone tz rest;
      if s <=? 59 then Some (s * 1000 + f, z) else None
  | ":"%char :: s1 :: s2 :: rest =>
      s ← num2 s1 s2; z ← parseZone tz rest;
      if s <=? 59 then Some (s * 1000, z) else None
  | rest => z ← parseZone tz rest; Some (0, z)
  end.

Definition parseTime (tz : Z) (l : list ascii) : option (Z * Z) :=
  match l with
  | [] => Some (0, 0)
  | "T"%char :: h1 :: h2 :: ":"%char :: m1 :: m2 :: rest =>
      h ← num2 h1 h2; m ← num2 m1 m2; sz ← parseSeconds tz rest;
      if (h <=? 23) && (m <=? 59)
      then Some (h * 3600000 + m * 60000 + fst sz, snd sz) else None
  | _ => None
  end.

Definition daysInMonth (y m : Z) : Z :=
  daysFromCivil (y + m / 12) (m mod 12 + 1) 1 - daysFromCivil y m 1.

Definition parse (tz : Z) (s : string) : option Z :=
  match list_ascii_of_string s with
  | y1 :: y2 :: y3 :: y4 :: "-"%char :: m1 :: m2 :: "-"%char :: d1 :: d2 :: rest =>
      y ← num4 y1 y2 y3 y4; m ← num2 m1 m2; d ← num2 d1 d2;
      tm ← parseTime tz rest;
      if (1 <=? m) && (m <=? 12) && (1 <=? d) && (d <=? daysInMonth y m)
      then TimeClip (MakeDate (daysFromCivil y m d) (fst tm) - snd tm)
      else None
  | _ => None
  end.

End JsDate.

Example toISOString_epoch :
  JsDate.toISOString (Some 0) = Normal "1970-01-01T00:00:00.000Z".
Proof. reflexivity. Qed.

Example toISOString_2024 :
  JsDate.toISOString (Some 1705361400000) = Normal "2024-01-15T23:30:00.000Z".
Proof. vm_compute. reflexivity. Qed.

Example parse_date_only : JsDate.parse 0 "2024-01-15" = Some 1705276800000.
Proof. vm_compute. reflexivity. Qed.

Example parse_offset :
  JsDate.parse 0 "2024-01-15T23:30:00-05:00" = Some 1705379400000.
Proof. vm_compute. reflexivity. Qed.

Example parse_garbage : JsDate.parse 0 "yesterday" = None.
Proof. reflexivity. Qed.

Example parse_feb30 : JsDate.parse 0 "2023-02-30" = None.
Proof. vm_compute. reflexivity. Qed.

Example weekday_2024_05_01 : JsDate.WeekDay 1714521600000 = 3.
Proof. vm_compute. reflexivity. Qed.

(* ===================================================================== *)
(** ** The visitor viewer (admin/Visitors.jsx) *)
(* ===================================================================== *)

(** [Array.prototype.sort(comparefn)].  A comparator result of [NaN]
    counts as [+0].  The sort of ECMAScript is stable, and for a consistent
    comparator its result is the one stable arrangement; it is embedded as
    the stable insertion sort, which inserts from the right so that an
    element stays in front of the later elements it is not greater than.
    Where the comparator is not consistent (a [NaN] between two elements
    that a third one tells apart) ECMAScript leaves the order to the
    implementation, and the arrangement of the model is one of those an
    implementation may produce. *)
Section Sort.
Context {A : Type}.
Variable comparefn : A -> A -> option Z.

Definition sortCompare (x y : A) : Z :=
  match comparefn x y with
  | Some v => v
  | None => 0
  end.

Fixpoint insertSorted (x : A) (l : list A) : list A :=
  match l with
  | [] => [x]
  | y :: l' => if 0 <? sortCompare x y then y :: insertSorted x l' else x :: l
  end.

Fixpoint sort (l : list A) : list A :=
  match l with
  | [] => []
  | x :: l' => insertSorted x (sort l')
  end.
End Sort.

Record DateRange : Type := mkDateRange {
  dr_start : string;
  dr_end : string
}.

(** The state of the [Visitors] component (its [useState] cells). *)
Record ViewerState : Type := mkViewerState {
  visitors : list Visitor;
  filteredVisitors : list Visitor;
  loading : bool;
  searchTerm : string;
  purposeFilter : string;
  dateRange : DateRange;
  currentPage : Z;
  itemsPerPage : Z;
  sortOrder : string;
  showFilters : bool
}.

Section Viewer.

(** [Date.parse], the string-to-time-value function of the browser. *)
Variable parse : string -> option Z.

(** [new Date(x)] for a string or [undefined]. *)
Definition newDate (x : option string) : option Z :=
  match x with
  | Some s => parse s
  | None => None
  end.

(** [new Date(v.checkin_time || v.entry_time)].  When neither property is
    a non-empty string the value of [||] is its right operand: a string
    (the empty one), [undefined], or [null], and [new Date(null)] is the
    time value 0. *)
Definition checkinDate (v : Visitor) : option Z :=
  match js_or (v_checkin_time v) (v_entry_time v) with
  | Some s => newDate (Some s)
  | None => if isNull v "entry_time" then Some 0 else newDate None
  end.

(** Lines 83 and 89: [....toISOString().split('T')[0]] *)
Definition visitDate (v : Visitor) : Completion string :=
  s ← JsDate.toISOString (checkinDate v); Normal (JsDate.beforeT s).

(** Lines 81-86 *)
Definition startFilter (start : string) (l : list Visitor) : Completion (list Visitor) :=
  if negb (JsString.isEmpty start) then
    filterM (fun v => d ← visitDate v; Normal (JsString.geb d start)) l
  else Normal l.

(** Lines 87-92 *)
Definition endFilter (end_ : string) (l : list Visitor) : Completion (list Visitor) :=
  if negb (JsString.isEmpty end_) then
    filterM (fun v => d ← visitDate v; Normal (JsString.leb d end_)) l
  else Normal l.

(** [dateB - dateA]: [NaN] when one of the dates is invalid. *)
Definition dateSub (x y : option Z) : option Z :=
  match x, y with
  | Some a, Some b => Some (a - b)
  | _, _ => None
  end.

(** Lines 95-99: the comparator. *)
Definition compareVisitors (sortOrder : string) (a b : Visitor) : option Z :=
  let dateA := checkinDate a in
  let dateB := checkinDate b in
  if String.eqb sortOrder "desc" then dateSub dateB dateA else dateSub dateA dateB.

Definition sortStage (sortOrder : string) (l : list Visitor) : list Visitor :=
  sort (compareVisitors sortOrder) l.

(** Lines 62-99: the list that [applyFilters] hands to [setFilteredVisitors]. *)
Definition filterSort (search purpose : string) (range : DateRange)
           (order : string) (l : list Visitor) : Completion (list Visitor) :=
  f1 ← searchFilter search l;
  f3 ← startFilter (dr_start range) (purposeFilterStage purpose f1);
  f4 ← endFilter (dr_end range) f3;
  Normal (sortStage order f4).

(** Lines 61-103, as a step on the component state. *)
Definition applyFilters (st : ViewerState) : Completion ViewerState :=
  filtered ← filterSort (searchTerm st) (purposeFilter st) (dateRange st)
                        (sortOrder st) (visitors st);
  Normal {| visitors := visitors st;
            filteredVisitors := filtered;
            loading := loading st;
            searchTerm := searchTerm st;
            purposeFilter := purposeFilter st;
            dateRange := dateRange st;
            currentPage := 1;
            itemsPerPage := itemsPerPage st;
            sortOrder := sortOrder st;
            showFilters := showFilters st |}.

End Viewer.

(** Line 317: the sort button. *)
Definition toggleSortOrder (sortOrder : string) : string :=
  if String.eqb sortOrder "desc" then "asc" else "desc".

(** *** Pagination (lines 157-161) *)

(** [Array.prototype.slice(start, end)] on integer arguments: a negative
    index counts from the end of the array. *)
Definition relativeIndex (len i : Z) : Z :=
  if i <? 0 then Z.max (len + i) 0 else Z.min i len.

Definition slice {A} (l : list A) (start end_ : Z) : list A :=
  let len := Z.of_nat (length l) in
  let k := relativeIndex len start in
  let final := relativeIndex len end_ in
  firstn (Z.to_nat (Z.max (final - k) 0)) (skipn (Z.to_nat k) l).

Definition indexOfLastItem (currentPage itemsPerPage : Z) : Z :=
  currentPage * itemsPerPage.

Definition indexOfFirstItem (currentPage itemsPerPage : Z) : Z :=
  indexOfLastItem currentPage itemsPerPage - itemsPerPage.

Definition currentItems {A} (filtered : list A) (currentPage itemsPerPage : Z) : list A :=
  slice filtered (indexOfFirstItem currentPage itemsPerPage)
        (indexOfLastItem currentPage itemsPerPage).

(** [Math.ceil(a / b)] on integers ([b] not zero): the quotient rounded up. *)
Definition ceilDiv (a b : Z) : Z := - ((- a) / b).

Definition totalPages {A} (filtered : list A) (itemsPerPage : Z) : Z :=
  ceilDiv (Z.of_nat (length filtered)) itemsPerPage.

(* ===================================================================== *)
(** ** The dashboard aggregation (admin/Dashboard.jsx) *)
(* ===================================================================== *)

Record Stats : Type := mkStats {
  total_visitors : Z;
  today_visitors : Z;
  this_week_visitors : Z;
  this_month_visitors : Z
}.

(** The shapes of [result.data] that [fetchStats] tells apart: an array,
    an object with a [results] array (and maybe a [count]), an object
    with a [total_visitors] field, or any other object. *)
Inductive StatsPayload : Type :=
| PayloadArray (l : list Visitor)
| PayloadPaginated (results : list Visitor) (count : option Z)
| PayloadStats (s : Stats)
| PayloadOther (count : option Z).

(** A JSON value, as the body of a response holds it. *)
#[local] Unset Elimination Schemes.
Inductive Json : Type :=
| JNull
| JBool (b : bool)
| JNumber (n : Z)
| JString (s : string)
| JArray (items : list Json)
| JObject (members : list (string * Json)).
#[local] Set Elimination Schemes.

(** A string is a JSON value. *)
Coercion JString : string >-> Json.

(** Truthiness: [null], [false], [0] and [''] are falsy, every array and
    every object is truthy. *)
Definition jsTruthy (x : Json) : bool :=
  match x with
  | JNull => false
  | JBool b => b
  | JNumber n => negb (n =? 0)
  | JString s => negb (JsString.isEmpty s)
  | JArray _ => true
  | JObject _ => true
  end.

(** The member [name] of a parsed object; of two members of one name the
    later one is the property. *)
Fixpoint lookupMember (name : string) (members : list (string * Json)) : option Json :=
  match members with
  | [] => None
  | (k, x) :: rest =>
      match lookupMember name rest with
      | Some y => Some y
      | None => if String.eqb k name then Some x else None
      end
  end.

(** [x.message] and [x.detail]: a property of an object; [undefined] on
    an array, a string, a number or a boolean, none of which has a
    property of such a name. *)
Definition jsonField (name : string) (x : Json) : option Json :=
  match x with
  | JObject members => lookupMember name members
  | _ => None
  end.

(** Truthiness of a value that may be [undefined]. *)
Definition truthyValue (x : option Json) : bool :=
  match x with
  | Some j => jsTruthy j
  | None => false
  end.

(** What the operations of the API client return: [{success, data}] or
    [{success, error}], a key left out being [None]. *)
Record ApiResult (D : Type) : Type := mkApiResult {
  success : bool;
  data : option D;
  error : option Json
}.

Arguments mkApiResult {D}.
Arguments success {D}.
Arguments data {D}.
Arguments error {D}.

Section Dashboard.

Variable parse : string -> option Z.
(** Offset of local time from UTC, in milliseconds. *)
Variable tz : Z.
(** The reading of the clock ([new Date()], [Date.now()]); it does not
    advance while the statistics are computed. *)
Variable now : Z.

(** Line 40 *)
Definition today : Z :=
  JsDate.newDateYMD tz (JsDate.getFullYear tz now) (JsDate.getMonth tz now)
                    (JsDate.getDate tz now).

(** Line 42: [now.setDate(...)] changes the object [now]; this is its
    time value afterwards, which is also [weekStart]. *)
Definition nowAfterSetDate : Z :=
  JsDate.setDate tz now (JsDate.getDate tz now - JsDate.getDay tz now).

Definition weekStart : Z := nowAfterSetDate.

(** Line 43 reads the year and the month of [now] after line 42 changed it. *)
Definition monthStart : Z :=
  JsDate.newDateYMD tz (JsDate.getFullYear tz nowAfterSetDate)
                    (JsDate.getMonth tz nowAfterSetDate) 1.

(** Lines 46-47: the first of the three fields that is present and not
    empty, parsed; the clock when there is none. *)
Definition checkinTime (v : Visitor) : option Z :=
  let x := js_or (js_or (v_checkin_time v) (v_entry_time v)) (v_created_at v) in
  if truthy x then newDate parse x else JsDate.TimeClip now.

(** [checkinTime >= bound], false when [checkinTime] is [NaN]. *)
Definition timeGe (t : option Z) (bound : Z) : bool :=
  match t with
  | Some x => bound <=? x
  | None => false
  end.

Definition bump (b : bool) (n : Z) : Z := if b then n + 1 else n.

(** Lines 45-64: the callback of [reduce]. *)
Definition statsStep (acc : Stats) (visitor : Visitor) : Stats :=
  let t := checkinTime visitor in
  {| total_visitors := total_visitors acc + 1;
     today_visitors := bump (timeGe t today) (today_visitors acc);
     this_week_visitors := bump (timeGe t weekStart) (this_week_visitors acc);
     this_month_visitors := bump (timeGe t monthStart) (this_month_visitors acc) |}.

Definition zeroStats : Stats := mkStats 0 0 0 0.

Definition localStats (l : list Visitor) : Stats :=
  fold_left statsStep l zeroStats.

(** Lines 72-75: a [count] that is present and not zero replaces the total. *)
Definition withCount (count : option Z) (s : Stats) : Stats :=
  match count with
  | Some c =>
      if c =? 0 then s
      else {| total_visitors := c;
              today_visitors := today_visitors s;
              this_week_visitors := this_week_visitors s;
              this_month_visitors := this_month_visitors s |}
  | None => s
  end.

(** Lines 26-78: the statistics shown after a successful response. *)
Definition statsOfPayload (p : StatsPayload) : Stats :=
  match p with
  | PayloadArray l => localStats l
  | PayloadPaginated results count => withCount count (localStats results)
  | PayloadStats s => s
  | PayloadOther count => withCount count (localStats [])
  end.

(** Lines 21-79, on the [stats] cell of the component. *)
Definition fetchStats (stats : Stats) (result : ApiResult StatsPayload) : Stats :=
  if success result then
    match data result with
    | Some p => statsOfPayload p
    | None => localStats []
    end
  else stats.

End Dashboard.

(* ===================================================================== *)
(** ** The registration form (components/VisitorForm) *)
(* ===================================================================== *)

Record FormData : Type := mkFormData {
  fd_name : string;
  fd_email : string;
  fd_phone : string;
  fd_host : string;
  fd_purpose : string;
  fd_message : string
}.

(** The class [[^\s@]]. *)
Definition emailChar (c : ascii) : bool :=
  negb (JsString.isSpace c) && negb (Ascii.eqb c "@").

(** [[^\s@]+\.[^\s@]+$] on the part after the [@]: a dot with at least one
    character of the class on each side, [seen] telling whether one was
    read already. *)
Fixpoint domainMatch (seen : bool) (s : string) : bool :=
  match s with
  | EmptyString => false
  | String c s' =>
      (seen && Ascii.eqb c "." && negb (JsString.isEmpty s') && JsString.all emailChar s')
      || (emailChar c && domainMatch true s')
  end.

(** [/^[^\s@]+@[^\s@]+\.[^\s@]+$/.test(s)], [seen] as above for the part
    before the [@]. *)
Fixpoint emailMatch (seen : bool) (s : string) : bool :=
  match s with
  | EmptyString => false
  | String c s' =>
      if Ascii.eqb c "@" then seen && domainMatch false s'
      else emailChar c && emailMatch true s'
  end.

Definition emailRegex_test (s : string) : bool := emailMatch false s.

(** [/^[0-9]{10,15}$/.test(s)] *)
Definition phoneRegex_test (s : string) : bool :=
  JsString.all JsString.isDigit s
  && (10 <=? JsString.len s) && (JsString.len s <=? 15).

(** [s.replace(/[\s-]/g, '')] *)
Definition stripPhone (s : string) : string :=
  JsString.remove (fun c => JsString.isSpace c || Ascii.eqb c "-") s.

(** Lines 53-58 of [validateForm]: the error of the phone field, if any. *)
Definition phoneError (phone : string) : option string :=
  if JsString.isEmpty (JsString.trim phone) then Some "Phone number is required"
  else if negb (phoneRegex_test (stripPhone phone))
       then Some "Invalid phone number (10-15 digits)"
       else None.

Definition nameError (name : string) : option string :=
  if JsString.isEmpty (JsString.trim name) then Some "Full name is required"
  else if JsString.len (JsString.trim name) <? 2
       then Some "Name must be at least 2 characters"
       else None.

Definition emailError (email : string) : option string :=
  if JsString.isEmpty (JsString.trim email) then Some "Email is required"
  else if negb (emailRegex_test email) then Some "Invalid email format"
       else None.

Definition purposeError (purpose : string) : option string :=
  if JsString.isEmpty purpose then Some "Purpose of visit is required" else None.

(** [newErrors.field = msg] when there is a message. *)
Definition setError (field : string) (msg : option string)
           (errors : gmap string string) : gmap string string :=
  match msg with
  | Some m => <[field := m]> errors
  | None => errors
  end.

(** Lines 37-66: the object [newErrors]. *)
Definition newErrors (fd : FormData) : gmap string string :=
  setError "purpose" (purposeError (fd_purpose fd))
    (setError "phone" (phoneError (fd_phone fd))
       (setError "email" (emailError (fd_email fd))
          (setError "name" (nameError (fd_name fd)) ∅))).

(** [Object.keys(newErrors).length === 0] *)
Definition noErrors (errors : gmap string string) : bool :=
  bool_decide (errors = ∅).

Record FormState : Type := mkFormState {
  formData : FormData;
  errors : gmap string string;
  form_loading : bool;
  submitStatus : option string
}.

(** [validateForm]: stores the errors and tells whether there is none. *)
Definition validateForm (st : FormState) : FormState * bool :=
  let e := newErrors (formData st) in
  ({| formData := formData st; errors := e;
      form_loading := form_loading st; submitStatus := submitStatus st |},
   noErrors e).

(** What [handleSubmit] does to the world outside the component. *)
Inductive FormEffect : Type :=
| CallSubmitVisitorForm (fd : FormData)
| NavigateTo (path : string)
| SetTimeout (ms : Z).

Definition emptyForm : FormData := mkFormData "" "" "" "" "" "".

(** Lines 83-119.  [submit] is the answer of [submitVisitorForm]. *)
Definition handleSubmit {D} (submit : FormData -> ApiResult D) (st : FormState)
  : FormState * list FormEffect :=
  let st0 := {| formData := formData st; errors := errors st;
                form_loading := form_loading st; submitStatus := None |} in
  let '(st1, ok) := validateForm st0 in
  if negb ok then (st1, [])
  else
    let result := submit (formData st1) in
    if success result then
      ({| formData := emptyForm; errors := ∅;
          form_loading := false; submitStatus := submitStatus st1 |},
       [CallSubmitVisitorForm (formData st1); NavigateTo "/success"])
    else
      ({| formData := formData st1; errors := errors st1;
          form_loading := false; submitStatus := Some "error" |},
       [CallSubmitVisitorForm (formData st1); SetTimeout 5000]).

Example email_ok : emailRegex_test "a.b@example.co.uk" = true.
Proof. reflexivity. Qed.
Example email_no_tld : emailRegex_test "a@b" = false.
Proof. reflexivity. Qed.
Example email_dot_last : emailRegex_test "a@b." = false.
Proof. reflexivity. Qed.
Example email_two_at : emailRegex_test "a@b@c.d" = false.
Proof. reflexivity. Qed.
Example trim_example : JsString.trim "  a b  " = "a b".
Proof. reflexivity. Qed.

(* ===================================================================== *)
(** ** The token store (services/auth) and the API client (services/api) *)
(* ===================================================================== *)

(** What of the browser the client touches: [localStorage] and the path of
    [window.location]. *)
Record Browser : Type := mkBrowser {
  localStorage : gmap string string;
  pathname : string
}.

Module Auth.

Definition AUTH_TOKEN_KEY : string := "authToken".
Definition ADMIN_USER_KEY : string := "adminUser".

Definition setItem (k v : string) (b : Browser) : Browser :=
  {| localStorage := <[k := v]> (localStorage b); pathname := pathname b |}.

Definition removeItem (k : string) (b : Browser) : Browser :=
  {| localStorage := delete k (localStorage b); pathname := pathname b |}.

Definition getItem (k : string) (b : Browser) : option string :=
  localStorage b !! k.

(** [setAuthToken]: only a truthy token is stored. *)
Definition setAuthToken (token : option string) (b : Browser) : Browser :=
  match token with
  | Some t => if truthy token then setItem AUTH_TOKEN_KEY t b else b
  | None => b
  end.

Definition getAuthToken (b : Browser) : option string := getItem AUTH_TOKEN_KEY b.

Definition removeAuthToken (b : Browser) : Browser := removeItem AUTH_TOKEN_KEY b.

(** [setAdminUser]; [user] is the JSON text of the profile, when there
    is a profile. *)
Definition setAdminUser (user : option string) (b : Browser) : Browser :=
  match user with
  | Some u => setItem ADMIN_USER_KEY u b
  | None => b
  end.

Definition removeAdminUser (b : Browser) : Browser := removeItem ADMIN_USER_KEY b.

(** [!!getAuthToken()] *)
Definition isAuthenticated (b : Browser) : bool := truthy (getAuthToken b).

Definition logout (b : Browser) : Browser := removeAdminUser (removeAuthToken b).

Definition login (token user : option string) (b : Browser) : Browser :=
  setAdminUser user (setAuthToken token b).

End Auth.

(** routes/ProtectedRoute.jsx *)
Inductive RouteOutcome : Type :=
| RenderChildren
| RedirectToLogin.

Definition ProtectedRoute (b : Browser) : RouteOutcome :=
  if negb (Auth.isAuthenticated b) then RedirectToLogin else RenderChildren.

Module Api.

(** [error.response]: the status and the parsed body, if there is one. *)
Record ErrorResponse : Type := mkErrorResponse {
  status : Z;
  resp_data : option Json
}.

(** The error object axios rejects with. *)
Record AxiosError : Type := mkAxiosError {
  err_code : option string;
  err_message : string;
  err_response : option ErrorResponse
}.

(** A settled promise. *)
Inductive Settled (A : Type) : Type :=
| Fulfilled (a : A)
| Rejected (e : AxiosError).

Arguments Fulfilled {A} a.
Arguments Rejected {A} e.

(** [try { const response = await p; return onOk(response) }
     catch (error) { return handler(error) }] in an [async] function. *)
Definition tryCatch {A B} (p : Settled A) (onOk : A -> Settled B)
           (handler : AxiosError -> Settled B) : Settled B :=
  match p with
  | Fulfilled a =>
      match onOk a with
      | Fulfilled b => Fulfilled b
      | Rejected e => handler e
      end
  | Rejected e => handler e
  end.

(** [error.response?.status === 401] *)
Definition is401 (e : AxiosError) : bool :=
  match err_response e with
  | Some r => status r =? 401
  | None => false
  end.

(** Lines 36-49: the response interceptor.  A fulfilled response passes;
    an error passes too, after a 401 has emptied the token store and,
    inside the admin area, moved the browser to the login screen. *)
Definition onRejected (e : AxiosError) (b : Browser) : Browser :=
  if is401 e then
    let b' := Auth.removeItem "adminUser" (Auth.removeItem "authToken" b) in
    if JsString.startsWith (pathname b') "/admin"
       && negb (String.eqb (pathname b') "/admin/login")
    then {| localStorage := localStorage b'; pathname := "/admin/login" |}
    else b'
  else b.

Definition interceptResponse {A} (raw : Settled A) (b : Browser) : Settled A * Browser :=
  match raw with
  | Fulfilled a => (Fulfilled a, b)
  | Rejected e => (Rejected e, onRejected e b)
  end.

(** [error.response?.data?.message] *)
Definition responseMessage (e : AxiosError) : option Json :=
  r ← err_response e; d ← resp_data r; jsonField "message" d.

(** [error.response?.data?.detail] *)
Definition responseDetail (e : AxiosError) : option Json :=
  r ← err_response e; d ← resp_data r; jsonField "detail" d.

(** [error.response?.data?.message || fallback]: the message itself,
    whatever its type, when it is truthy. *)
Definition messageOr (e : AxiosError) (fallback : string) : Json :=
  if truthyValue (responseMessage e)
  then default (JString fallback) (responseMessage e)
  else JString fallback.

Definition succeed {D} (d : D) : ApiResult D := mkApiResult true (Some d) None.
Definition fail {D} (msg : Json) : ApiResult D := mkApiResult false None (Some msg).

(** The shape shared by [submitVisitorForm], [getVisitors],
    [getVisitorById], [deleteVisitor] and [getDashboardStats]: one call
    through the client, whose answer [raw] the interceptor sees first. *)
Definition callWith {D} (fallback : string) (raw : Settled D) (b : Browser)
  : Settled (ApiResult D) * Browser :=
  let '(p, b') := interceptResponse raw b in
  (tryCatch p (fun response => Fulfilled (succeed response))
            (fun error => Fulfilled (fail (messageOr error fallback))),
   b').

Definition submitVisitorForm {D} := @callWith D "Failed to submit visitor form. Please try again.".
Definition getVisitors {D} := @callWith D "Failed to fetch visitors. Please try again.".
Definition getVisitorById {D} := @callWith D "Failed to fetch visitor details.".
Definition deleteVisitor {D} := @callWith D "Failed to delete visitor.".
Definition getDashboardStats {D} := @callWith D "Failed to fetch dashboard statistics.".

(** Lines 96-105 of [adminLogin]. *)
Definition loginErrorMessage (e : AxiosError) : Json :=
  if bool_decide (err_code e = Some "ECONNABORTED")
  then JString "Request timed out. Please check your network connection."
  else if String.eqb (err_message e) "Network Error"
  then JString "Network error. Please ensure the server is running."
  else if truthyValue (responseDetail e)
  then default JNull (responseDetail e)
  else if truthyValue (responseMessage e)
  then default JNull (responseMessage e)
  else JString "Invalid credentials. Please try again.".

Definition adminLogin {D} (raw : Settled D) (b : Browser)
  : Settled (ApiResult D) * Browser :=
  let '(p, b') := interceptResponse raw b in
  (tryCatch p (fun response => Fulfilled (succeed response))
            (fun error => Fulfilled (fail (loginErrorMessage error))),
   b').

End Api.

(* ===================================================================== *)
(** * Properties *)
(* ===================================================================== *)

(** ** Strings *)

(** [sub] occurs in [s]. *)
Definition substringOf (sub s : string) : Prop :=
  exists a b : string, s = a +:+ sub +:+ b.

Lemma startsWith_spec (s p : string) :
  JsString.startsWith s p = true <-> exists b : string, s = p +:+ b.
Proof.
  revert s; induction p as [|c p IH]; intros s; simpl.
  - split; [intros _; exists s; reflexivity | reflexivity].
  - destruct s as [|d s]; simpl.
    + split; [discriminate | intros [b Hb]; discriminate].
    + rewrite andb_true_iff, IH, Ascii.eqb_eq. split.
      * intros [-> [b ->]]. exists b; reflexivity.
      * intros [b Hb]. injection Hb as -> ->. split; [reflexivity | exists b; reflexivity].
Qed.

Lemma includes_spec (s sub : string) :
  JsString.includes s sub = true <-> substringOf sub s.
Proof.
  unfold substringOf. induction s as [|c s IH].
  - cbn [JsString.includes]. rewrite orb_false_r, startsWith_spec. split.
    + intros [b Hb]. exists "", b. exact Hb.
    + intros [a [b Hb]]. destruct a; [exists b; exact Hb | discriminate].
  - cbn [JsString.includes]. rewrite orb_true_iff, startsWith_spec, IH. split.
    + intros [[b Hb] | [a [b Hb]]].
      * exists "", b. exact Hb.
      * exists (String c a), b. simpl. now rewrite Hb.
    + intros [a [b Hb]]. destruct a as [|d a].
      * left. exists b. exact Hb.
      * right. simpl in Hb. injection Hb as -> ->. exists a, b. reflexivity.
Qed.

Lemma isEmpty_true (s : string) : JsString.isEmpty s = true <-> s = "".
Proof. destruct s; simpl; split; congruence. Qed.

(** ** The search filter *)

Definition hasEmail (v : Visitor) : Prop := is_Some (v_email v).

(** The name, the e-mail address and the phone that the search looks at. *)
Definition nameOf (v : Visitor) : string := orEmpty (js_or (v_name v) (v_full_name v)).
Definition emailOf (v : Visitor) : string := default "" (v_email v).
Definition phoneOf (v : Visitor) : string := orEmpty (js_or (v_phone v) (v_phone_number v)).

(** The search predicate: the lowercased search string occurs in the name
    or in the e-mail address, both taken without regard to case, or in
    the phone. *)
Definition Matches (s : string) (v : Visitor) : Prop :=
  substringOf (JsString.toLowerCase s) (JsString.toLowerCase (nameOf v))
  \/ substringOf (JsString.toLowerCase s) (JsString.toLowerCase (emailOf v))
  \/ substringOf (JsString.toLowerCase s) (phoneOf v).

Definition matchesb (s : string) (v : Visitor) : bool :=
  JsString.includes (JsString.toLowerCase (nameOf v)) (JsString.toLowerCase s)
  || JsString.includes (JsString.toLowerCase (emailOf v)) (JsString.toLowerCase s)
  || JsString.includes (phoneOf v) (JsString.toLowerCase s).

Lemma matchesb_spec (s : string) (v : Visitor) :
  matchesb s v = true <-> Matches s v.
Proof.
  unfold matchesb, Matches.
  rewrite !orb_true_iff, !includes_spec. tauto.
Qed.

Lemma searchMatch_hasEmail (s : string) (v : Visitor) :
  hasEmail v -> searchMatch (JsString.toLowerCase s) v = Normal (matchesb s v).
Proof.
  intros [e He]. unfold searchMatch, matchesb, nameOf, emailOf, phoneOf.
  rewrite He. simpl.
  destruct (JsString.includes _ _); [reflexivity|]. simpl.
  destruct (JsString.includes _ _); reflexivity.
Qed.

Lemma filterM_pure {A} (p : A -> Completion bool) (q : A -> bool) (l : list A) :
  Forall (fun x => p x = Normal (q x)) l ->
  filterM p l = Normal (List.filter q l).
Proof.
  induction 1 as [|x l Hx _ IH]; simpl; [reflexivity|].
  rewrite Hx, IH. reflexivity.
Qed.

Lemma searchFilter_hasEmail (s : string) (l : list Visitor) :
  Forall hasEmail l -> searchFilter s l = Normal (List.filter (matchesb s) l).
Proof.
  intros Hl. unfold searchFilter.
  destruct (JsString.isEmpty s) eqn:Es; simpl.
  - apply isEmpty_true in Es. subst s.
    f_equal. symmetry. apply forallb_filter_id.
    apply forallb_forall. intros v _. apply matchesb_spec.
    left. exists "", (JsString.toLowerCase (nameOf v)). reflexivity.
  - apply filterM_pure. eapply Forall_impl; [exact Hl|].
    intros v Hv. apply searchMatch_hasEmail, Hv.
Qed.

Definition alice : Visitor :=
  {| v_id := 1; v_name := Some "Alice"; v_full_name := None;
     v_email := Some "alice@example.com"; v_phone := Some "5550100100";
     v_phone_number := None; v_purpose := Some "Interview";
     v_checkin_time := Some "2024-01-01"; v_entry_time := None;
     v_created_at := None; v_null := [] |}.

Definition bob : Visitor :=
  {| v_id := 2; v_name := Some "Bob"; v_full_name := None;
     v_email := Some "robert@example.com"; v_phone := Some "5550100200";
     v_phone_number := None; v_purpose := Some "Delivery";
     v_checkin_time := Some "2024-01-15"; v_entry_time := None;
     v_created_at := None; v_null := [] |}.

(** The two records of the scenario as the specification writes them: a
    name and a purpose, no e-mail address, no phone, and a [date], which
    is not a property the viewer reads. *)
Definition aliceAsGiven : Visitor :=
  {| v_id := 1; v_name := Some "Alice"; v_full_name := None;
     v_email := None; v_phone := None; v_phone_number := None;
     v_purpose := Some "Interview";
     v_checkin_time := None; v_entry_time := None; v_created_at := None;
     v_null := [] |}.

Definition bobAsGiven : Visitor :=
  {| v_id := 2; v_name := Some "Bob"; v_full_name := None;
     v_email := None; v_phone := None; v_phone_number := None;
     v_purpose := Some "Delivery";
     v_checkin_time := None; v_entry_time := None; v_created_at := None;
     v_null := [] |}.

(** C1, as stated, fails: it speaks of every list of records, and on the
    two records of its own scenario the search for "bo" does not yield
    [Bob].  The name of Alice does not match, so the filter goes on to
    lowercase her e-mail address, of which there is none, and throws; no
    list comes out. *)
Lemma search_throws_on_scenario_records :
  searchFilter "bo" [aliceAsGiven; bobAsGiven] = Throw TypeError
  /\ filterSort (JsDate.parse 0) "bo" "" (mkDateRange "" "") "desc"
                [aliceAsGiven; bobAsGiven]
     = Throw TypeError
  /\ searchFilter "bo" [aliceAsGiven; bobAsGiven] <> Normal [bobAsGiven]
  /\ searchFilter "bo" [bobAsGiven] = Normal [bobAsGiven].
Proof. repeat split; try reflexivity. discriminate. Qed.

(** C1, amended. On records that each carry an e-mail address, the
    search filter keeps exactly the records in which the lowercased
    search string occurs in the name or the e-mail address (both compared
    without regard to case) or in the phone, in their order; an empty
    search string keeps every record; and searching "bo" in [Alice; Bob],
    each with an e-mail address, leaves exactly [Bob]. *)
Theorem search_filter_retains_matches (s : string) (l : list Visitor) :
  Forall hasEmail l ->
  (exists keep : Visitor -> bool,
      (forall v, keep v = true <-> Matches s v)
      /\ searchFilter s l = Normal (List.filter keep l))
  /\ searchFilter "" l = Normal l
  /\ (forall parse order,
         filterSort parse "bo" "" (mkDateRange "" "") order [alice; bob]
         = Normal [bob]).
Proof.
  intros Hl. split; [|split].
  - exists (matchesb s). split; [apply matchesb_spec | apply searchFilter_hasEmail, Hl].
  - reflexivity.
  - intros parse order. reflexivity.
Qed.

Lemma search_filter_retains_matches_witness :
  Forall hasEmail [alice; bob]
  /\ exists keep : Visitor -> bool,
      (forall v, keep v = true <-> Matches "ALI" v)
      /\ searchFilter "ALI" [alice; bob] = Normal (List.filter keep [alice; bob]).
Proof.
  assert (H : Forall hasEmail [alice; bob]).
  { repeat constructor; eexists; reflexivity. }
  split; [exact H|].
  exact (proj1 (search_filter_retains_matches "ALI" [alice; bob] H)).
Defined.

Example search_ALI : searchFilter "ALI" [alice; bob] = Normal [alice].
Proof. reflexivity. Qed.



(** ** The date filter *)

(** [YYYY-MM-DD] of a civil date. *)
Definition dateString (ymd : Z * Z * Z) : string :=
  let '(y, m, d) := ymd in
  JsDate.yearString y +:+ "-" +:+ JsDate.pad 2 m +:+ "-" +:+ JsDate.pad 2 d.

(** The calendar date in UTC of a time value. *)
Definition utcDateString (t : Z) : string :=
  dateString (JsDate.civilFromDays (JsDate.Day t)).

(** The calendar date in the time zone of the browser. *)
Definition localDateOf (tz t : Z) : string :=
  dateString (JsDate.civilFromDays (JsDate.Day (JsDate.LocalTime tz t))).

Definition noT (s : string) : bool :=
  JsString.all (fun c => negb (Ascii.eqb c "T")) s.

Lemma noT_app (a b : string) : noT (a +:+ b) = noT a && noT b.
Proof.
  unfold noT. induction a as [|c a IH]; simpl; [reflexivity|].
  rewrite IH. apply andb_assoc.
Qed.

Lemma beforeT_app (a r : string) :
  noT a = true -> JsDate.beforeT (a +:+ String "T" r) = a.
Proof.
  unfold noT. induction a as [|c a IH]; simpl; [reflexivity|].
  intros H. apply andb_true_iff in H as [Hc Ha].
  destruct (Ascii.eqb c "T"); [discriminate|]. now rewrite IH.
Qed.

Lemma digitChar_noT (n : Z) :
  negb (Ascii.eqb (JsDate.digitChar (n mod 10)) "T") = true.
Proof.
  assert (H : 0 <= n mod 10 < 10) by (apply Z.mod_pos_bound; lia).
  destruct (n mod 10) as [|p|p]; [reflexivity| |lia].
  do 4 (destruct p as [p|p|]; try lia; try reflexivity).
Qed.

Lemma padDigits_noT (w : nat) (n : Z) (acc : string) :
  noT acc = true -> noT (JsDate.padDigits w n acc) = true.
Proof.
  revert n acc; induction w as [|w IH]; intros n acc H; simpl; [exact H|].
  apply IH. unfold noT in *. simpl. now rewrite digitChar_noT.
Qed.

Lemma pad_noT (w : nat) (n : Z) : noT (JsDate.pad w n) = true.
Proof. apply padDigits_noT. reflexivity. Qed.

Lemma yearString_noT (y : Z) : noT (JsDate.yearString y) = true.
Proof.
  unfold JsDate.yearString.
  destruct ((0 <=? y) && (y <=? 9999)); [apply pad_noT|].
  rewrite noT_app, pad_noT. destruct (y <? 0); reflexivity.
Qed.

Lemma dateString_noT (ymd : Z * Z * Z) : noT (dateString ymd) = true.
Proof.
  destruct ymd as [[y m] d]. unfold dateString.
  rewrite !noT_app, yearString_noT, !pad_noT. reflexivity.
Qed.

Lemma append_assoc (a b c : string) : (a +:+ b) +:+ c = a +:+ (b +:+ c).
Proof.
  induction a as [|x a IH]; [reflexivity|].
  change (String x ((a +:+ b) +:+ c) = String x (a +:+ b +:+ c)).
  now rewrite IH.
Qed.

(** The date part of [toISOString] is the calendar date in UTC. *)
Lemma toISOString_date (t : Z) :
  (s ← JsDate.toISOString (Some t); Normal (JsDate.beforeT s))
  = Normal (utcDateString t).
Proof.
  unfold utcDateString, JsDate.toISOString.
  destruct (JsDate.civilFromDays (JsDate.Day t)) as [[y m] d] eqn:E.
  cbn [mbind completion_bind]. f_equal.
  match goal with
  | |- JsDate.beforeT (?ys +:+ "-" +:+ ?a +:+ "-" +:+ ?b +:+ "T" +:+ ?R) = _ =>
      replace (ys +:+ "-" +:+ a +:+ "-" +:+ b +:+ "T" +:+ R)
        with (dateString (y, m, d) +:+ String "T" R)
  end.
  - apply beforeT_app, dateString_noT.
  - unfold dateString. rewrite !append_assoc. reflexivity.
Qed.

Section DateFilter.
Variable parse : string -> option Z.

Definition validDate (v : Visitor) : Prop := is_Some (checkinDate parse v).

(** The UTC calendar date of the check-in of a record. *)
Definition utcDate (v : Visitor) : string :=
  match checkinDate parse v with
  | Some t => utcDateString t
  | None => ""
  end.

Lemma visitDate_valid (v : Visitor) :
  validDate v -> visitDate parse v = Normal (utcDate v).
Proof.
  intros [t Ht]. unfold visitDate, utcDate. rewrite Ht. apply toISOString_date.
Qed.

Lemma visitDate_invalid (v : Visitor) :
  checkinDate parse v = None -> visitDate parse v = Throw RangeError.
Proof. intros H. unfold visitDate. rewrite H. reflexivity. Qed.

(** Both date stages of [applyFilters], one after the other. *)
Definition dateFilter (range : DateRange) (l : list Visitor) : Completion (list Visitor) :=
  f ← startFilter parse (dr_start range) l; endFilter parse (dr_end range) f.

(** The date predicate on date strings: at or after [start] when it is
    set, at or before [end] when it is set. *)
Definition inRange (range : DateRange) (d : string) : bool :=
  (JsString.isEmpty (dr_start range) || JsString.geb d (dr_start range))
  && (JsString.isEmpty (dr_end range) || JsString.leb d (dr_end range)).

Lemma startFilter_valid (start : string) (l : list Visitor) :
  Forall validDate l ->
  startFilter parse start l
  = Normal (List.filter (fun v => JsString.isEmpty start
                                  || JsString.geb (utcDate v) start) l).
Proof.
  intros Hl. unfold startFilter. destruct (JsString.isEmpty start); simpl.
  - f_equal. symmetry. apply forallb_filter_id, forallb_forall. reflexivity.
  - apply filterM_pure. eapply Forall_impl; [exact Hl|].
    intros v Hv. simpl. now rewrite visitDate_valid.
Qed.

Lemma endFilter_valid (end_ : string) (l : list Visitor) :
  Forall validDate l ->
  endFilter parse end_ l
  = Normal (List.filter (fun v => JsString.isEmpty end_
                                  || JsString.leb (utcDate v) end_) l).
Proof.
  intros Hl. unfold endFilter. destruct (JsString.isEmpty end_); simpl.
  - f_equal. symmetry. apply forallb_filter_id, forallb_forall. reflexivity.
  - apply filterM_pure. eapply Forall_impl; [exact Hl|].
    intros v Hv. simpl. now rewrite visitDate_valid.
Qed.

Lemma Forall_filter_keep {A} (P : A -> Prop) (q : A -> bool) (l : list A) :
  Forall P l -> Forall P (List.filter q l).
Proof.
  induction 1 as [|x l Hx _ IH]; simpl; [constructor|].
  destruct (q x); [constructor|]; assumption.
Qed.

Lemma filter_filter_andb {A} (p q : A -> bool) (l : list A) :
  List.filter q (List.filter p l) = List.filter (fun x => p x && q x) l.
Proof.
  induction l as [|x l IH]; simpl; [reflexivity|].
  destruct (p x); simpl; [destruct (q x)|]; now rewrite IH.
Qed.

Lemma dateFilter_valid (range : DateRange) (l : list Visitor) :
  Forall validDate l ->
  dateFilter range l = Normal (List.filter (fun v => inRange range (utcDate v)) l).
Proof.
  intros Hl. unfold dateFilter. rewrite startFilter_valid by exact Hl. simpl.
  rewrite endFilter_valid by (apply Forall_filter_keep, Hl).
  now rewrite filter_filter_andb.
Qed.

(** The date predicate as the specification words it, on the calendar
    date in the time zone [tz] of the browser. *)
Definition localDatePredicate (tz : Z) (range : DateRange) (v : Visitor) : bool :=
  match checkinDate parse v with
  | Some t => inRange range (localDateOf tz t)
  | None => false
  end.

End DateFilter.

(** A visitor who checked in at 23:30 on 15 January 2024, five hours west
    of Greenwich. *)
Definition lateVisitor : Visitor :=
  {| v_id := 7; v_name := Some "Dana"; v_full_name := None;
     v_email := Some "dana@example.com"; v_phone := Some "5550100700";
     v_phone_number := None; v_purpose := Some "Interview";
     v_checkin_time := Some "2024-01-15T23:30:00-05:00"; v_entry_time := None;
     v_created_at := None; v_null := [] |}.

Definition westFive : Z := -18000000.

(** C2, as stated, fails: with the browser five hours west of Greenwich,
    a visitor checked in on the local date 2024-01-15 passes the date
    predicate for the range ending on 2024-01-15, and the filter drops
    the record, because it takes the date in UTC, 2024-01-16. *)
Lemma date_filter_not_local_date :
  localDatePredicate (JsDate.parse westFive) westFive
                     (mkDateRange "" "2024-01-15") lateVisitor = true
  /\ dateFilter (JsDate.parse westFive) (mkDateRange "" "2024-01-15") [lateVisitor]
     = Normal [].
Proof. split; vm_compute; reflexivity. Qed.

(** C2, amended. On records whose timestamp parses, the date filter keeps
    exactly the records whose check-in date, the calendar date in UTC of
    the timestamp, is at or after [start] when it is set and at or before
    [end] when it is set, the dates compared as strings. *)
Theorem date_filter_utc_date (parse : string -> option Z)
        (range : DateRange) (l : list Visitor) :
  Forall (validDate parse) l ->
  dateFilter parse range l
  = Normal (List.filter (fun v => inRange range (utcDate parse v)) l)
  /\ (forall v t, checkinDate parse v = Some t ->
                  visitDate parse v = Normal (utcDateString t)
                  /\ utcDate parse v = utcDateString t).
Proof.
  intros Hl. split; [apply dateFilter_valid, Hl|].
  intros v t Ht. split.
  - rewrite visitDate_valid by (exists t; exact Ht).
    unfold utcDate. now rewrite Ht.
  - unfold utcDate. now rewrite Ht.
Qed.

Lemma date_filter_utc_date_witness :
  Forall (validDate (JsDate.parse 0)) [alice; bob]
  /\ dateFilter (JsDate.parse 0) (mkDateRange "2024-01-10" "") [alice; bob]
     = Normal (List.filter
                 (fun v => inRange (mkDateRange "2024-01-10" "")
                                   (utcDate (JsDate.parse 0) v))
                 [alice; bob]).
Proof.
  assert (H : Forall (validDate (JsDate.parse 0)) [alice; bob]).
  { repeat constructor; eexists; vm_compute; reflexivity. }
  split; [exact H|].
  exact (proj1 (date_filter_utc_date (JsDate.parse 0)
                  (mkDateRange "2024-01-10" "") [alice; bob] H)).
Defined.

(** A record without timestamp makes an active date filter throw. *)
Example date_filter_throws :
  dateFilter (JsDate.parse 0) (mkDateRange "2024-01-10" "")
             [alice; mkVisitor 8 (Some "Erin") None (Some "erin@example.com") None None
                               (Some "Other") None None None []]
  = Throw RangeError.
Proof. vm_compute. reflexivity. Qed.

Example date_filter_from_jan10 :
  dateFilter (JsDate.parse 0) (mkDateRange "2024-01-10" "") [alice; bob] = Normal [bob].
Proof. vm_compute. reflexivity. Qed.

(** ** The sort *)

(** [a] stands somewhere in front of [b] in [l]. *)
Definition precedes {A} (a b : A) (l : list A) : Prop :=
  exists l1 l2 l3, l = l1 ++ a :: l2 ++ b :: l3.

Lemma precedes_cons {A} (a b x : A) (l : list A) :
  precedes a b l -> precedes a b (x :: l).
Proof. intros (l1 & l2 & l3 & ->). exists (x :: l1), l2, l3. reflexivity. Qed.

Lemma In_precedes {A} (a b : A) (l : list A) :
  In a l -> In b l -> a <> b -> precedes a b l \/ precedes b a l.
Proof.
  intros Ha Hb Hab. apply in_split in Ha as (l1 & l2 & ->).
  apply in_app_or in Hb as [Hb | [Hb | Hb]]; [|congruence|].
  - right. apply in_split in Hb as (m1 & m2 & ->).
    exists m1, m2, l2. now rewrite <- app_assoc.
  - left. apply in_split in Hb as (m1 & m2 & ->).
    exists l1, m1, m2. reflexivity.
Qed.

Lemma StronglySorted_precedes {A} (R : A -> A -> Prop) (a b : A) (l : list A) :
  StronglySorted R l -> precedes a b l -> R a b.
Proof.
  intros Hs (l1 & l2 & l3 & ->). induction l1 as [|x l1 IH]; simpl in Hs.
  - apply StronglySorted_inv in Hs as [_ Hall].
    rewrite List.Forall_forall in Hall. apply Hall.
    apply in_or_app. right. left. reflexivity.
  - apply StronglySorted_inv in Hs as [Hs _]. apply IH, Hs.
Qed.

Section SortFacts.
Context {A : Type}.
Variable comparefn : A -> A -> option Z.

Lemma insertSorted_perm (x : A) (l : list A) :
  Permutation (insertSorted comparefn x l) (x :: l).
Proof.
  induction l as [|y l IH]; simpl; [reflexivity|].
  destruct (0 <? sortCompare comparefn x y); [|reflexivity].
  rewrite IH. apply perm_swap.
Qed.

Lemma sort_perm (l : list A) : Permutation (sort comparefn l) l.
Proof.
  induction l as [|x l IH]; simpl; [reflexivity|].
  rewrite insertSorted_perm. now constructor.
Qed.

(** Once every adjacent pair is in order for the comparator, the sort
    changes nothing, whatever the comparator. *)
Fixpoint adjacentOrdered (l : list A) : Prop :=
  match l with
  | x :: ((y :: _) as l') => sortCompare comparefn x y <= 0 /\ adjacentOrdered l'
  | _ => True
  end.

Lemma sort_adjacentOrdered_id (l : list A) :
  adjacentOrdered l -> sort comparefn l = l.
Proof.
  induction l as [|x [|y l] IH]; intros H; try reflexivity.
  destruct H as [Hxy H]. cbn [sort]. cbn [sort] in IH. rewrite IH by exact H.
  cbn [insertSorted]. destruct (0 <? _) eqn:E; [lia | reflexivity].
Qed.

(** The comparators of the viewer order by a key: [key x - key y] on
    the elements of interest, [good] ones. *)
Variable good : A -> Prop.
Variable key : A -> Z.
Hypothesis comparefn_key :
  forall x y, good x -> good y -> comparefn x y = Some (key x - key y).

Lemma insertSorted_sorted (x : A) (l : list A) :
  good x -> Forall good l ->
  StronglySorted (fun a b => key a <= key b) l ->
  StronglySorted (fun a b => key a <= key b) (insertSorted comparefn x l).
Proof.
  intros Hx Hl Hs. induction l as [|y l IH]; simpl.
  - repeat constructor.
  - apply Forall_cons_1 in Hl as [Hy Hl].
    apply StronglySorted_inv in Hs as [Hs Hall].
    unfold sortCompare. rewrite comparefn_key by assumption.
    destruct (0 <? key x - key y) eqn:E.
    + constructor; [apply IH; assumption|].
      rewrite (insertSorted_perm x l). constructor; [lia | exact Hall].
    + constructor; [constructor; assumption|].
      constructor; [lia|].
      eapply List.Forall_impl; [|exact Hall]. simpl. intros z Hz. lia.
Qed.

Lemma sort_sorted (l : list A) :
  Forall good l -> StronglySorted (fun a b => key a <= key b) (sort comparefn l).
Proof.
  induction 1 as [|x l Hx Hl IH]; simpl; [constructor|].
  apply insertSorted_sorted; [exact Hx | | exact IH].
  rewrite (sort_perm l). exact Hl.
Qed.

Section Adjacent.
Hypothesis comparefn_total :
  forall x y, sortCompare comparefn x y <= 0 \/ sortCompare comparefn y x <= 0.

Lemma insertSorted_adjacent (x : A) (s : list A) :
  adjacentOrdered s -> adjacentOrdered (insertSorted comparefn x s).
Proof.
  induction s as [|y s IHs]; intros Hs; [exact I|].
  cbn [insertSorted]. destruct (0 <? sortCompare comparefn x y) eqn:E.
  - assert (Hyx : sortCompare comparefn y x <= 0)
      by (destruct (comparefn_total x y); lia).
    destruct s as [|z s].
    + split; [exact Hyx | exact I].
    + destruct Hs as [Hyz Hs]. specialize (IHs Hs).
      cbn [insertSorted] in *.
      destruct (0 <? sortCompare comparefn x z); split; assumption.
  - split; [lia | exact Hs].
Qed.

Lemma sort_adjacent (l : list A) : adjacentOrdered (sort comparefn l).
Proof.
  induction l as [|x l IH]; [exact I|].
  cbn [sort]. apply insertSorted_adjacent, IH.
Qed.

(** Sorting what is sorted changes nothing. *)
Lemma sort_idempotent (l : list A) :
  sort comparefn (sort comparefn l) = sort comparefn l.
Proof. apply sort_adjacentOrdered_id, sort_adjacent. Qed.
End Adjacent.

End SortFacts.

Lemma sort_ext {A} (f g : A -> A -> option Z) (l : list A) :
  (forall a b, f a b = g a b) -> sort f l = sort g l.
Proof.
  intros Hfg. induction l as [|x l IH]; simpl; [reflexivity|]. rewrite IH.
  generalize (sort g l) as s. induction s as [|y s IHs]; simpl; [reflexivity|].
  unfold sortCompare. rewrite Hfg, IHs. reflexivity.
Qed.

Lemma StronglySorted_impl {A} (R S : A -> A -> Prop) (l : list A) :
  (forall a b, R a b -> S a b) -> StronglySorted R l -> StronglySorted S l.
Proof.
  intros HRS. induction 1 as [|x l Hs IH Hall]; constructor; [exact IH|].
  eapply List.Forall_impl; [|exact Hall]. intros z. apply HRS.
Qed.

Section Stable.
Context {A : Type}.
Variable comparefn : A -> A -> option Z.
Variable good : A -> Prop.
Variable key : A -> Z.
Hypothesis comparefn_key :
  forall x y, good x -> good y -> comparefn x y = Some (key x - key y).

Lemma insertSorted_ties (k : Z) (x : A) (s : list A) :
  good x -> Forall good s ->
  List.filter (fun v => key v =? k) (insertSorted comparefn x s)
  = List.filter (fun v => key v =? k) (x :: s).
Proof.
  intros Hx Hs. induction s as [|y s IH]; [reflexivity|].
  apply Forall_cons_1 in Hs as [Hy Hs]. cbn [insertSorted].
  unfold sortCompare. rewrite comparefn_key by assumption.
  destruct (0 <? key x - key y) eqn:E; [|reflexivity].
  apply Z.ltb_lt in E. cbn [List.filter]. rewrite (IH Hs). cbn [List.filter].
  destruct (key x =? k) eqn:Ex, (key y =? k) eqn:Ey; try reflexivity.
  apply Z.eqb_eq in Ex, Ey. lia.
Qed.

Lemma sort_ties (k : Z) (l : list A) :
  Forall good l ->
  List.filter (fun v => key v =? k) (sort comparefn l)
  = List.filter (fun v => key v =? k) l.
Proof.
  induction 1 as [|x l Hx Hl IH]; [reflexivity|].
  cbn [sort]. rewrite insertSorted_ties; [|exact Hx|].
  - cbn [List.filter]. now rewrite IH.
  - rewrite (sort_perm comparefn l). exact Hl.
Qed.

End Stable.

(** What is sorted by a key and keeps, for every key, the elements of
    that key in their order, is one list: a stable sort has one result. *)
Lemma stable_sorted_unique {A} (key : A -> Z) (l1 l2 : list A) :
  StronglySorted (fun a b => key a <= key b) l1 ->
  StronglySorted (fun a b => key a <= key b) l2 ->
  (forall k, List.filter (fun v => key v =? k) l1 = List.filter (fun v => key v =? k) l2) ->
  l1 = l2.
Proof.
  revert l2. induction l1 as [|x t1 IH]; intros l2 H1 H2 Hf.
  - destruct l2 as [|y t2]; [reflexivity|].
    specialize (Hf (key y)). simpl in Hf. rewrite Z.eqb_refl in Hf. discriminate Hf.
  - destruct l2 as [|y t2].
    { specialize (Hf (key x)). simpl in Hf. rewrite Z.eqb_refl in Hf. discriminate Hf. }
    apply StronglySorted_inv in H1 as [H1 Hx]. apply StronglySorted_inv in H2 as [H2 Hy].
    rewrite List.Forall_forall in Hx, Hy.
    assert (Hle : key x <= key y).
    { assert (Hin : In y (List.filter (fun v => key v =? key y) (x :: t1))).
      { rewrite (Hf (key y)). simpl. rewrite Z.eqb_refl. now left. }
      apply List.filter_In in Hin as [[-> | Hin] _]; [lia | now apply Hx]. }
    assert (Hge : key y <= key x).
    { assert (Hin : In x (List.filter (fun v => key v =? key x) (y :: t2))).
      { rewrite <- (Hf (key x)). simpl. rewrite Z.eqb_refl. now left. }
      apply List.filter_In in Hin as [[-> | Hin] _]; [lia | now apply Hy]. }
    assert (Hxy : key y = key x) by lia.
    assert (Hhead : x = y).
    { specialize (Hf (key x)). simpl in Hf. rewrite Hxy, Z.eqb_refl in Hf. congruence. }
    subst y. f_equal. apply IH; [exact H1 | exact H2 |].
    intros k. specialize (Hf k). simpl in Hf.
    destruct (key x =? k); congruence.
Qed.

(** When every two elements compare as equal, each adjacent pair is in
    order, and the sort leaves the list as it is. *)
Lemma sort_all_equal {A} (comparefn : A -> A -> option Z) (l : list A) :
  (forall a b, In a l -> In b l -> sortCompare comparefn a b = 0) ->
  sort comparefn l = l.
Proof.
  intros H. apply sort_adjacentOrdered_id.
  induction l as [|x [|y l] IH]; [exact I | exact I |].
  split.
  - rewrite H; [lia | now left | right; now left].
  - apply IH. intros a b Ha Hb. apply H; now right.
Qed.

(** Line 16: [useState('desc')]. *)
Definition defaultSortOrder : string := "desc".

Section SortStage.
Variable parse : string -> option Z.

(** The time value of the check-in of a record whose timestamp parses. *)
Definition timeOf (v : Visitor) : Z := default 0 (checkinDate parse v).

Lemma compareVisitors_desc (a b : Visitor) :
  validDate parse a -> validDate parse b ->
  compareVisitors parse "desc" a b = Some (- timeOf a - - timeOf b).
Proof.
  intros [ta Ha] [tb Hb]. unfold compareVisitors, timeOf. rewrite Ha, Hb.
  simpl. f_equal. lia.
Qed.

Lemma compareVisitors_asc (a b : Visitor) :
  validDate parse a -> validDate parse b ->
  compareVisitors parse "asc" a b = Some (timeOf a - timeOf b).
Proof.
  intros [ta Ha] [tb Hb]. unfold compareVisitors, timeOf. rewrite Ha, Hb.
  reflexivity.
Qed.

(** Only whether the order is ['desc'] matters. *)
Lemma sortStage_order (o : string) (l : list Visitor) :
  sortStage parse o l
  = sortStage parse (if String.eqb o "desc" then "desc" else "asc") l.
Proof.
  apply sort_ext. intros a b. unfold compareVisitors.
  destruct (String.eqb o "desc"); reflexivity.
Qed.

Lemma sortStage_desc_sorted (l : list Visitor) :
  Forall (validDate parse) l ->
  StronglySorted (fun a b => timeOf b <= timeOf a) (sortStage parse "desc" l).
Proof.
  intros Hl. eapply StronglySorted_impl;
    [|apply (sort_sorted _ (validDate parse) (fun v => - timeOf v));
      [apply compareVisitors_desc | exact Hl]].
  simpl. intros a b. lia.
Qed.

Lemma sortStage_asc_sorted (l : list Visitor) :
  Forall (validDate parse) l ->
  StronglySorted (fun a b => timeOf a <= timeOf b) (sortStage parse "asc" l).
Proof.
  intros Hl. apply (sort_sorted _ (validDate parse) timeOf);
    [apply compareVisitors_asc | exact Hl].
Qed.

Lemma sortStage_perm (o : string) (l : list Visitor) :
  Permutation (sortStage parse o l) l.
Proof. apply sort_perm. Qed.

Lemma sortStage_In (o : string) (v : Visitor) (l : list Visitor) :
  In v l -> In v (sortStage parse o l).
Proof. apply Permutation_in. symmetry. apply sortStage_perm. Qed.

(** In a list sorted one way the later record comes first, in a list
    sorted the other way the earlier one. *)
Lemma later_first_desc (a b : Visitor) (l : list Visitor) :
  Forall (validDate parse) l -> In a l -> In b l -> timeOf a < timeOf b ->
  precedes b a (sortStage parse "desc" l)
  /\ ~ precedes a b (sortStage parse "desc" l).
Proof.
  intros Hl Ha Hb Hab.
  pose proof (sortStage_desc_sorted l Hl) as Hs.
  assert (Hno : ~ precedes a b (sortStage parse "desc" l)).
  { intros Hp. apply (StronglySorted_precedes _ _ _ _ Hs) in Hp. lia. }
  split; [|exact Hno].
  destruct (In_precedes a b (sortStage parse "desc" l)) as [Hp | Hp];
    [now apply sortStage_In | now apply sortStage_In | | contradiction | exact Hp].
  intros ->. lia.
Qed.

Lemma earlier_first_asc (a b : Visitor) (l : list Visitor) :
  Forall (validDate parse) l -> In a l -> In b l -> timeOf a < timeOf b ->
  precedes a b (sortStage parse "asc" l)
  /\ ~ precedes b a (sortStage parse "asc" l).
Proof.
  intros Hl Ha Hb Hab.
  pose proof (sortStage_asc_sorted l Hl) as Hs.
  assert (Hno : ~ precedes b a (sortStage parse "asc" l)).
  { intros Hp. apply (StronglySorted_precedes _ _ _ _ Hs) in Hp. lia. }
  split; [|exact Hno].
  destruct (In_precedes a b (sortStage parse "asc" l)) as [Hp | Hp];
    [now apply sortStage_In | now apply sortStage_In | | exact Hp | contradiction].
  intros ->. lia.
Qed.

Lemma toggle_reverses_desc (a b : Visitor) (l : list Visitor) :
  Forall (validDate parse) l -> In a l -> In b l -> timeOf a <> timeOf b ->
  precedes a b (sortStage parse "desc" l) <-> precedes b a (sortStage parse "asc" l).
Proof.
  intros Hl Ha Hb Hab.
  destruct (Z.lt_total (timeOf a) (timeOf b)) as [Hlt | [Heq | Hgt]]; [|contradiction|].
  - destruct (later_first_desc a b l Hl Ha Hb Hlt) as [_ H1].
    destruct (earlier_first_asc a b l Hl Ha Hb Hlt) as [_ H2]. tauto.
  - destruct (later_first_desc b a l Hl Hb Ha Hgt) as [H1 _].
    destruct (earlier_first_asc b a l Hl Hb Ha Hgt) as [H2 _]. tauto.
Qed.

(** The order of the view: latest first when the direction is ['desc'],
    earliest first otherwise. *)
Definition inOrder (o : string) (a b : Visitor) : Prop :=
  if String.eqb o "desc" then timeOf b <= timeOf a else timeOf a <= timeOf b.

Lemma filter_time_opp (t : Z) (l : list Visitor) :
  List.filter (fun v => - timeOf v =? t) l = List.filter (fun v => timeOf v =? - t) l.
Proof.
  apply filter_ext. intros v.
  destruct (Z.eqb_spec (- timeOf v) t), (Z.eqb_spec (timeOf v) (- t)); try reflexivity; lia.
Qed.

(** The sorted view keeps the records of one instant in their order. *)
Lemma sortStage_ties (o : string) (t : Z) (l : list Visitor) :
  Forall (validDate parse) l ->
  List.filter (fun v => timeOf v =? t) (sortStage parse o l)
  = List.filter (fun v => timeOf v =? t) l.
Proof.
  intros Hl. rewrite (sortStage_order o). destruct (String.eqb o "desc").
  - pose proof (sort_ties (compareVisitors parse "desc") (validDate parse)
                  (fun v => - timeOf v) compareVisitors_desc (- t) l Hl) as H.
    cbv beta in H. rewrite !filter_time_opp, !Z.opp_involutive in H. exact H.
  - apply (sort_ties (compareVisitors parse "asc") (validDate parse)
             timeOf compareVisitors_asc t l Hl).
Qed.

(** Every stable arrangement in the order of the view is the one of the
    model. *)
Lemma sortStage_unique (o : string) (l out : list Visitor) :
  Forall (validDate parse) l ->
  StronglySorted (inOrder o) out ->
  (forall t, List.filter (fun v => timeOf v =? t) out
             = List.filter (fun v => timeOf v =? t) l) ->
  out = sortStage parse o l.
Proof.
  intros Hl Hs Hties.
  assert (Hm : forall t, List.filter (fun v => timeOf v =? t) out
                         = List.filter (fun v => timeOf v =? t) (sortStage parse o l)).
  { intros t. now rewrite sortStage_ties. }
  rewrite (sortStage_order o) in *. unfold inOrder in Hs.
  destruct (String.eqb o "desc").
  - apply (stable_sorted_unique (fun v => - timeOf v)).
    + eapply StronglySorted_impl; [|exact Hs]. simpl. intros a b. lia.
    + eapply StronglySorted_impl; [|apply sortStage_desc_sorted, Hl]. simpl. intros a b. lia.
    + intros k. rewrite !filter_time_opp. apply Hm.
  - apply (stable_sorted_unique timeOf);
      [exact Hs | apply sortStage_asc_sorted, Hl | exact Hm].
Qed.

(** An invalid date compares as [NaN] with every date, either way. *)
Lemma compareVisitors_invalid (o : string) (a b : Visitor) :
  checkinDate parse a = None ->
  compareVisitors parse o a b = None /\ compareVisitors parse o b a = None.
Proof.
  intros Ha. unfold compareVisitors. rewrite Ha.
  destruct (String.eqb o "desc"), (checkinDate parse b); split; reflexivity.
Qed.

(** A list whose valid dates are all the same instant stays as it is. *)
Lemma sortStage_equal_times (o : string) (l : list Visitor) :
  (forall a b, In a l -> In b l -> validDate parse a -> validDate parse b ->
               timeOf a = timeOf b) ->
  sortStage parse o l = l.
Proof.
  intros H. apply sort_all_equal. intros a b Ha Hb.
  specialize (H a b Ha Hb). unfold sortCompare, compareVisitors, timeOf, validDate in *.
  destruct (checkinDate parse a) as [ta|], (checkinDate parse b) as [tb|];
    destruct (String.eqb o "desc"); simpl in *; try reflexivity;
    (assert (ta = tb) by (apply H; eexists; reflexivity)); lia.
Qed.

(** The sort as the specification words it: a record whose timestamp is
    missing or does not parse sorts with the time [now]. *)
Definition timeOrNow (now : Z) (v : Visitor) : Z := default now (checkinDate parse v).

Definition compareAsIfNow (now : Z) (sortOrder : string) (a b : Visitor) : option Z :=
  if String.eqb sortOrder "desc" then Some (timeOrNow now b - timeOrNow now a)
  else Some (timeOrNow now a - timeOrNow now b).

Definition sortAsIfNow (now : Z) (sortOrder : string) (l : list Visitor) : list Visitor :=
  sort (compareAsIfNow now sortOrder) l.

End SortStage.

(** A record without any timestamp. *)
Definition undated : Visitor :=
  {| v_id := 9; v_name := Some "Eve"; v_full_name := None;
     v_email := Some "eve@example.com"; v_phone := Some "5550100900";
     v_phone_number := None; v_purpose := Some "Other";
     v_checkin_time := None; v_entry_time := None; v_created_at := None; v_null := [] |}.

(** Noon UTC on 1 June 2024. *)
Definition june1st : Z := 1717243200000.

(** C3, as stated, fails: a record without timestamp is not sorted as if
    its timestamp were now.  Its date is invalid, the comparator answers
    [NaN] against every record, and the record stays where it was: behind
    Bob in the newest-first view, although now is later than Bob's visit. *)
Lemma sort_does_not_use_now :
  sortStage (JsDate.parse 0) "desc" [bob; undated] = [bob; undated]
  /\ sortAsIfNow (JsDate.parse 0) june1st "desc" [bob; undated] = [undated; bob]
  /\ sortStage (JsDate.parse 0) "asc" [undated; bob] = [undated; bob]
  /\ sortAsIfNow (JsDate.parse 0) june1st "asc" [undated; bob] = [bob; undated].
Proof. repeat split; vm_compute; reflexivity. Qed.

(** A record the backend sent with [entry_time: null] and no check-in
    time. *)
Definition nullDated : Visitor :=
  {| v_id := 10; v_name := Some "Finn"; v_full_name := None;
     v_email := Some "finn@example.com"; v_phone := Some "5550101000";
     v_phone_number := None; v_purpose := Some "Other";
     v_checkin_time := None; v_entry_time := None; v_created_at := None;
     v_null := ["checkin_time"; "entry_time"] |}.

(** C3, amended. When the date of every filtered record is valid, the
    viewer sorts the records by check-in time, latest first in the default
    direction and earliest first when toggled; toggling the direction
    reverses the relative order of any two records with distinct
    timestamps; and the view is the one stable arrangement in that order,
    which is what every sort that conforms to ECMAScript produces.  The
    date of a record is that of its [checkin_time] or else its
    [entry_time]: the parsed string; the first of January 1970 when
    there is no string and [entry_time] is [null]; invalid when the
    string does not parse or when there is neither a string nor such a
    [null].  A record with an invalid date is not sorted as if it had
    checked in now: the comparator answers [NaN] for it against every
    record, in both directions, which the sort reads as equal; so a list
    stays in the order it has when its valid dates are all one instant, as
    they are when only one record has a valid date. *)
Theorem sort_by_checkin_time (parse : string -> option Z) (l : list Visitor) :
  (Forall (validDate parse) l ->
   (Permutation (sortStage parse defaultSortOrder l) l
    /\ StronglySorted (fun a b => timeOf parse b <= timeOf parse a)
                      (sortStage parse defaultSortOrder l))
   /\ (Permutation (sortStage parse (toggleSortOrder defaultSortOrder) l) l
       /\ StronglySorted (fun a b => timeOf parse a <= timeOf parse b)
                         (sortStage parse (toggleSortOrder defaultSortOrder) l))
   /\ (forall o a b,
          In a l -> In b l -> timeOf parse a <> timeOf parse b ->
          (precedes a b (sortStage parse o l)
           <-> precedes b a (sortStage parse (toggleSortOrder o) l)))
   /\ (forall o out,
          StronglySorted (inOrder parse o) out ->
          (forall t, List.filter (fun v => timeOf parse v =? t) out
                     = List.filter (fun v => timeOf parse v =? t) l) ->
          out = sortStage parse o l))
  /\ (forall v s,
        js_or (v_checkin_time v) (v_entry_time v) = Some s ->
        checkinDate parse v = parse s)
  /\ (forall v,
        js_or (v_checkin_time v) (v_entry_time v) = None ->
        checkinDate parse v = if isNull v "entry_time" then Some 0 else None)
  /\ (forall o a b,
        checkinDate parse a = None ->
        compareVisitors parse o a b = None
        /\ compareVisitors parse o b a = None
        /\ sortCompare (compareVisitors parse o) a b = 0
        /\ sortCompare (compareVisitors parse o) b a = 0)
  /\ (forall o,
        (forall a b, In a l -> In b l -> validDate parse a -> validDate parse b ->
                     timeOf parse a = timeOf parse b) ->
        sortStage parse o l = l).
Proof.
  split; [|split; [|split; [|split]]].
  - intros Hl. split; [|split; [|split]].
    + split; [apply sortStage_perm | apply sortStage_desc_sorted, Hl].
    + split; [apply sortStage_perm | apply sortStage_asc_sorted, Hl].
    + intros o a b Ha Hb Hab.
      rewrite (sortStage_order parse o), (sortStage_order parse (toggleSortOrder o)).
      unfold toggleSortOrder. destruct (String.eqb o "desc"); simpl.
      * apply toggle_reverses_desc; assumption.
      * symmetry. apply toggle_reverses_desc; auto.
    + intros o out. apply sortStage_unique, Hl.
  - intros v s H. unfold checkinDate. rewrite H. reflexivity.
  - intros v H. unfold checkinDate. rewrite H. reflexivity.
  - intros o a b Ha. destruct (compareVisitors_invalid parse o a b Ha) as [H1 H2].
    unfold sortCompare. rewrite H1, H2. repeat split.
  - intros o. apply sortStage_equal_times.
Qed.

Lemma sort_by_checkin_time_witness :
  Forall (validDate (JsDate.parse 0)) [alice; bob; nullDated]
  /\ sortStage (JsDate.parse 0) defaultSortOrder [alice; bob; nullDated]
     = [bob; alice; nullDated]
  /\ sortStage (JsDate.parse 0) (toggleSortOrder defaultSortOrder) [alice; bob; nullDated]
     = [nullDated; alice; bob]
  /\ checkinDate (JsDate.parse 0) nullDated = Some 0
  /\ checkinDate (JsDate.parse 0) undated = None
  /\ sortStage (JsDate.parse 0) defaultSortOrder [bob; undated] = [bob; undated].
Proof.
  pose proof (sort_by_checkin_time (JsDate.parse 0) [alice; bob; nullDated])
    as (Hvalid & _ & Hnone & _ & _).
  pose proof (sort_by_checkin_time (JsDate.parse 0) [bob; undated])
    as (_ & _ & _ & _ & Hsame).
  assert (H : Forall (validDate (JsDate.parse 0)) [alice; bob; nullDated]).
  { repeat constructor; eexists; vm_compute; reflexivity. }
  destruct (Hvalid H) as (_ & _ & _ & Hunique).
  assert (Hbob : timeOf (JsDate.parse 0) bob = 1705276800000)
    by (vm_compute; reflexivity).
  assert (Halice : timeOf (JsDate.parse 0) alice = 1704067200000)
    by (vm_compute; reflexivity).
  assert (Hnull : timeOf (JsDate.parse 0) nullDated = 0) by reflexivity.
  split; [exact H|].
  split.
  { symmetry. apply Hunique.
    - repeat constructor; vm_compute; discriminate.
    - intros t. cbn [List.filter]. rewrite Hbob, Halice, Hnull.
      destruct (Z.eqb_spec 1705276800000 t), (Z.eqb_spec 1704067200000 t),
        (Z.eqb_spec 0 t); try reflexivity; exfalso; lia. }
  split.
  { symmetry. apply Hunique.
    - repeat constructor; vm_compute; discriminate.
    - intros t. cbn [List.filter]. rewrite Hbob, Halice, Hnull.
      destruct (Z.eqb_spec 1705276800000 t), (Z.eqb_spec 1704067200000 t),
        (Z.eqb_spec 0 t); try reflexivity; exfalso; lia. }
  split; [exact (Hnone nullDated eq_refl)|].
  split; [exact (Hnone undated eq_refl)|].
  apply Hsame. intros a b Ha Hb Hva Hvb.
  assert (Honly : forall v, In v [bob; undated] -> validDate (JsDate.parse 0) v -> v = bob).
  { intros v [<- | [<- | []]] Hv; [reflexivity|].
    destruct Hv as [t Ht]. vm_compute in Ht. discriminate Ht. }
  now rewrite (Honly a Ha Hva), (Honly b Hb Hvb).
Defined.

Example sort_newest_first :
  sortStage (JsDate.parse 0) "desc" [alice; bob] = [bob; alice].
Proof. vm_compute. reflexivity. Qed.

Example sort_oldest_first :
  sortStage (JsDate.parse 0) "asc" [bob; alice] = [alice; bob].
Proof. vm_compute. reflexivity. Qed.

(** ** Pagination *)

(** Line 15: [useState(10)]. *)
Definition defaultItemsPerPage : Z := 10.

(** The page numbers [1 .. n]. *)
Definition pageNumbers (n : Z) : list Z := map Z.of_nat (seq 1 (Z.to_nat n)).

Section Pagination.
Context {A : Type}.

(** The elements at the indices [[from, from + size)]. *)
Definition window (l : list A) (from size : nat) : list A :=
  firstn size (skipn from l).

Lemma firstn_window (l : list A) (a b : nat) :
  firstn a l ++ window l a b = firstn (a + b) l.
Proof.
  unfold window. revert l; induction a as [|a IH]; intros l; simpl; [reflexivity|].
  destruct l as [|x l]; simpl.
  - now rewrite firstn_nil.
  - now rewrite IH.
Qed.

Lemma concat_windows (l : list A) (size k : nat) :
  concat (map (fun i => window l (i * size) size) (seq 0 k)) = firstn (k * size) l.
Proof.
  induction k as [|k IH]; [reflexivity|].
  rewrite seq_S, map_app, concat_app, IH. simpl.
  rewrite app_nil_r, firstn_window. f_equal. lia.
Qed.

Lemma slice_window (l : list A) (from size : Z) :
  0 <= from -> 0 <= size ->
  slice l from (from + size) = window l (Z.to_nat from) (Z.to_nat size).
Proof.
  intros Hfrom Hsize. unfold slice, window, relativeIndex.
  set (len := Z.of_nat (length l)).
  assert (Hlen : 0 <= len) by (unfold len; lia).
  destruct (from <? 0) eqn:E1; [lia|]. destruct (from + size <? 0) eqn:E2; [lia|].
  destruct (Z_lt_le_dec from len) as [Hin | Hout].
  - rewrite (Z.min_l from len) by lia.
    destruct (Z_le_gt_dec (from + size) len) as [Hfit | Hover].
    + rewrite Z.min_l by lia. f_equal. lia.
    + rewrite Z.min_r by lia.
      rewrite !firstn_all2; [reflexivity | |]; rewrite length_skipn; unfold len in *; lia.
  - rewrite (Z.min_r from len) by lia.
    rewrite !skipn_all2 by (unfold len in *; lia).
    now rewrite !firstn_nil.
Qed.

Lemma currentItems_window (l : list A) (n size : Z) :
  1 <= n -> 0 < size ->
  currentItems l n size = window l (Z.to_nat ((n - 1) * size)) (Z.to_nat size).
Proof.
  intros Hn Hsize. unfold currentItems, indexOfFirstItem, indexOfLastItem.
  replace (n * size - size) with ((n - 1) * size) by lia.
  replace (n * size) with ((n - 1) * size + size) by lia.
  apply slice_window; nia.
Qed.

Lemma ceilDiv_bounds (a b : Z) :
  0 < b -> (ceilDiv a b - 1) * b < a <= ceilDiv a b * b.
Proof.
  intros Hb. unfold ceilDiv.
  pose proof (Z.div_mod (- a) b ltac:(lia)) as Hdm.
  pose proof (Z.mod_pos_bound (- a) b Hb) as Hmod.
  nia.
Qed.

Lemma pages_concat (l : list A) (size : Z) (k : nat) :
  0 < size ->
  concat (map (fun n => currentItems l n size) (map Z.of_nat (seq 1 k)))
  = firstn (k * Z.to_nat size) l.
Proof.
  intros Hsize. rewrite <- concat_windows. f_equal.
  rewrite <- seq_shift, !map_map. apply map_ext_in.
  intros i _. rewrite currentItems_window by lia. f_equal. nia.
Qed.

End Pagination.

(** C4. For a positive page size (10 in the viewer), page [n] counted
    from 1 holds the records at the indices [(n-1)*size, n*size) of the
    filtered and sorted sequence; the number of pages is the length
    divided by the size, rounded up; the pages in order, joined, are the
    whole sequence; every page before the last is full, the last one is
    not empty, and no page is longer than the size. *)
Theorem pagination_partitions (A : Type) (l : list A) (size : Z) :
  0 < size ->
  (forall n, 1 <= n ->
     currentItems l n size
     = firstn (Z.to_nat size) (skipn (Z.to_nat ((n - 1) * size)) l))
  /\ (totalPages l size - 1) * size < Z.of_nat (length l) <= totalPages l size * size
  /\ concat (map (fun n => currentItems l n size) (pageNumbers (totalPages l size))) = l
  /\ (forall n, 1 <= n -> Z.of_nat (length (currentItems l n size)) <= size)
  /\ (forall n, 1 <= n < totalPages l size ->
        Z.of_nat (length (currentItems l n size)) = size)
  /\ (1 <= totalPages l size ->
        1 <= Z.of_nat (length (currentItems l (totalPages l size) size)))
  /\ (forall n, totalPages l size < n -> currentItems l n size = []).
Proof.
  intros Hsize.
  pose proof (ceilDiv_bounds (Z.of_nat (length l)) size Hsize) as Hb.
  fold (totalPages l size) in Hb.
  assert (Hlen : forall n, 1 <= n ->
            length (currentItems l n size)
            = Nat.min (Z.to_nat size) (length l - Z.to_nat ((n - 1) * size))).
  { intros n Hn. rewrite currentItems_window by lia. unfold window.
    now rewrite length_firstn, length_skipn. }
  split; [|split; [|split; [|split; [|split; [|split]]]]].
  - intros n Hn. now apply currentItems_window.
  - exact Hb.
  - unfold pageNumbers. rewrite pages_concat by exact Hsize.
    apply firstn_all2. nia.
  - intros n Hn. rewrite Hlen by exact Hn. lia.
  - intros n Hn. rewrite Hlen by lia. nia.
  - intros Htp. rewrite Hlen by exact Htp. nia.
  - intros n Hn.
    assert (H1 : 1 <= n) by nia.
    apply length_zero_iff_nil. rewrite Hlen by exact H1. nia.
Qed.

Lemma pagination_partitions_witness :
  0 < defaultItemsPerPage
  /\ concat (map (fun n => currentItems (seq 0 25) n defaultItemsPerPage)
                 (pageNumbers (totalPages (seq 0 25) defaultItemsPerPage)))
     = seq 0 25.
Proof.
  assert (H : 0 < defaultItemsPerPage) by reflexivity.
  split; [exact H|].
  exact (proj1 (proj2 (proj2 (pagination_partitions nat (seq 0 25) defaultItemsPerPage H)))).
Defined.

Example three_pages_of_25 : totalPages (seq 0 25) 10 = 3.
Proof. reflexivity. Qed.

Example last_page_of_25 : currentItems (seq 0 25) 3 10 = [20; 21; 22; 23; 24]%nat.
Proof. reflexivity. Qed.

(** ** The calendar *)

Lemma civilOfDoe_bounds (doe : Z) :
  0 <= doe < 146097 ->
  let yoe := (doe - doe / 1460 + doe / 36524 - doe / 146096) / 365 in
  0 <= yoe <= 399 /\ 0 <= doe - (365 * yoe + yoe / 4 - yoe / 100) <= 365.
Proof. intros H yoe. subst yoe. Z.div_mod_to_equations. lia. Qed.

Lemma month_day_bounds (doy : Z) :
  0 <= doy <= 365 ->
  let mp := (5 * doy + 2) / 153 in
  0 <= mp <= 11 /\ 1 <= doy - (153 * mp + 2) / 5 + 1 <= 31.
Proof. intros H mp. subst mp. Z.div_mod_to_equations. lia. Qed.

(** A day of the era and its civil date determine each other. *)
Lemma civilOfDoe_inv (doe : Z) :
  0 <= doe < 146097 ->
  let '(yoe, m, d) := JsDate.civilOfDoe doe in
  0 <= yoe <= 399 /\ 1 <= m <= 12 /\ 1 <= d <= 31
  /\ JsDate.doeOfCivil yoe m d = doe.
Proof.
  intros H. unfold JsDate.civilOfDoe, JsDate.doeOfCivil.
  destruct (civilOfDoe_bounds doe H) as [Hy Hdoy].
  set (yoe := (doe - doe / 1460 + doe / 36524 - doe / 146096) / 365) in *.
  set (doy := doe - (365 * yoe + yoe / 4 - yoe / 100)) in *.
  destruct (month_day_bounds doy Hdoy) as [Hmp Hd].
  set (mp := (5 * doy + 2) / 153) in *.
  split; [exact Hy|].
  destruct (mp <? 10) eqn:E.
  - replace (2 <? mp + 3) with true by (symmetry; apply Z.ltb_lt; lia).
    replace (mp + 3 - 3) with mp by lia.
    repeat split; lia.
  - replace (2 <? mp - 9) with false by (symmetry; apply Z.ltb_ge; lia).
    replace (mp - 9 + 9) with mp by lia.
    repeat split; lia.
Qed.

Lemma civilFromDays_inv (z : Z) :
  let '(y, m, d) := JsDate.civilFromDays z in
  1 <= m <= 12 /\ 1 <= d <= 31 /\ JsDate.daysFromCivil y m d = z.
Proof.
  unfold JsDate.civilFromDays.
  set (era := (z + 719468) / 146097).
  assert (Hdoe : 0 <= z + 719468 - era * 146097 < 146097).
  { subst era. Z.div_mod_to_equations. lia. }
  pose proof (civilOfDoe_inv _ Hdoe) as H.
  destruct (JsDate.civilOfDoe (z + 719468 - era * 146097)) as [[yoe m] d].
  destruct H as (Hy & Hm & Hd & Hinv).
  split; [exact Hm|]. split; [exact Hd|].
  unfold JsDate.daysFromCivil.
  assert (Hy' : (if m <=? 2 then yoe + era * 400 + (if m <=? 2 then 1 else 0) - 1
                 else yoe + era * 400 + (if m <=? 2 then 1 else 0))
                = yoe + era * 400) by (destruct (m <=? 2); lia).
  rewrite Hy'.
  assert (He : (yoe + era * 400) / 400 = era) by (Z.div_mod_to_equations; lia).
  rewrite He. replace (yoe + era * 400 - era * 400) with yoe by lia.
  rewrite Hinv. lia.
Qed.

Lemma daysFromCivil_day (y m d : Z) :
  JsDate.daysFromCivil y m d = JsDate.daysFromCivil y m 1 + d - 1.
Proof. unfold JsDate.daysFromCivil, JsDate.doeOfCivil. lia. Qed.

(** [MakeDay] on the fields of a time value, the day of the month moved
    by [k], is the day number moved by [k]. *)
Lemma MakeDay_fields (t k : Z) :
  JsDate.MakeDay (JsDate.YearFromTime t) (JsDate.MonthFromTime t)
                 (JsDate.DateFromTime t + k)
  = JsDate.Day t + k.
Proof.
  unfold JsDate.MakeDay, JsDate.YearFromTime, JsDate.MonthFromTime, JsDate.DateFromTime.
  pose proof (civilFromDays_inv (JsDate.Day t)) as H.
  destruct (JsDate.civilFromDays (JsDate.Day t)) as [[y m] d]. simpl.
  destruct H as (Hm & _ & Hinv).
  replace ((m - 1) / 12) with 0 by (Z.div_mod_to_equations; lia).
  replace ((m - 1) mod 12 + 1) with m by (Z.div_mod_to_equations; lia).
  rewrite Z.add_0_r. rewrite (daysFromCivil_day y m d) in Hinv. lia.
Qed.

(** From the epoch on, the year has four digits. *)
Lemma YearFromTime_epoch (t : Z) : 0 <= t -> 100 <= JsDate.YearFromTime t.
Proof.
  intros Ht. unfold JsDate.YearFromTime, JsDate.civilFromDays.
  assert (Hday : 0 <= JsDate.Day t).
  { unfold JsDate.Day, JsDate.msPerDay. Z.div_mod_to_equations. lia. }
  set (era := (JsDate.Day t + 719468) / 146097).
  assert (Hera : 4 <= era) by (subst era; Z.div_mod_to_equations; lia).
  assert (Hdoe : 0 <= JsDate.Day t + 719468 - era * 146097 < 146097).
  { subst era. Z.div_mod_to_equations. lia. }
  pose proof (civilOfDoe_inv _ Hdoe) as H.
  destruct (JsDate.civilOfDoe (JsDate.Day t + 719468 - era * 146097)) as [[yoe m] d].
  destruct H as (Hy & _). simpl. destruct (m <=? 2); lia.
Qed.

Lemma fullYear_epoch (t : Z) :
  0 <= t -> JsDate.fullYear (JsDate.YearFromTime t) = JsDate.YearFromTime t.
Proof.
  intros Ht. pose proof (YearFromTime_epoch t Ht) as H. unfold JsDate.fullYear.
  replace (JsDate.YearFromTime t <=? 99) with false by (symmetry; apply Z.leb_gt; lia).
  now rewrite andb_false_r.
Qed.

Lemma Day_TimeWithinDay (t : Z) :
  t = JsDate.Day t * JsDate.msPerDay + JsDate.TimeWithinDay t.
Proof.
  unfold JsDate.Day, JsDate.TimeWithinDay, JsDate.msPerDay.
  Z.div_mod_to_equations. lia.
Qed.

(** ** The dashboard aggregation *)

Section DashboardFacts.
Variable parse : string -> option Z.
Variables tz now : Z.

(** Local midnight at the start of the current day. *)
Definition startOfToday : Z := now - JsDate.TimeWithinDay (JsDate.LocalTime tz now).

(** The current moment moved back by as many whole days as the local
    day of the week counts from Sunday. *)
Definition weekdaysAgo : Z := now - JsDate.getDay tz now * JsDate.msPerDay.

(** Local midnight of the first day of the month of [t]. *)
Definition startOfMonth (t : Z) : Z :=
  JsDate.UTC tz
    ((JsDate.Day (JsDate.LocalTime tz t)
      - (JsDate.DateFromTime (JsDate.LocalTime tz t) - 1)) * JsDate.msPerDay).

(** The clock shows a time after the epoch, local time. *)
Definition afterEpoch : Prop := 0 <= JsDate.LocalTime tz now.

Lemma today_startOfToday : afterEpoch -> today tz now = startOfToday.
Proof.
  intros Hnow.
  unfold today, startOfToday, JsDate.newDateYMD, JsDate.getFullYear,
    JsDate.getMonth, JsDate.getDate.
  rewrite fullYear_epoch by exact Hnow.
  pose proof (MakeDay_fields (JsDate.LocalTime tz now) 0) as H.
  rewrite Z.add_0_r in H. rewrite H.
  pose proof (Day_TimeWithinDay (JsDate.LocalTime tz now)) as Hd.
  unfold JsDate.UTC, JsDate.MakeDate, JsDate.LocalTime in *. lia.
Qed.

Lemma weekStart_weekdaysAgo : weekStart tz now = weekdaysAgo.
Proof.
  unfold weekStart, nowAfterSetDate, weekdaysAgo, JsDate.setDate,
    JsDate.getDate, JsDate.getDay.
  replace (JsDate.DateFromTime (JsDate.LocalTime tz now)
           - JsDate.WeekDay (JsDate.LocalTime tz now))
    with (JsDate.DateFromTime (JsDate.LocalTime tz now)
          + - JsDate.WeekDay (JsDate.LocalTime tz now)) by lia.
  rewrite MakeDay_fields.
  pose proof (Day_TimeWithinDay (JsDate.LocalTime tz now)) as Hd.
  unfold JsDate.UTC, JsDate.MakeDate, JsDate.LocalTime in *. lia.
Qed.

(** The first of the month of [t], through the constructor. *)
Lemma newDateYMD_startOfMonth (t : Z) :
  0 <= JsDate.LocalTime tz t ->
  JsDate.newDateYMD tz (JsDate.getFullYear tz t) (JsDate.getMonth tz t) 1
  = startOfMonth t.
Proof.
  intros Ht. unfold startOfMonth, JsDate.newDateYMD, JsDate.getFullYear, JsDate.getMonth.
  rewrite fullYear_epoch by exact Ht.
  pose proof (MakeDay_fields (JsDate.LocalTime tz t)
                (1 - JsDate.DateFromTime (JsDate.LocalTime tz t))) as H.
  replace (JsDate.DateFromTime (JsDate.LocalTime tz t)
           + (1 - JsDate.DateFromTime (JsDate.LocalTime tz t))) with 1 in H by lia.
  rewrite H. unfold JsDate.UTC, JsDate.MakeDate. f_equal. lia.
Qed.

(** The month count starts in the month of the moment [weekdaysAgo]. *)
Lemma monthStart_weekdaysAgo :
  monthStart tz now
  = JsDate.newDateYMD tz (JsDate.getFullYear tz weekdaysAgo)
                      (JsDate.getMonth tz weekdaysAgo) 1.
Proof.
  rewrite <- weekStart_weekdaysAgo. unfold monthStart, weekStart. reflexivity.
Qed.

(** How many records of [l] satisfy [p]. *)
Definition countIf (p : Visitor -> bool) (l : list Visitor) : Z :=
  Z.of_nat (length (List.filter p l)).

Lemma countIf_cons (p : Visitor -> bool) (v : Visitor) (l : list Visitor) :
  countIf p (v :: l) = bump (p v) 0 + countIf p l.
Proof. unfold countIf, bump. simpl. destruct (p v); simpl; lia. Qed.

Definition since (bound : Z) (v : Visitor) : bool :=
  timeGe (checkinTime parse now v) bound.

Lemma fold_statsStep (l : list Visitor) (acc : Stats) :
  fold_left (statsStep parse tz now) l acc
  = {| total_visitors := total_visitors acc + Z.of_nat (length l);
       today_visitors := today_visitors acc + countIf (since (today tz now)) l;
       this_week_visitors :=
         this_week_visitors acc + countIf (since (weekStart tz now)) l;
       this_month_visitors :=
         this_month_visitors acc + countIf (since (monthStart tz now)) l |}.
Proof.
  revert acc; induction l as [|v l IH]; intros acc.
  - destruct acc. unfold countIf. simpl. f_equal; lia.
  - cbn [fold_left]. rewrite IH, !countIf_cons. unfold statsStep, since, bump. simpl.
    f_equal; repeat match goal with |- context [if ?b then _ else _] => destruct b end;
      lia.
Qed.

Lemma localStats_counts (l : list Visitor) :
  afterEpoch ->
  localStats parse tz now l
  = {| total_visitors := Z.of_nat (length l);
       today_visitors := countIf (since startOfToday) l;
       this_week_visitors := countIf (since weekdaysAgo) l;
       this_month_visitors := countIf (since (monthStart tz now)) l |}.
Proof.
  intros Hnow. unfold localStats. rewrite fold_statsStep.
  rewrite today_startOfToday by exact Hnow. rewrite weekStart_weekdaysAgo.
  reflexivity.
Qed.

Lemma countIf_all (p : Visitor -> bool) (l : list Visitor) :
  Forall (fun v => p v = true) l -> countIf p l = Z.of_nat (length l).
Proof.
  intros H. unfold countIf. f_equal. f_equal.
  apply forallb_filter_id, forallb_forall. now apply List.Forall_forall.
Qed.

(** The check-in of [v] is on the current local calendar day. *)
Definition datedToday (v : Visitor) : Prop :=
  exists t, checkinTime parse now v = Some t
            /\ JsDate.Day (JsDate.LocalTime tz t) = JsDate.Day (JsDate.LocalTime tz now).

Lemma datedToday_since (v : Visitor) : datedToday v -> since startOfToday v = true.
Proof.
  intros (t & Ht & Hday). unfold since, startOfToday. rewrite Ht. simpl.
  apply Z.leb_le.
  pose proof (Day_TimeWithinDay (JsDate.LocalTime tz now)) as H1.
  pose proof (Day_TimeWithinDay (JsDate.LocalTime tz t)) as H2.
  assert (0 <= JsDate.TimeWithinDay (JsDate.LocalTime tz t))
    by (apply Z.mod_pos_bound; reflexivity).
  unfold JsDate.LocalTime in *. lia.
Qed.

(** The counts as the specification words them: the check-in on the
    current local day, and within the week that began on Sunday. *)
Definition onDay (day : Z) (v : Visitor) : bool :=
  match checkinTime parse now v with
  | Some t => JsDate.Day (JsDate.LocalTime tz t) =? day
  | None => false
  end.

Definition inWeekFrom (sunday : Z) (v : Visitor) : bool :=
  match checkinTime parse now v with
  | Some t => (sunday <=? JsDate.Day (JsDate.LocalTime tz t))
              && (JsDate.Day (JsDate.LocalTime tz t) <? sunday + 7)
  | None => false
  end.

Definition specTodayCount (l : list Visitor) : Z :=
  countIf (onDay (JsDate.Day (JsDate.LocalTime tz now))) l.

Definition specWeekCount (l : list Visitor) : Z :=
  countIf (inWeekFrom (JsDate.Day (JsDate.LocalTime tz now) - JsDate.getDay tz now)) l.

End DashboardFacts.

Definition okResult {D} (d : D) : ApiResult D := mkApiResult true (Some d) None.

Definition visitorAt (n : Z) (who when : string) : Visitor :=
  {| v_id := n; v_name := Some who; v_full_name := None;
     v_email := Some "visitor@example.com"; v_phone := Some "5550100000";
     v_phone_number := None; v_purpose := Some "Business Meeting";
     v_checkin_time := Some when; v_entry_time := None; v_created_at := None; v_null := [] |}.

(** Wednesday 15 May 2024, noon, in a browser on UTC. *)
Definition wednesdayNoon : Z := default 0 (JsDate.parse 0 "2024-05-15T12:00:00Z").

Definition sundayMorning : Visitor := visitorAt 11 "Frank" "2024-05-12T09:00:00Z".
Definition thursdayMorning : Visitor := visitorAt 12 "Grace" "2024-05-16T09:00:00Z".

(** C5, as stated, fails.  On Wednesday noon a check-in of Sunday morning
    of the same week is in the current week, yet it is not counted: the
    week count starts at Sunday noon.  And a check-in dated Thursday is
    not dated today, yet the today count takes it: that count has no
    upper end. *)
Lemma dashboard_counts_not_by_date :
  specWeekCount (JsDate.parse 0) 0 wednesdayNoon [sundayMorning] = 1
  /\ this_week_visitors
       (fetchStats (JsDate.parse 0) 0 wednesdayNoon zeroStats
                   (okResult (PayloadArray [sundayMorning]))) = 0
  /\ specTodayCount (JsDate.parse 0) 0 wednesdayNoon [thursdayMorning] = 0
  /\ today_visitors
       (fetchStats (JsDate.parse 0) 0 wednesdayNoon zeroStats
                   (okResult (PayloadArray [thursdayMorning]))) = 1.
Proof. repeat split; vm_compute; reflexivity. Qed.

(** On Wednesday 1 May 2024 the Sunday before lies in April, and the
    month count starts on 1 April. *)
Example monthStart_previous_month :
  monthStart 0 (default 0 (JsDate.parse 0 "2024-05-01T12:00:00Z"))
  = default 0 (JsDate.parse 0 "2024-04-01T00:00:00Z").
Proof. vm_compute. reflexivity. Qed.

(** C5, amended. In a time zone that keeps one offset [tz] from UTC (no
    daylight-saving change), with the clock after the epoch, from an
    array of records the dashboard computes: the total, the length of the
    array; the today count, the number of records checked in at or after
    the local midnight that began today; the week count, the number of
    records checked in at or after the moment as many days of 24 hours
    before now as today's day of the week counts from Sunday; and, when
    that moment lies in the current month, the month count, the number of
    records checked in at or after the local start of the current month.
    A record without timestamp counts with the current time.  Over
    records all dated today, the today count equals the total. *)
Theorem dashboard_counts_since (parse : string -> option Z) (tz now : Z)
        (stats : Stats) (l : list Visitor) :
  afterEpoch tz now ->
  let s := fetchStats parse tz now stats (okResult (PayloadArray l)) in
  total_visitors s = Z.of_nat (length l)
  /\ today_visitors s = countIf (since parse now (startOfToday tz now)) l
  /\ this_week_visitors s = countIf (since parse now (weekdaysAgo tz now)) l
  /\ (JsDate.getFullYear tz (weekdaysAgo tz now) = JsDate.getFullYear tz now ->
      JsDate.getMonth tz (weekdaysAgo tz now) = JsDate.getMonth tz now ->
      this_month_visitors s = countIf (since parse now (startOfMonth tz now)) l)
  /\ (forall v, v_checkin_time v = None -> v_entry_time v = None ->
                v_created_at v = None -> checkinTime parse now v = JsDate.TimeClip now)
  /\ (Forall (datedToday parse tz now) l ->
      today_visitors s = Z.of_nat (length l) /\ today_visitors s = total_visitors s).
Proof.
  intros Hnow. cbn zeta. unfold fetchStats, okResult. cbn [success data statsOfPayload].
  rewrite localStats_counts by exact Hnow.
  cbn [total_visitors today_visitors this_week_visitors this_month_visitors].
  split; [reflexivity|]. split; [reflexivity|]. split; [reflexivity|].
  split; [|split].
  - intros Hy Hm. rewrite monthStart_weekdaysAgo, Hy, Hm.
    now rewrite newDateYMD_startOfMonth.
  - intros v H1 H2 H3. unfold checkinTime. rewrite H1, H2, H3. reflexivity.
  - intros Hl.
    assert (H : countIf (since parse now (startOfToday tz now)) l = Z.of_nat (length l)).
    { apply countIf_all. eapply Forall_impl; [exact Hl|].
      intros v Hv. now apply datedToday_since. }
    split; exact H.
Qed.

Definition threeToday : list Visitor :=
  [visitorAt 21 "Heidi" "2024-05-15T08:00:00Z";
   visitorAt 22 "Ivan" "2024-05-15T11:59:00Z";
   visitorAt 23 "Judy" "2024-05-15T23:00:00Z"].

Lemma dashboard_counts_since_witness :
  afterEpoch 0 wednesdayNoon
  /\ Forall (datedToday (JsDate.parse 0) 0 wednesdayNoon) threeToday
  /\ today_visitors (fetchStats (JsDate.parse 0) 0 wednesdayNoon zeroStats
                                (okResult (PayloadArray threeToday))) = 3
  /\ total_visitors (fetchStats (JsDate.parse 0) 0 wednesdayNoon zeroStats
                                (okResult (PayloadArray threeToday))) = 3.
Proof.
  assert (Hnow : afterEpoch 0 wednesdayNoon) by (vm_compute; discriminate).
  assert (H : Forall (datedToday (JsDate.parse 0) 0 wednesdayNoon) threeToday).
  { unfold threeToday.
    apply List.Forall_cons;
      [|apply List.Forall_cons; [|apply List.Forall_cons; [|apply List.Forall_nil]]];
      match goal with
      | |- datedToday _ _ _ (visitorAt _ _ ?w) =>
          exists (default 0 (JsDate.parse 0 w)); split; vm_compute; reflexivity
      end. }
  split; [exact Hnow|]. split; [exact H|].
  pose proof (dashboard_counts_since (JsDate.parse 0) 0 wednesdayNoon zeroStats
                threeToday Hnow)
    as (Htot & _ & _ & _ & _ & Hall).
  destruct (Hall H) as [Htoday _].
  split; [exact Htoday | exact Htot].
Defined.

(** ** The view as a function of the raw list and the filter state *)

Section FilterStages.
Context {A : Type}.

Lemma filterM_keeps (p : A -> Completion bool) (P : A -> Prop) (l out : list A) :
  filterM p l = Normal out -> Forall P l -> Forall P out.
Proof.
  revert out; induction l as [|x l IH]; intros out H Hl; simpl in H.
  - injection H as <-. constructor.
  - apply Forall_cons_1 in Hl as [Hx Hl].
    destruct (p x) as [b|]; [|discriminate].
    destruct (filterM p l) as [r|]; [|discriminate].
    injection H as <-. specialize (IH r eq_refl Hl).
    destruct b; [constructor|]; assumption.
Qed.

Lemma filterM_true (p : A -> Completion bool) (l out : list A) :
  filterM p l = Normal out -> Forall (fun x => p x = Normal true) out.
Proof.
  revert out; induction l as [|x l IH]; intros out H; simpl in H.
  - injection H as <-. constructor.
  - destruct (p x) as [b|] eqn:Ex; [|discriminate].
    destruct (filterM p l) as [r|]; [|discriminate].
    injection H as <-. specialize (IH r eq_refl).
    destruct b; [constructor|]; assumption.
Qed.

Lemma filterM_id (p : A -> Completion bool) (l : list A) :
  Forall (fun x => p x = Normal true) l -> filterM p l = Normal l.
Proof.
  induction 1 as [|x l Hx _ IH]; simpl; [reflexivity|]. now rewrite Hx, IH.
Qed.

(** A stage of [applyFilters]: the filter runs when [c] holds. *)
Definition stage (c : bool) (p : A -> Completion bool) (l : list A) : Completion (list A) :=
  if c then filterM p l else Normal l.

Definition passes (c : bool) (p : A -> Completion bool) (x : A) : Prop :=
  c = true -> p x = Normal true.

Lemma stage_keeps c p (P : A -> Prop) (l out : list A) :
  stage c p l = Normal out -> Forall P l -> Forall P out.
Proof.
  unfold stage. destruct c; [apply filterM_keeps|].
  intros H. injection H as <-. trivial.
Qed.

Lemma stage_passes c p (l out : list A) :
  stage c p l = Normal out -> Forall (passes c p) out.
Proof.
  unfold stage, passes. destruct c.
  - intros H. apply filterM_true in H.
    eapply Forall_impl; [exact H|]. auto.
  - intros _. apply List.Forall_forall. intros x _ Hc. discriminate.
Qed.

Lemma stage_id c p (l : list A) :
  Forall (passes c p) l -> stage c p l = Normal l.
Proof.
  unfold stage, passes. destruct c; [|reflexivity].
  intros H. apply filterM_id. eapply Forall_impl; [exact H|]. auto.
Qed.

Lemma filter_all_true (q : A -> bool) (l : list A) :
  Forall (fun x => q x = true) (List.filter q l).
Proof.
  induction l as [|x l IH]; simpl; [constructor|].
  destruct (q x) eqn:E; [constructor|]; assumption.
Qed.

Lemma filter_id (q : A -> bool) (l : list A) :
  Forall (fun x => q x = true) l -> List.filter q l = l.
Proof.
  intros H. apply forallb_filter_id, forallb_forall. now apply List.Forall_forall.
Qed.

End FilterStages.

Section Purity.
Variable parse : string -> option Z.

Lemma compareVisitors_total (o : string) (x y : Visitor) :
  sortCompare (compareVisitors parse o) x y <= 0
  \/ sortCompare (compareVisitors parse o) y x <= 0.
Proof.
  unfold sortCompare, compareVisitors, dateSub.
  destruct (String.eqb o "desc"), (checkinDate parse x), (checkinDate parse y); lia.
Qed.

Lemma sortStage_idempotent (o : string) (l : list Visitor) :
  sortStage parse o (sortStage parse o l) = sortStage parse o l.
Proof. apply sort_idempotent, compareVisitors_total. Qed.

Lemma Forall_sortStage (P : Visitor -> Prop) (o : string) (l : list Visitor) :
  Forall P l -> Forall P (sortStage parse o l).
Proof.
  intros H. apply List.Forall_forall. intros x Hx.
  rewrite List.Forall_forall in H. apply H.
  eapply Permutation_in; [apply sortStage_perm | exact Hx].
Qed.

(** The shape of [filterSort]: three stages that may throw, a plain
    filter between the first two, and the sort. *)
Definition pipeline (c1 c3 c4 cq : bool) (p1 p3 p4 : Visitor -> Completion bool)
           (q : Visitor -> bool) (o : string) (l : list Visitor)
  : Completion (list Visitor) :=
  f1 ← stage c1 p1 l;
  f3 ← stage c3 p3 (if cq then List.filter q f1 else f1);
  f4 ← stage c4 p4 f3;
  Normal (sortStage parse o f4).

Lemma pipeline_fixed c1 c3 c4 cq p1 p3 p4 q o (l out : list Visitor) :
  pipeline c1 c3 c4 cq p1 p3 p4 q o l = Normal out ->
  pipeline c1 c3 c4 cq p1 p3 p4 q o out = Normal out.
Proof.
  unfold pipeline. intros H.
  destruct (stage c1 p1 l) as [f1|] eqn:E1; [|discriminate H].
  cbn [mbind completion_bind] in H.
  destruct (stage c3 p3 (if cq then List.filter q f1 else f1)) as [f3|] eqn:E3;
    [|discriminate H].
  cbn [mbind completion_bind] in H.
  destruct (stage c4 p4 f3) as [f4|] eqn:E4; [|discriminate H].
  cbn [mbind completion_bind] in H. injection H as <-.
  assert (H1 : Forall (passes c1 p1) (sortStage parse o f4)).
  { apply Forall_sortStage. eapply stage_keeps; [exact E4|].
    eapply stage_keeps; [exact E3|].
    pose proof (stage_passes _ _ _ _ E1) as Hp.
    destruct cq; [apply Forall_filter_keep|]; exact Hp. }
  assert (H2 : (if cq then List.filter q (sortStage parse o f4)
                else sortStage parse o f4) = sortStage parse o f4).
  { destruct cq; [|reflexivity].
    apply filter_id, Forall_sortStage. eapply stage_keeps; [exact E4|].
    eapply stage_keeps; [exact E3|]. apply filter_all_true. }
  assert (H3 : Forall (passes c3 p3) (sortStage parse o f4)).
  { apply Forall_sortStage. eapply stage_keeps; [exact E4|].
    eapply stage_passes; exact E3. }
  assert (H4 : Forall (passes c4 p4) (sortStage parse o f4)).
  { apply Forall_sortStage. eapply stage_passes; exact E4. }
  rewrite (stage_id _ _ _ H1). cbn [mbind completion_bind].
  rewrite H2, (stage_id _ _ _ H3). cbn [mbind completion_bind].
  rewrite (stage_id _ _ _ H4). cbn [mbind completion_bind].
  now rewrite sortStage_idempotent.
Qed.

Lemma filterSort_pipeline (s p : string) (r : DateRange) (o : string)
      (l : list Visitor) :
  filterSort parse s p r o l
  = pipeline (negb (JsString.isEmpty s))
             (negb (JsString.isEmpty (dr_start r)))
             (negb (JsString.isEmpty (dr_end r)))
             (negb (JsString.isEmpty p) && negb (String.eqb p "All"))
             (searchMatch (JsString.toLowerCase s))
             (fun v => d ← visitDate parse v; Normal (JsString.geb d (dr_start r)))
             (fun v => d ← visitDate parse v; Normal (JsString.leb d (dr_end r)))
             (purposeMatch p) o l.
Proof. reflexivity. Qed.

(** Filtering and sorting the result of [filterSort] again, with the
    same filter state, gives it back. *)
Lemma filterSort_fixed (s p : string) (r : DateRange) (o : string)
      (l out : list Visitor) :
  filterSort parse s p r o l = Normal out ->
  filterSort parse s p r o out = Normal out.
Proof. rewrite !filterSort_pipeline. apply pipeline_fixed. Qed.

(** The two states show the same raw list and the same filter state. *)
Definition sameInputs (st1 st2 : ViewerState) : Prop :=
  visitors st1 = visitors st2
  /\ searchTerm st1 = searchTerm st2
  /\ purposeFilter st1 = purposeFilter st2
  /\ dateRange st1 = dateRange st2
  /\ sortOrder st1 = sortOrder st2.

(** What [applyFilters] puts on the screen. *)
Definition viewOf (st : ViewerState) : Completion (list Visitor) :=
  st' ← applyFilters parse st; Normal (filteredVisitors st').

Lemma viewOf_filterSort (st : ViewerState) :
  viewOf st = filterSort parse (searchTerm st) (purposeFilter st) (dateRange st)
                         (sortOrder st) (visitors st).
Proof.
  unfold viewOf, applyFilters.
  destruct (filterSort _ _ _ _ _ _); reflexivity.
Qed.

End Purity.

(** C6. The records shown by the viewer, and their order, depend on the
    raw list and the filter state alone: two component states that agree
    on these show the same sequence, whatever else they hold.  And the
    filter applied to its own result, with the same filter state, returns
    that result; so does a second run of [applyFilters]. *)
Theorem view_depends_on_inputs_only (parse : string -> option Z)
        (st1 st2 : ViewerState) :
  sameInputs st1 st2 ->
  viewOf parse st1 = viewOf parse st2
  /\ (out ← viewOf parse st1;
      filterSort parse (searchTerm st1) (purposeFilter st1) (dateRange st1)
                 (sortOrder st1) out)
     = viewOf parse st1
  /\ (st' ← applyFilters parse st1; applyFilters parse st') = applyFilters parse st1.
Proof.
  intros (Hv & Hs & Hp & Hd & Ho). split; [|split].
  - rewrite !viewOf_filterSort. now rewrite Hv, Hs, Hp, Hd, Ho.
  - rewrite viewOf_filterSort.
    destruct (filterSort _ _ _ _ _ _) as [out|] eqn:E; [|reflexivity].
    cbn [mbind completion_bind]. eapply filterSort_fixed, E.
  - unfold applyFilters.
    destruct (filterSort _ _ _ _ _ _) as [out|] eqn:E; [|reflexivity].
    cbn [mbind completion_bind visitors searchTerm purposeFilter dateRange sortOrder].
    rewrite E. reflexivity.
Qed.

Definition viewerA : ViewerState :=
  {| visitors := [alice; bob]; filteredVisitors := []; loading := true;
     searchTerm := ""; purposeFilter := "Interview";
     dateRange := mkDateRange "" ""; currentPage := 1; itemsPerPage := 10;
     sortOrder := "desc"; showFilters := false |}.

Definition viewerB : ViewerState :=
  {| visitors := [alice; bob]; filteredVisitors := [bob; bob]; loading := false;
     searchTerm := ""; purposeFilter := "Interview";
     dateRange := mkDateRange "" ""; currentPage := 4; itemsPerPage := 10;
     sortOrder := "desc"; showFilters := true |}.

Lemma view_depends_on_inputs_only_witness :
  sameInputs viewerA viewerB
  /\ viewOf (JsDate.parse 0) viewerA = viewOf (JsDate.parse 0) viewerB.
Proof.
  assert (H : sameInputs viewerA viewerB) by (repeat split; reflexivity).
  split; [exact H|].
  exact (proj1 (view_depends_on_inputs_only (JsDate.parse 0) viewerA viewerB H)).
Defined.

Example view_interview : viewOf (JsDate.parse 0) viewerB = Normal [alice].
Proof. vm_compute. reflexivity. Qed.

(** ** The registration form *)

Lemma blank_trimStart (s : string) :
  JsString.blank (JsString.trimStart s) = JsString.blank s.
Proof.
  unfold JsString.blank. induction s as [|c s IH]; simpl; [reflexivity|].
  destruct (JsString.isSpace c) eqn:E; simpl; [exact IH | now rewrite E].
Qed.

Lemma isEmpty_trimEnd (s : string) :
  JsString.isEmpty (JsString.trimEnd s) = JsString.blank s.
Proof.
  destruct s as [|c s]; [reflexivity|].
  cbn [JsString.trimEnd]. destruct (JsString.blank (String c s)); reflexivity.
Qed.

(** [trim] leaves nothing exactly of the strings of white space. *)
Lemma isEmpty_trim (s : string) :
  JsString.isEmpty (JsString.trim s) = JsString.blank s.
Proof. unfold JsString.trim. now rewrite isEmpty_trimEnd, blank_trimStart. Qed.

Lemma stripPhone_blank (s : string) :
  JsString.blank s = true -> stripPhone s = "".
Proof.
  unfold JsString.blank, stripPhone. induction s as [|c s IH]; simpl; [reflexivity|].
  intros H. apply andb_true_iff in H as [Hc Hs]. rewrite Hc. simpl. now apply IH.
Qed.

(** The phone passes: without white space and hyphens it is 10 to 15 digits. *)
Definition validPhone (phone : string) : Prop :=
  JsString.all JsString.isDigit (stripPhone phone) = true
  /\ 10 <= JsString.len (stripPhone phone) <= 15.

Lemma phoneRegex_test_spec (s : string) :
  phoneRegex_test s = true
  <-> JsString.all JsString.isDigit s = true /\ 10 <= JsString.len s <= 15.
Proof.
  unfold phoneRegex_test. rewrite !andb_true_iff, !Z.leb_le. tauto.
Qed.

Lemma phoneError_None (phone : string) :
  phoneError phone = None <-> validPhone phone.
Proof.
  unfold phoneError, validPhone. rewrite isEmpty_trim.
  destruct (JsString.blank phone) eqn:Eb.
  - split; [discriminate|]. rewrite (stripPhone_blank _ Eb).
    unfold JsString.len. simpl. lia.
  - rewrite <- phoneRegex_test_spec.
    destruct (phoneRegex_test (stripPhone phone)); simpl; split; congruence.
Qed.

Lemma setError_lookup_ne (f g : string) (msg : option string) (e : gmap string string) :
  f <> g -> setError f msg e !! g = e !! g.
Proof. intros H. destruct msg; simpl; [now rewrite lookup_insert_ne|reflexivity]. Qed.

Lemma newErrors_phone (fd : FormData) :
  newErrors fd !! "phone" = phoneError (fd_phone fd).
Proof.
  unfold newErrors. rewrite setError_lookup_ne by discriminate.
  destruct (phoneError (fd_phone fd)) as [m|]; simpl.
  - apply lookup_insert_eq.
  - rewrite !setError_lookup_ne by discriminate. apply lookup_empty.
Qed.

Lemma noErrors_false (e : gmap string string) (f m : string) :
  e !! f = Some m -> noErrors e = false.
Proof.
  intros H. unfold noErrors. apply bool_decide_eq_false. intros ->.
  rewrite lookup_empty in H. discriminate.
Qed.

Lemma handleSubmit_blocked {D} (submit : FormData -> ApiResult D) (st : FormState) :
  noErrors (newErrors (formData st)) = false ->
  handleSubmit submit st
  = ({| formData := formData st; errors := newErrors (formData st);
        form_loading := form_loading st; submitStatus := None |}, []).
Proof. intros H. unfold handleSubmit, validateForm. simpl. now rewrite H. Qed.

Lemma handleSubmit_calls {D} (submit : FormData -> ApiResult D) (st : FormState) :
  noErrors (newErrors (formData st)) = true ->
  exists st' rest,
    handleSubmit submit st = (st', CallSubmitVisitorForm (formData st) :: rest).
Proof.
  intros H. unfold handleSubmit, validateForm. simpl. rewrite H. simpl.
  destruct (success (submit (formData st))); eauto.
Qed.

(** A separator of a phone number as it is typed: white space or a
    hyphen. *)
Definition isSeparator (c : ascii) : bool :=
  JsString.isSpace c || Ascii.eqb c "-".

(** [StripsTo phone rest]: [rest] is [phone] with every separator taken
    out and every other character left where it is. *)
Inductive StripsTo : string -> string -> Prop :=
| strips_end : StripsTo "" ""
| strips_out (c : ascii) (s r : string) :
    isSeparator c = true -> StripsTo s r -> StripsTo (String c s) r
| strips_keep (c : ascii) (s r : string) :
    isSeparator c = false -> StripsTo s r -> StripsTo (String c s) (String c r).

(** The phone the form is to accept: without its separators it is 10 to
    15 digits. *)
Definition acceptablePhone (phone : string) : Prop :=
  exists digits,
    StripsTo phone digits
    /\ JsString.all JsString.isDigit digits = true
    /\ 10 <= JsString.len digits <= 15.

(** The number of digits in a string. *)
Fixpoint countDigits (s : string) : Z :=
  match s with
  | EmptyString => 0
  | String c s' => (if JsString.isDigit c then 1 else 0) + countDigits s'
  end.

Lemma StripsTo_stripPhone (phone rest : string) :
  StripsTo phone rest <-> rest = stripPhone phone.
Proof.
  split.
  - induction 1 as [|c s r Hc _ IH|c s r Hc _ IH]; [reflexivity| |];
      unfold stripPhone, isSeparator in *; simpl; rewrite Hc; now subst.
  - intros ->. induction phone as [|c s IH]; [constructor|].
    unfold stripPhone. simpl. destruct (JsString.isSpace c || Ascii.eqb c "-") eqn:E.
    + now apply strips_out.
    + now apply strips_keep.
Qed.

Lemma validPhone_acceptable (phone : string) :
  validPhone phone <-> acceptablePhone phone.
Proof.
  unfold validPhone, acceptablePhone. split.
  - intros H. exists (stripPhone phone). split; [now apply StripsTo_stripPhone | exact H].
  - intros (digits & Hs & H). apply StripsTo_stripPhone in Hs. now subst.
Qed.

Lemma digit_not_separator (c : ascii) :
  JsString.isDigit c = true -> isSeparator c = false.
Proof.
  destruct c as [[] [] [] [] [] [] [] []]; (reflexivity || discriminate).
Qed.

Lemma stripPhone_digits (phone : string) :
  JsString.all JsString.isDigit (stripPhone phone)
  = JsString.all (fun c => JsString.isDigit c || isSeparator c) phone.
Proof.
  unfold stripPhone. induction phone as [|c s IH]; [reflexivity|]. simpl.
  fold (isSeparator c). destruct (isSeparator c) eqn:E.
  - rewrite orb_true_r. exact IH.
  - rewrite orb_false_r. simpl. now rewrite IH.
Qed.

Lemma stripPhone_len (phone : string) :
  JsString.all (fun c => JsString.isDigit c || isSeparator c) phone = true ->
  JsString.len (stripPhone phone) = countDigits phone.
Proof.
  unfold stripPhone, JsString.len.
  induction phone as [|c s IH]; [reflexivity|]. simpl.
  intros H. apply andb_true_iff in H as [Hc Hs]. specialize (IH Hs).
  fold (isSeparator c). destruct (JsString.isDigit c) eqn:Ed.
  - rewrite (digit_not_separator c Ed). simpl String.length. lia.
  - simpl in Hc. rewrite Hc. lia.
Qed.

Lemma validPhone_count (phone : string) :
  validPhone phone
  <-> JsString.all (fun c => JsString.isDigit c || isSeparator c) phone = true
      /\ 10 <= countDigits phone <= 15.
Proof.
  unfold validPhone. rewrite stripPhone_digits. split; intros [H1 H2]; (split; [exact H1|]).
  - now rewrite <- stripPhone_len.
  - now rewrite stripPhone_len.
Qed.

(** C7. The phone of the registration form is accepted exactly when,
    white space and hyphens taken out, it is 10 to 15 digits; which is to
    say, when it is made of digits, white space and hyphens only, with 10
    to 15 digits among them.  So "555 010-0100" passes, as does a number
    typed with a tab and a no-break space; ten digits with a letter do
    not, and neither do nine digits or sixteen.  Submitting the form with
    the phone "12a"
    leaves the error of the phone field and calls nothing; and whenever
    validation leaves an error, the form is not submitted, while a form
    without error is. *)
Theorem phone_validation_blocks_submit (D : Type) (submit : FormData -> ApiResult D)
        (st : FormState) :
  (forall phone, phoneError phone = None <-> acceptablePhone phone)
  /\ (forall phone,
        phoneError phone = None
        <-> JsString.all (fun c => JsString.isDigit c || isSeparator c) phone = true
            /\ 10 <= countDigits phone <= 15)
  /\ phoneError "555 010-0100" = None
  /\ phoneError "12345-67890-12345" = None
  /\ phoneError ("555" +:+ String (ascii_of_nat 9) "010"
                 +:+ String (ascii_of_nat 160) "0100") = None
  /\ phoneError "555 010-010" = Some "Invalid phone number (10-15 digits)"
  /\ phoneError "5550100100x" = Some "Invalid phone number (10-15 digits)"
  /\ phoneError "1234567890123456" = Some "Invalid phone number (10-15 digits)"
  /\ phoneError " - " = Some "Invalid phone number (10-15 digits)"
  /\ phoneError "  " = Some "Phone number is required"
  /\ (fd_phone (formData st) = "12a" ->
      errors (fst (handleSubmit submit st)) !! "phone"
      = Some "Invalid phone number (10-15 digits)"
      /\ snd (handleSubmit submit st) = [])
  /\ (newErrors (formData st) <> ∅ ->
      errors (fst (handleSubmit submit st)) = newErrors (formData st)
      /\ snd (handleSubmit submit st) = [])
  /\ (newErrors (formData st) = ∅ ->
      exists rest,
        snd (handleSubmit submit st) = CallSubmitVisitorForm (formData st) :: rest).
Proof.
  split; [intros phone; rewrite phoneError_None; apply validPhone_acceptable|].
  split; [intros phone; rewrite phoneError_None; apply validPhone_count|].
  do 8 (split; [reflexivity|]). split; [|split].
  - intros Hp.
    assert (He : newErrors (formData st) !! "phone"
                 = Some "Invalid phone number (10-15 digits)").
    { rewrite newErrors_phone, Hp. reflexivity. }
    rewrite (handleSubmit_blocked submit st (noErrors_false _ _ _ He)).
    split; [exact He | reflexivity].
  - intros Hne.
    rewrite (handleSubmit_blocked submit st); [split; reflexivity|].
    now apply bool_decide_eq_false.
  - intros He.
    destruct (handleSubmit_calls submit st) as (st' & rest & Hs).
    { now apply bool_decide_eq_true. }
    exists rest. now rewrite Hs.
Qed.

Definition formWith12a : FormState :=
  {| formData := mkFormData "Alice Liddell" "alice@example.com" "12a" "" "Interview" "";
     errors := ∅; form_loading := false; submitStatus := None |}.

(** The same form with a phone typed in groups. *)
Definition formWithGroupedPhone : FormState :=
  {| formData := mkFormData "Alice Liddell" "alice@example.com" "555 010-0100" ""
                            "Interview" "";
     errors := ∅; form_loading := false; submitStatus := None |}.

Lemma phone_validation_blocks_submit_witness :
  (fd_phone (formData formWith12a) = "12a"
   /\ errors (fst (handleSubmit (fun _ => okResult tt) formWith12a)) !! "phone"
      = Some "Invalid phone number (10-15 digits)"
   /\ snd (handleSubmit (fun _ => okResult tt) formWith12a) = [])
  /\ (StripsTo "555 010-0100" "5550100100"
      /\ acceptablePhone "555 010-0100"
      /\ phoneError "555 010-0100" = None
      /\ newErrors (formData formWithGroupedPhone) = ∅
      /\ exists rest,
          snd (handleSubmit (fun _ => okResult tt) formWithGroupedPhone)
          = CallSubmitVisitorForm (formData formWithGroupedPhone) :: rest).
Proof.
  pose proof (phone_validation_blocks_submit unit (fun _ => okResult tt) formWith12a)
    as H12a.
  pose proof (phone_validation_blocks_submit unit (fun _ => okResult tt)
                formWithGroupedPhone) as Hgrouped.
  split.
  - split; [reflexivity|].
    exact (proj1 (proj2 (proj2 (proj2 (proj2 (proj2 (proj2 (proj2 (proj2
             (proj2 (proj2 H12a)))))))))) eq_refl).
  - assert (Hstrip : StripsTo "555 010-0100" "5550100100").
    { repeat (first [apply strips_end
                    | apply strips_out; [reflexivity|]
                    | apply strips_keep; [reflexivity|]]). }
    assert (Hacc : acceptablePhone "555 010-0100").
    { exists "5550100100". split; [exact Hstrip|]. split; [reflexivity|].
      unfold JsString.len. simpl. lia. }
    split; [exact Hstrip|]. split; [exact Hacc|].
    split; [exact (proj2 (proj1 Hgrouped "555 010-0100") Hacc)|].
    split; [reflexivity|].
    exact (proj2 (proj2 (proj2 (proj2 (proj2 (proj2 (proj2 (proj2 (proj2
             (proj2 (proj2 (proj2 Hgrouped))))))))))) eq_refl).
Defined.

Example phone_with_hyphens : phoneError "555-010 0100" = None.
Proof. reflexivity. Qed.

Example phone_too_short : phoneError "555-0100" = Some "Invalid phone number (10-15 digits)".
Proof. reflexivity. Qed.

Example phone_sixteen_digits :
  phoneError "1234567890123456" = Some "Invalid phone number (10-15 digits)".
Proof. reflexivity. Qed.

(** ** The API client and the token store *)

(** The operations of the client. *)
Inductive Operation : Type :=
| SubmitVisitor
| AdminLogin
| ListVisitors
| GetVisitor
| DeleteVisitor
| DashboardStats.

Definition runOperation {D} (op : Operation) (raw : Api.Settled D) (b : Browser)
  : Api.Settled (ApiResult D) * Browser :=
  match op with
  | SubmitVisitor => Api.submitVisitorForm raw b
  | AdminLogin => Api.adminLogin raw b
  | ListVisitors => Api.getVisitors raw b
  | GetVisitor => Api.getVisitorById raw b
  | DeleteVisitor => Api.deleteVisitor raw b
  | DashboardStats => Api.getDashboardStats raw b
  end.

(** The text an operation falls back on. *)
Definition fixedText (op : Operation) : string :=
  match op with
  | SubmitVisitor => "Failed to submit visitor form. Please try again."
  | AdminLogin => "Invalid credentials. Please try again."
  | ListVisitors => "Failed to fetch visitors. Please try again."
  | GetVisitor => "Failed to fetch visitor details."
  | DeleteVisitor => "Failed to delete visitor."
  | DashboardStats => "Failed to fetch dashboard statistics."
  end.

Definition timeoutText : string :=
  "Request timed out. Please check your network connection.".

Definition networkText : string :=
  "Network error. Please ensure the server is running.".

(** The error came with a response whose body is an object, and the
    object has a truthy property [name], of value [x]. *)
Definition HasPayload (name : string) (e : Api.AxiosError) (x : Json) : Prop :=
  exists st members,
    Api.err_response e = Some (Api.mkErrorResponse st (Some (JObject members)))
    /\ lookupMember name members = Some x
    /\ jsTruthy x = true.

(** The message an operation reports on a failed call. *)
Definition failureMessage (op : Operation) (e : Api.AxiosError) : Json :=
  match op with
  | SubmitVisitor => Api.messageOr e "Failed to submit visitor form. Please try again."
  | AdminLogin => Api.loginErrorMessage e
  | ListVisitors => Api.messageOr e "Failed to fetch visitors. Please try again."
  | GetVisitor => Api.messageOr e "Failed to fetch visitor details."
  | DeleteVisitor => Api.messageOr e "Failed to delete visitor."
  | DashboardStats => Api.messageOr e "Failed to fetch dashboard statistics."
  end.

Lemma payload_field (name : string) (e : Api.AxiosError) (x : Json) :
  HasPayload name e x
  <-> (r ← Api.err_response e; d ← Api.resp_data r; jsonField name d) = Some x
      /\ jsTruthy x = true.
Proof.
  split.
  - intros (st & members & He & Hl & Ht). rewrite He. simpl. now split.
  - intros [H Ht]. destruct e as [code msg [[st [body|]]|]]; simpl in *; try discriminate.
    destruct body; simpl in H; try discriminate.
    exists st, members. now repeat split.
Qed.

Lemma messageOr_payload (e : Api.AxiosError) (fallback : string) (x : Json) :
  HasPayload "message" e x -> Api.messageOr e fallback = x.
Proof.
  intros H. apply payload_field in H as [H Ht]. unfold Api.messageOr, Api.responseMessage.
  rewrite H. simpl. now rewrite Ht.
Qed.

Lemma messageOr_fixed (e : Api.AxiosError) (fallback : string) :
  (forall x, ~ HasPayload "message" e x) -> Api.messageOr e fallback = JString fallback.
Proof.
  intros H. unfold Api.messageOr.
  destruct (truthyValue (Api.responseMessage e)) eqn:E; [|reflexivity].
  destruct (Api.responseMessage e) as [x|] eqn:Ex; [|discriminate E].
  exfalso. apply (H x). apply payload_field. now split.
Qed.

Lemma messageOr_truthy (e : Api.AxiosError) (fallback : string) :
  fallback <> "" -> jsTruthy (Api.messageOr e fallback) = true.
Proof.
  intros Hne. unfold Api.messageOr.
  destruct (truthyValue (Api.responseMessage e)) eqn:E.
  - destruct (Api.responseMessage e); [exact E | discriminate E].
  - destruct fallback; [congruence | reflexivity].
Qed.

(** The message of a failed login, case by case. *)
Lemma loginErrorMessage_cases (e : Api.AxiosError) :
  (Api.err_code e = Some "ECONNABORTED" ->
   Api.loginErrorMessage e = JString timeoutText)
  /\ (Api.err_code e <> Some "ECONNABORTED" ->
      (Api.err_message e = "Network Error" ->
       Api.loginErrorMessage e = JString networkText)
      /\ (Api.err_message e <> "Network Error" ->
          (forall x, HasPayload "detail" e x -> Api.loginErrorMessage e = x)
          /\ ((forall x, ~ HasPayload "detail" e x) ->
              (forall x, HasPayload "message" e x -> Api.loginErrorMessage e = x)
              /\ ((forall x, ~ HasPayload "message" e x) ->
                  Api.loginErrorMessage e = JString (fixedText AdminLogin))))).
Proof.
  unfold Api.loginErrorMessage. split.
  - intros H. now rewrite bool_decide_eq_true_2.
  - intros Hc. rewrite bool_decide_eq_false_2 by exact Hc. split.
    + intros ->. reflexivity.
    + intros Hm. apply String.eqb_neq in Hm. rewrite Hm. split.
      * intros x Hx. apply payload_field in Hx as [Hx Ht].
        unfold Api.responseDetail. rewrite Hx. simpl. now rewrite Ht.
      * intros Hd.
        destruct (truthyValue (Api.responseDetail e)) eqn:Ed.
        { destruct (Api.responseDetail e) as [x|] eqn:Ex; [|discriminate Ed].
          exfalso. apply (Hd x). apply payload_field. now split. }
        split.
        -- intros x Hx. apply payload_field in Hx as [Hx Ht].
           unfold Api.responseMessage. rewrite Hx. simpl. now rewrite Ht.
        -- intros Hmsg.
           destruct (truthyValue (Api.responseMessage e)) eqn:Em; [|reflexivity].
           destruct (Api.responseMessage e) as [x|] eqn:Ex; [|discriminate Em].
           exfalso. apply (Hmsg x). apply payload_field. now split.
Qed.

Lemma loginErrorMessage_truthy (e : Api.AxiosError) :
  jsTruthy (Api.loginErrorMessage e) = true.
Proof.
  unfold Api.loginErrorMessage.
  destruct (bool_decide _); [reflexivity|].
  destruct (String.eqb _ _); [reflexivity|].
  destruct (truthyValue (Api.responseDetail e)) eqn:Ed.
  { destruct (Api.responseDetail e); [exact Ed | discriminate Ed]. }
  destruct (truthyValue (Api.responseMessage e)) eqn:Em; [|reflexivity].
  destruct (Api.responseMessage e); [exact Em | discriminate Em].
Qed.

Lemma failureMessage_truthy (op : Operation) (e : Api.AxiosError) :
  jsTruthy (failureMessage op e) = true.
Proof.
  destruct op; simpl; try (apply messageOr_truthy; discriminate).
  apply loginErrorMessage_truthy.
Qed.

Lemma failureMessage_payload (op : Operation) (e : Api.AxiosError) :
  op <> AdminLogin ->
  (forall x, HasPayload "message" e x -> failureMessage op e = x)
  /\ ((forall x, ~ HasPayload "message" e x) ->
      failureMessage op e = JString (fixedText op)).
Proof.
  intros Hop. destruct op; try congruence; simpl;
    (split; [intros x; apply messageOr_payload | apply messageOr_fixed]).
Qed.

Lemma runOperation_result {D} (op : Operation) (raw : Api.Settled D) (b : Browser) :
  fst (runOperation op raw b)
  = Api.Fulfilled (match raw with
                   | Api.Fulfilled d => Api.succeed d
                   | Api.Rejected e => Api.fail (failureMessage op e)
                   end).
Proof. destruct op, raw; reflexivity. Qed.

Lemma runOperation_browser {D} (op : Operation) (raw : Api.Settled D) (b : Browser) :
  snd (runOperation op raw b)
  = match raw with
    | Api.Fulfilled _ => b
    | Api.Rejected e => Api.onRejected e b
    end.
Proof. destruct op, raw; reflexivity. Qed.

(** A request that ran into the client's timeout, a server that cannot
    be reached, and a refusal whose [message] lists the fields at fault. *)
Definition timedOut : Api.AxiosError :=
  Api.mkAxiosError (Some "ECONNABORTED") "timeout of 30000ms exceeded" None.

Definition unreachable : Api.AxiosError :=
  Api.mkAxiosError (Some "ERR_NETWORK") "Network Error" None.

Definition fieldsAtFault : Json :=
  JObject [("email", JArray [JString "Enter a valid email address."])].

Definition refused : Api.AxiosError :=
  Api.mkAxiosError (Some "ERR_BAD_REQUEST") "Request failed with status code 400"
    (Some (Api.mkErrorResponse 400 (Some (JObject [("message", fieldsAtFault)])))).

(** C8, as the specification words it, fails.  The list of visitors
    answers a timeout and an unreachable server with one and the same
    text, which says nothing of either and is the text it has for every
    failure without a [message]; only the login tells the two apart.  And
    a [message] of the backend is handed on as it is, here an object, not
    a text. *)
Lemma api_error_ignores_transport_failure :
  fst (runOperation ListVisitors (@Api.Rejected unit timedOut) (mkBrowser ∅ "/admin/visitors"))
  = Api.Fulfilled (Api.fail (JString "Failed to fetch visitors. Please try again."))
  /\ fst (runOperation ListVisitors (@Api.Rejected unit unreachable)
                       (mkBrowser ∅ "/admin/visitors"))
     = Api.Fulfilled (Api.fail (JString "Failed to fetch visitors. Please try again."))
  /\ fst (runOperation AdminLogin (@Api.Rejected unit timedOut) (mkBrowser ∅ "/admin/login"))
     = Api.Fulfilled (Api.fail (JString timeoutText))
  /\ fst (runOperation AdminLogin (@Api.Rejected unit unreachable)
                       (mkBrowser ∅ "/admin/login"))
     = Api.Fulfilled (Api.fail (JString networkText))
  /\ fst (runOperation SubmitVisitor (@Api.Rejected unit refused) (mkBrowser ∅ "/"))
     = Api.Fulfilled (Api.fail fieldsAtFault)
  /\ (forall text : string, fieldsAtFault <> JString text).
Proof. repeat split; try reflexivity. intros text. discriminate. Qed.

(** C8, amended. Every operation of the API client settles with a result
    and never rejects: [{success: true, data}] with the data of the
    response when the call went through, [{success: false, error}] when
    it failed.  The error is truthy.  For every operation but the login
    it is the [message] of the body of the error response when that body
    is an object with a truthy [message], of whatever type, and the fixed
    text of the operation otherwise.  The login alone looks at the
    transport: its error is the timeout text when the code of the error
    is ECONNABORTED, else the network text when the message of the error
    is "Network Error", else the truthy [detail] of the body, else the
    truthy [message] of the body, else its fixed text. *)
Theorem api_operations_return_results (D : Type) (op : Operation)
        (raw : Api.Settled D) (b : Browser) :
  exists r : ApiResult D,
    fst (runOperation op raw b) = Api.Fulfilled r
    /\ match raw with
       | Api.Fulfilled d =>
           success r = true /\ data r = Some d /\ error r = None
       | Api.Rejected e =>
           success r = false /\ data r = None
           /\ exists msg,
               error r = Some msg
               /\ jsTruthy msg = true
               /\ (op <> AdminLogin ->
                   (forall x, HasPayload "message" e x -> msg = x)
                   /\ ((forall x, ~ HasPayload "message" e x) ->
                       msg = JString (fixedText op)))
               /\ (op = AdminLogin ->
                   (Api.err_code e = Some "ECONNABORTED" -> msg = JString timeoutText)
                   /\ (Api.err_code e <> Some "ECONNABORTED" ->
                       (Api.err_message e = "Network Error" -> msg = JString networkText)
                       /\ (Api.err_message e <> "Network Error" ->
                           (forall x, HasPayload "detail" e x -> msg = x)
                           /\ ((forall x, ~ HasPayload "detail" e x) ->
                               (forall x, HasPayload "message" e x -> msg = x)
                               /\ ((forall x, ~ HasPayload "message" e x) ->
                                   msg = JString (fixedText AdminLogin))))))
       end.
Proof.
  eexists. split; [apply runOperation_result|].
  destruct raw as [d|e]; simpl; [tauto|].
  split; [reflexivity|]. split; [reflexivity|].
  exists (failureMessage op e). split; [reflexivity|].
  split; [apply failureMessage_truthy|]. split.
  - apply failureMessage_payload.
  - intros ->. apply loginErrorMessage_cases.
Qed.

(** The backend's own words reach the caller, through every operation. *)
Example backend_message_is_reported :
  forall op,
    fst (runOperation op
           (@Api.Rejected unit
              (Api.mkAxiosError (Some "ERR_BAD_REQUEST") "Request failed with status code 400"
                 (Some (Api.mkErrorResponse 400
                          (Some (JObject [("message", JString "Visitor already checked in")]))))))
           (mkBrowser ∅ "/"))
    = Api.Fulfilled (Api.fail (JString "Visitor already checked in")).
Proof. intros []; reflexivity. Qed.

(** What can happen to the token store: a call through the client with
    its answer, a login with what the server sent, a logout. *)
Inductive Action : Type :=
| Call (op : Operation) (raw : Api.Settled unit)
| Login (token user : option string)
| Logout.

Definition act (b : Browser) (a : Action) : Browser :=
  match a with
  | Call op raw => snd (runOperation op raw b)
  | Login token user => Auth.login token user b
  | Logout => Auth.logout b
  end.

Definition isLogin (a : Action) : bool :=
  match a with Login _ _ => true | _ => false end.

(** The stored token, if any, is not the empty string. *)
Definition tokenNotEmpty (b : Browser) : Prop := Auth.getAuthToken b <> Some "".

Lemma getItem_removeItem_eq (k : string) (b : Browser) :
  Auth.getItem k (Auth.removeItem k b) = None.
Proof. unfold Auth.getItem, Auth.removeItem. simpl. apply lookup_delete_eq. Qed.

Lemma getItem_removeItem_ne (k k' : string) (b : Browser) :
  k <> k' -> Auth.getItem k' (Auth.removeItem k b) = Auth.getItem k' b.
Proof. intros H. unfold Auth.getItem, Auth.removeItem. simpl. now apply lookup_delete_ne. Qed.

Lemma onRejected_401 (e : Api.AxiosError) (b : Browser) :
  Api.is401 e = true ->
  localStorage (Api.onRejected e b)
  = delete "adminUser" (delete "authToken" (localStorage b)).
Proof.
  intros H. unfold Api.onRejected. rewrite H.
  destruct (_ && _); reflexivity.
Qed.

Lemma onRejected_token (e : Api.AxiosError) (b : Browser) :
  Auth.getAuthToken (Api.onRejected e b)
  = if Api.is401 e then None else Auth.getAuthToken b.
Proof.
  unfold Auth.getAuthToken, Auth.getItem.
  destruct (Api.is401 e) eqn:E.
  - rewrite onRejected_401 by exact E.
    rewrite lookup_delete_ne by discriminate. apply lookup_delete_eq.
  - unfold Api.onRejected. now rewrite E.
Qed.

Lemma act_token (b : Browser) (a : Action) :
  isLogin a = false ->
  Auth.getAuthToken (act b a) = None
  \/ Auth.getAuthToken (act b a) = Auth.getAuthToken b.
Proof.
  destruct a as [op raw|token user|]; simpl; [|discriminate|]; intros _.
  - rewrite runOperation_browser. destruct raw as [d|e]; [now right|].
    rewrite onRejected_token. destruct (Api.is401 e); [now left | now right].
  - left. unfold Auth.logout, Auth.removeAdminUser, Auth.removeAuthToken,
      Auth.getAuthToken, Auth.ADMIN_USER_KEY, Auth.AUTH_TOKEN_KEY.
    rewrite getItem_removeItem_ne by discriminate. apply getItem_removeItem_eq.
Qed.

Lemma unauthenticated_stays (actions : list Action) (b : Browser) :
  forallb (fun a => negb (isLogin a)) actions = true ->
  Auth.isAuthenticated b = false ->
  Auth.isAuthenticated (fold_left act actions b) = false.
Proof.
  revert b; induction actions as [|a actions IH]; intros b Hall Hb; [exact Hb|].
  simpl in Hall. apply andb_true_iff in Hall as [Ha Hall].
  apply negb_true_iff in Ha. simpl. apply IH; [exact Hall|].
  unfold Auth.isAuthenticated in *.
  destruct (act_token b a Ha) as [-> | ->]; [reflexivity | exact Hb].
Qed.

Lemma login_tokenNotEmpty (token user : option string) (b : Browser) :
  tokenNotEmpty b -> tokenNotEmpty (Auth.login token user b).
Proof.
  unfold tokenNotEmpty, Auth.login, Auth.setAdminUser, Auth.setAuthToken,
    Auth.getAuthToken, Auth.getItem, Auth.setItem, Auth.ADMIN_USER_KEY,
    Auth.AUTH_TOKEN_KEY.
  intros Hb.
  assert (Ht : forall b', localStorage b' !! "authToken" <> Some "" ->
               localStorage (match token with
                             | Some t => if truthy token
                                         then {| localStorage := <["authToken" := t]> (localStorage b');
                                                 pathname := pathname b' |}
                                         else b'
                             | None => b'
                             end) !! "authToken" <> Some "").
  { intros b' Hb'. destruct token as [[|c t]|]; simpl; try exact Hb'.
    rewrite lookup_insert_eq. discriminate. }
  destruct user as [u|]; simpl.
  - rewrite lookup_insert_ne by discriminate. apply Ht, Hb.
  - apply Ht, Hb.
Qed.

Lemma act_tokenNotEmpty (b : Browser) (a : Action) :
  tokenNotEmpty b -> tokenNotEmpty (act b a).
Proof.
  intros Hb. destruct (isLogin a) eqn:E.
  - destruct a; try discriminate. simpl. now apply login_tokenNotEmpty.
  - unfold tokenNotEmpty. destruct (act_token b a E) as [-> | ->];
      [discriminate | exact Hb].
Qed.

Lemma actions_tokenNotEmpty (actions : list Action) (b : Browser) :
  tokenNotEmpty b -> tokenNotEmpty (fold_left act actions b).
Proof.
  revert b; induction actions as [|a actions IH]; intros b Hb; [exact Hb|].
  simpl. apply IH, act_tokenNotEmpty, Hb.
Qed.

Lemma isAuthenticated_present (b : Browser) :
  tokenNotEmpty b ->
  (Auth.isAuthenticated b = true <-> is_Some (Auth.getAuthToken b)).
Proof.
  unfold tokenNotEmpty, Auth.isAuthenticated. intros Hb.
  destruct (Auth.getAuthToken b) as [[|c t]|]; simpl.
  - congruence.
  - split; [eauto | reflexivity].
  - split; [discriminate | intros [x Hx]; discriminate].
Qed.

(** C9. When a call through the client is answered with HTTP 401, the
    token and the user profile are removed from the store, the guard of
    the protected routes redirects to the login, and keeps doing so after
    any further calls and logouts, until a login.  The guard looks at the
    stored token and nothing else, and over every run of calls, logins and
    logouts that starts without an empty token in the store, it passes
    exactly when a token is stored. *)
Theorem unauthorized_clears_session (op : Operation) (e : Api.AxiosError)
        (b : Browser) (later : list Action) :
  Api.is401 e = true ->
  forallb (fun a => negb (isLogin a)) later = true ->
  let b' := snd (runOperation op (Api.Rejected (A := unit) e) b) in
  Auth.getItem "authToken" b' = None
  /\ Auth.getItem "adminUser" b' = None
  /\ Auth.isAuthenticated b' = false
  /\ ProtectedRoute b' = RedirectToLogin
  /\ ProtectedRoute (fold_left act later b') = RedirectToLogin
  /\ (forall b1 b2, Auth.getAuthToken b1 = Auth.getAuthToken b2 ->
                    ProtectedRoute b1 = ProtectedRoute b2)
  /\ (forall actions, tokenNotEmpty b ->
        (ProtectedRoute (fold_left act actions b) = RenderChildren
         <-> is_Some (Auth.getAuthToken (fold_left act actions b)))).
Proof.
  intros H401 Hlater b'.
  assert (Htok : Auth.getItem "authToken" b' = None).
  { subst b'. rewrite runOperation_browser.
    pose proof (onRejected_token e b) as H. rewrite H401 in H. exact H. }
  assert (Hauth : Auth.isAuthenticated b' = false).
  { unfold Auth.isAuthenticated, Auth.getAuthToken, Auth.AUTH_TOKEN_KEY.
    now rewrite Htok. }
  split; [exact Htok|]. split; [|split; [exact Hauth|split; [|split; [|split]]]].
  - subst b'. rewrite runOperation_browser. unfold Auth.getItem.
    rewrite onRejected_401 by exact H401. apply lookup_delete_eq.
  - unfold ProtectedRoute. now rewrite Hauth.
  - unfold ProtectedRoute.
    now rewrite (unauthenticated_stays later b' Hlater Hauth).
  - intros b1 b2 H12. unfold ProtectedRoute, Auth.isAuthenticated. now rewrite H12.
  - intros actions Hb.
    rewrite <- (isAuthenticated_present _ (actions_tokenNotEmpty actions b Hb)).
    unfold ProtectedRoute.
    destruct (Auth.isAuthenticated (fold_left act actions b)); simpl;
      split; congruence.
Qed.

Definition expired : Api.AxiosError :=
  Api.mkAxiosError (Some "ERR_BAD_REQUEST") "Request failed with status code 401"
    (Some (Api.mkErrorResponse 401 (Some (JObject [("detail", JString "Token expired")])))).

Definition loggedIn : Browser :=
  Auth.login (Some "eyJhbGciOi") (Some "{}") (mkBrowser ∅ "/admin/visitors").

Lemma unauthorized_clears_session_witness :
  Api.is401 expired = true
  /\ ProtectedRoute loggedIn = RenderChildren
  /\ ProtectedRoute
       (fold_left act [Call DashboardStats (Api.Fulfilled tt); Logout]
                  (snd (runOperation ListVisitors (Api.Rejected (A := unit) expired)
                                     loggedIn)))
     = RedirectToLogin.
Proof.
  split; [reflexivity|]. split; [vm_compute; reflexivity|].
  pose proof (unauthorized_clears_session ListVisitors expired loggedIn
                [Call DashboardStats (Api.Fulfilled tt); Logout] eq_refl eq_refl)
    as (_ & _ & _ & _ & H & _).
  exact H.
Defined.

Example expired_redirects :
  pathname (snd (runOperation ListVisitors (Api.Rejected (A := unit) expired) loggedIn))
  = "/admin/login".
Proof. vm_compute. reflexivity. Qed.

(* ===================================================================== *)
(** * More of the viewer *)
(* ===================================================================== *)

(** ** What the filter keeps *)

Section Monotone.
Context {A : Type}.

Lemma filterM_sublist (p : A -> Completion bool) (l out : list A) :
  filterM p l = Normal out -> sublist out l.
Proof.
  revert out; induction l as [|x l IH]; intros out H; simpl in H.
  - injection H as <-. constructor.
  - destruct (p x) as [b|]; [|discriminate].
    destruct (filterM p l) as [r|]; [|discriminate].
    injection H as <-. specialize (IH r eq_refl).
    destruct b; [now apply sublist_skip | now apply sublist_cons].
Qed.

Lemma filterM_mono (p : A -> Completion bool) (l1 l2 o1 o2 : list A) :
  sublist l1 l2 ->
  filterM p l1 = Normal o1 -> filterM p l2 = Normal o2 -> sublist o1 o2.
Proof.
  intros Hsub. revert o1 o2.
  induction Hsub as [|x l1 l2 Hsub IH|x l1 l2 Hsub IH]; intros o1 o2 H1 H2.
  - simpl in H1. injection H1 as <-. apply sublist_nil_l.
  - simpl in H1, H2. destruct (p x) as [b|]; [|discriminate].
    destruct (filterM p l1) as [r1|]; [|discriminate].
    destruct (filterM p l2) as [r2|]; [|discriminate].
    injection H1 as <-. injection H2 as <-. specialize (IH r1 r2 eq_refl eq_refl).
    destruct b; [now apply sublist_skip | exact IH].
  - simpl in H2. destruct (p x) as [b|]; [|discriminate].
    destruct (filterM p l2) as [r2|]; [|discriminate].
    injection H2 as <-. specialize (IH o1 r2 H1 eq_refl).
    destruct b; [now apply sublist_cons | exact IH].
Qed.

Lemma filter_sublist (q : A -> bool) (l : list A) : sublist (List.filter q l) l.
Proof.
  induction l as [|x l IH]; simpl; [constructor|].
  destruct (q x); [now apply sublist_skip | now apply sublist_cons].
Qed.

Lemma filter_mono (q : A -> bool) (l1 l2 : list A) :
  sublist l1 l2 -> sublist (List.filter q l1) (List.filter q l2).
Proof.
  induction 1 as [|x l1 l2 Hsub IH|x l1 l2 Hsub IH]; simpl.
  - constructor.
  - destruct (q x); [now apply sublist_skip | exact IH].
  - destruct (q x); [now apply sublist_cons | exact IH].
Qed.

(** The stage [F'] is the stage [F], or it lets everything through. *)
Definition relaxes (F' F : list A -> Completion (list A)) : Prop :=
  F' = F \/ forall l, F' l = Normal l.

Lemma stage_relaxed c p (F' : list A -> Completion (list A)) (l1 l2 o1 o2 : list A) :
  relaxes F' (stage c p) -> sublist l1 l2 ->
  stage c p l1 = Normal o1 -> F' l2 = Normal o2 -> sublist o1 o2.
Proof.
  intros [-> | Hid] Hsub H1 H2.
  - unfold stage in *. destruct c.
    + eapply filterM_mono; eassumption.
    + injection H1 as <-. injection H2 as <-. exact Hsub.
  - rewrite Hid in H2. injection H2 as <-.
    transitivity l1; [|exact Hsub].
    unfold stage in H1. destruct c; [now apply filterM_sublist in H1|].
    injection H1 as <-. reflexivity.
Qed.

End Monotone.

(** A filter field is relaxed when it keeps its value or is emptied. *)
Definition relaxed (s' s : string) : Prop := s' = s \/ s' = "".

Section ViewerMonotone.
Variable parse : string -> option Z.

Lemma searchFilter_relaxes (s' s : string) :
  relaxed s' s ->
  relaxes (searchFilter s')
          (stage (negb (JsString.isEmpty s)) (searchMatch (JsString.toLowerCase s))).
Proof. intros [-> | ->]; [left | right]; reflexivity. Qed.

Lemma startFilter_relaxes (s' s : string) :
  relaxed s' s ->
  relaxes (startFilter parse s')
          (stage (negb (JsString.isEmpty s))
                 (fun v => d ← visitDate parse v; Normal (JsString.geb d s))).
Proof. intros [-> | ->]; [left | right]; reflexivity. Qed.

Lemma endFilter_relaxes (s' s : string) :
  relaxed s' s ->
  relaxes (endFilter parse s')
          (stage (negb (JsString.isEmpty s))
                 (fun v => d ← visitDate parse v; Normal (JsString.leb d s))).
Proof. intros [-> | ->]; [left | right]; reflexivity. Qed.

Lemma pipeline_relaxed c1 c3 c4 cq p1 p3 p4 q o c1' c3' c4' cq' p1' p3' p4' q' o'
      (l out out' : list Visitor) :
  relaxes (stage c1' p1') (stage c1 p1) ->
  relaxes (stage c3' p3') (stage c3 p3) ->
  relaxes (stage c4' p4') (stage c4 p4) ->
  (cq' = cq /\ q' = q) \/ cq' = false ->
  pipeline parse c1 c3 c4 cq p1 p3 p4 q o l = Normal out ->
  pipeline parse c1' c3' c4' cq' p1' p3' p4' q' o' l = Normal out' ->
  out ⊆+ out'.
Proof.
  unfold pipeline. intros R1 R3 R4 Rq H H'.
  destruct (stage c1 p1 l) as [f1|] eqn:E1; [|discriminate H].
  destruct (stage c1' p1' l) as [g1|] eqn:G1; [|discriminate H'].
  cbn [mbind completion_bind] in H, H'.
  assert (S1 : sublist f1 g1).
  { eapply stage_relaxed; [exact R1 | reflexivity | exact E1 | exact G1]. }
  assert (S2 : sublist (if cq then List.filter q f1 else f1)
                       (if cq' then List.filter q' g1 else g1)).
  { destruct Rq as [[-> ->] | ->].
    - destruct cq; [now apply filter_mono | exact S1].
    - transitivity f1; [|exact S1]. destruct cq; [apply filter_sublist | reflexivity]. }
  destruct (stage c3 p3 (if cq then List.filter q f1 else f1)) as [f3|] eqn:E3;
    [|discriminate H].
  destruct (stage c3' p3' (if cq' then List.filter q' g1 else g1)) as [g3|] eqn:G3;
    [|discriminate H'].
  cbn [mbind completion_bind] in H, H'.
  assert (S3 : sublist f3 g3).
  { eapply stage_relaxed; [exact R3 | exact S2 | exact E3 | exact G3]. }
  destruct (stage c4 p4 f3) as [f4|] eqn:E4; [|discriminate H].
  destruct (stage c4' p4' g3) as [g4|] eqn:G4; [|discriminate H'].
  cbn [mbind completion_bind] in H, H'.
  assert (S4 : sublist f4 g4).
  { eapply stage_relaxed; [exact R4 | exact S3 | exact E4 | exact G4]. }
  injection H as <-. injection H' as <-.
  rewrite (sortStage_perm parse o f4), (sortStage_perm parse o' g4).
  now apply sublist_submseteq.
Qed.

Lemma filterSort_relaxed (s s' p p' : string) (r r' : DateRange) (o o' : string)
      (l out out' : list Visitor) :
  relaxed s' s -> relaxed p' p ->
  relaxed (dr_start r') (dr_start r) -> relaxed (dr_end r') (dr_end r) ->
  filterSort parse s p r o l = Normal out ->
  filterSort parse s' p' r' o' l = Normal out' ->
  out ⊆+ out'.
Proof.
  intros Hs Hp Hstart Hend. rewrite !filterSort_pipeline.
  apply pipeline_relaxed.
  - apply (searchFilter_relaxes s' s Hs).
  - apply (startFilter_relaxes _ _ Hstart).
  - apply (endFilter_relaxes _ _ Hend).
  - destruct Hp as [-> | ->]; [left; split; reflexivity | right; reflexivity].
Qed.

Lemma filterSort_unfiltered (o : string) (l : list Visitor) :
  filterSort parse "" "" (mkDateRange "" "") o l = Normal (sortStage parse o l).
Proof. reflexivity. Qed.

End ViewerMonotone.

(** X1. Whatever the filter state, the records the viewer shows are
    records of the raw list, none more often than there: the view is never
    longer than the list.  And emptying any of the search string, the
    purpose and the two date bounds can only add records to the view
    (when the view with less filters can be computed at all). *)
Theorem view_shrinks_with_filters (parse : string -> option Z)
        (s s' p p' : string) (r r' : DateRange) (o o' : string)
        (l out : list Visitor) :
  filterSort parse s p r o l = Normal out ->
  relaxed s' s -> relaxed p' p ->
  relaxed (dr_start r') (dr_start r) -> relaxed (dr_end r') (dr_end r) ->
  out ⊆+ l
  /\ (length out <= length l)%nat
  /\ (forall out', filterSort parse s' p' r' o' l = Normal out' ->
                   out ⊆+ out' /\ (length out <= length out')%nat).
Proof.
  intros H Hs Hp Hstart Hend.
  assert (Hl : out ⊆+ l).
  { rewrite <- (sortStage_perm parse o l).
    apply (filterSort_relaxed parse s "" p "" r (mkDateRange "" "") o o l);
      try (right; reflexivity); [exact H | apply filterSort_unfiltered]. }
  split; [exact Hl|]. split; [now apply submseteq_length|].
  intros out' H'.
  assert (Ho : out ⊆+ out')
    by exact (filterSort_relaxed parse s s' p p' r r' o o' l out out'
                Hs Hp Hstart Hend H H').
  split; [exact Ho | now apply submseteq_length].
Qed.

Lemma view_shrinks_with_filters_witness :
  filterSort (JsDate.parse 0) "bo" "Delivery" (mkDateRange "2024-01-10" "") "desc"
             [alice; bob] = Normal [bob]
  /\ [bob] ⊆+ [alice; bob].
Proof.
  assert (H : filterSort (JsDate.parse 0) "bo" "Delivery" (mkDateRange "2024-01-10" "")
                         "desc" [alice; bob] = Normal [bob]) by (vm_compute; reflexivity).
  split; [exact H|].
  exact (proj1 (view_shrinks_with_filters (JsDate.parse 0) "bo" "" "Delivery" "Delivery"
                  (mkDateRange "2024-01-10" "") (mkDateRange "" "") "desc" "asc"
                  [alice; bob] [bob] H
                  (or_intror eq_refl) (or_introl eq_refl)
                  (or_intror eq_refl) (or_introl eq_refl))).
Defined.

(** ** Clearing the filters (lines 124-128) *)

Definition clearFilters (st : ViewerState) : ViewerState :=
  {| visitors := visitors st;
     filteredVisitors := filteredVisitors st;
     loading := loading st;
     searchTerm := "";
     purposeFilter := "";
     dateRange := mkDateRange "" "";
     currentPage := currentPage st;
     itemsPerPage := itemsPerPage st;
     sortOrder := sortOrder st;
     showFilters := showFilters st |}.

(** X2. After "Clear All Filters" the viewer shows every visitor of the
    raw list exactly once, on page 1, whatever the records hold: without
    an active filter [applyFilters] cannot throw, also on records without
    e-mail address or timestamp. *)
Theorem clearFilters_shows_all (parse : string -> option Z) (st : ViewerState) :
  exists st',
    applyFilters parse (clearFilters st) = Normal st'
    /\ filteredVisitors st' ≡ₚ visitors st
    /\ visitors st' = visitors st
    /\ currentPage st' = 1
    /\ sortOrder st' = sortOrder st.
Proof.
  eexists. split; [reflexivity|]. cbn.
  split; [apply sortStage_perm|]. repeat split.
Qed.

(** ** The sort keeps ties in place *)

(** X3. The sort is stable: when the timestamps of the records parse,
    the records that checked in at the same instant stand in the sorted
    view, in either direction, in the order they have in the raw list. *)
Theorem sort_keeps_ties_in_order (parse : string -> option Z) (o : string)
        (t : Z) (l : list Visitor) :
  Forall (validDate parse) l ->
  List.filter (fun v => timeOf parse v =? t) (sortStage parse o l)
  = List.filter (fun v => timeOf parse v =? t) l.
Proof.
  intros Hl. rewrite (sortStage_order parse o).
  destruct (String.eqb o "desc").
  - pose proof (sort_ties (compareVisitors parse "desc") (validDate parse)
                  (fun v => - timeOf parse v) (compareVisitors_desc parse) (- t) l Hl) as H.
    unfold sortStage.
    erewrite (filter_ext (fun v => timeOf parse v =? t)
                         (fun v => - timeOf parse v =? - t)).
    + rewrite H. apply filter_ext. intros v.
      destruct (Z.eqb_spec (timeOf parse v) t), (Z.eqb_spec (- timeOf parse v) (- t));
        try reflexivity; lia.
    + intros v.
      destruct (Z.eqb_spec (timeOf parse v) t), (Z.eqb_spec (- timeOf parse v) (- t));
        try reflexivity; lia.
  - apply (sort_ties (compareVisitors parse "asc") (validDate parse)
             (timeOf parse) (compareVisitors_asc parse) t l Hl).
Qed.

Definition bobAgain : Visitor :=
  {| v_id := 5; v_name := Some "Bob"; v_full_name := None;
     v_email := Some "bob2@example.com"; v_phone := Some "5550100500";
     v_phone_number := None; v_purpose := Some "Other";
     v_checkin_time := Some "2024-01-15"; v_entry_time := None;
     v_created_at := None; v_null := [] |}.

Lemma sort_keeps_ties_in_order_witness :
  Forall (validDate (JsDate.parse 0)) [bob; alice; bobAgain]
  /\ List.filter (fun v => timeOf (JsDate.parse 0) v =? 1705276800000)
                 (sortStage (JsDate.parse 0) "desc" [bob; alice; bobAgain])
     = List.filter (fun v => timeOf (JsDate.parse 0) v =? 1705276800000)
                   [bob; alice; bobAgain].
Proof.
  assert (H : Forall (validDate (JsDate.parse 0)) [bob; alice; bobAgain]).
  { repeat constructor; eexists; vm_compute; reflexivity. }
  split; [exact H|].
  exact (sort_keeps_ties_in_order (JsDate.parse 0) "desc" 1705276800000
           [bob; alice; bobAgain] H).
Defined.

Example ties_newest_first :
  sortStage (JsDate.parse 0) "desc" [bob; alice; bobAgain] = [bob; bobAgain; alice].
Proof. vm_compute. reflexivity. Qed.

(** ** Deleting a visitor (lines 108-119) *)

Inductive ViewerEffect : Type :=
| ConfirmPrompt (msg : string)
| CallDeleteVisitor (id : Z)
| AlertMessage (msg : string).

Definition setVisitors (l : list Visitor) (st : ViewerState) : ViewerState :=
  {| visitors := l;
     filteredVisitors := filteredVisitors st;
     loading := loading st;
     searchTerm := searchTerm st;
     purposeFilter := purposeFilter st;
     dateRange := dateRange st;
     currentPage := currentPage st;
     itemsPerPage := itemsPerPage st;
     sortOrder := sortOrder st;
     showFilters := showFilters st |}.

(** [confirmed] is the answer to [window.confirm], [result] the answer of
    [deleteVisitor]. *)
Definition handleDelete {D} (confirmed : bool) (result : ApiResult D) (id : Z)
           (st : ViewerState) : ViewerState * list ViewerEffect :=
  let prompt := ConfirmPrompt "Are you sure you want to delete this visitor record?" in
  if negb confirmed then (st, [prompt])
  else if success result then
    (setVisitors (List.filter (fun v => negb (v_id v =? id)) (visitors st)) st,
     [prompt; CallDeleteVisitor id])
  else (st, [prompt; CallDeleteVisitor id;
             AlertMessage "Failed to delete visitor. Please try again."]).

Lemma filter_negb_length {A} (q : A -> bool) (l : list A) :
  (length (List.filter (fun x => negb (q x)) l) + length (List.filter q l) = length l)%nat.
Proof.
  induction l as [|x l IH]; simpl; [reflexivity|].
  destruct (q x); simpl; lia.
Qed.

(** X4. Deleting a visitor asks first: whatever follows, the first thing
    the handler does is to put the question "Are you sure you want to
    delete this visitor record?".  When the admin declines, that is all:
    nothing is sent and nothing changes.  When the admin agrees, the
    deletion is sent, after the question; when the server refuses, the
    list stays and an alert is shown.  When the deletion succeeds,
    exactly the records with that id leave the raw list, the others keep
    their order, and the view computed from the new list holds no record
    with that id and only records of the old list. *)
Theorem handleDelete_removes_id (D : Type) (parse : string -> option Z)
        (confirmed : bool) (result : ApiResult D) (id : Z) (st : ViewerState) :
  let st' := fst (handleDelete confirmed result id st) in
  let effects := snd (handleDelete confirmed result id st) in
  let question := ConfirmPrompt "Are you sure you want to delete this visitor record?" in
  (exists rest, effects = question :: rest /\ ~ In question rest)
  /\ (confirmed = false ->
      st' = st /\ effects = [question] /\ ~ In (CallDeleteVisitor id) effects)
  /\ (confirmed = true -> success result = false ->
      st' = st
      /\ effects = [question; CallDeleteVisitor id;
                    AlertMessage "Failed to delete visitor. Please try again."]
      /\ In (AlertMessage "Failed to delete visitor. Please try again.") effects)
  /\ (confirmed = true -> success result = true ->
      effects = [question; CallDeleteVisitor id]
      /\ visitors st' = List.filter (fun v => negb (v_id v =? id)) (visitors st)
      /\ Forall (fun v => v_id v <> id) (visitors st')
      /\ (length (visitors st')
          + length (List.filter (fun v => (v_id v =? id)%Z) (visitors st))
          = length (visitors st))%nat
      /\ (forall out, viewOf parse st' = Normal out ->
                      Forall (fun v => v_id v <> id) out /\ out ⊆+ visitors st)).
Proof.
  cbn zeta. unfold handleDelete. split; [|split; [|split]].
  - destruct confirmed; [destruct (success result)|]; simpl;
      eexists; (split; [reflexivity|]); simpl; intros H;
      repeat (destruct H as [H | H]; [discriminate H|]); exact H.
  - intros ->. simpl. split; [reflexivity|]. split; [reflexivity|].
    intros [H | []]. discriminate H.
  - intros -> ->. simpl. split; [reflexivity|]. split; [reflexivity|].
    right. right. left. reflexivity.
  - intros -> ->. cbn [negb fst snd setVisitors visitors]. split; [reflexivity|].
    assert (Hno : Forall (fun v => v_id v <> id)
                         (List.filter (fun v => negb (v_id v =? id)) (visitors st))).
    { eapply Forall_impl; [apply filter_all_true|].
      intros v Hv. simpl in Hv. apply negb_true_iff, Z.eqb_neq in Hv. exact Hv. }
    split; [reflexivity|]. split; [exact Hno|]. split; [apply filter_negb_length|].
    intros out Hout. rewrite viewOf_filterSort in Hout.
    cbn [setVisitors visitors searchTerm purposeFilter dateRange sortOrder] in Hout.
    assert (Hsub : out ⊆+ List.filter (fun v => negb (v_id v =? id)) (visitors st)).
    { rewrite <- (sortStage_perm parse (sortOrder st) (List.filter _ (visitors st))).
      eapply (filterSort_relaxed parse _ "" _ "" _ (mkDateRange "" ""));
        [right | right | right | right | exact Hout | apply filterSort_unfiltered];
        reflexivity. }
    split.
    + apply List.Forall_forall. intros v Hv.
      rewrite List.Forall_forall in Hno. apply Hno.
      apply list_elem_of_In. eapply elem_of_submseteq; [|exact Hsub].
      now apply list_elem_of_In.
    + etransitivity; [exact Hsub|]. apply sublist_submseteq, filter_sublist.
Qed.

Lemma handleDelete_removes_id_witness :
  snd (handleDelete true (okResult tt) 1 viewerB)
  = [ConfirmPrompt "Are you sure you want to delete this visitor record?";
     CallDeleteVisitor 1]
  /\ visitors (fst (handleDelete true (okResult tt) 1 viewerB)) = [bob].
Proof.
  pose proof (proj2 (proj2 (proj2 (handleDelete_removes_id unit (JsDate.parse 0) true
                                     (okResult tt) 1 viewerB))) eq_refl eq_refl) as H.
  split; [exact (proj1 H) | exact (proj1 (proj2 H))].
Defined.

(** ** The pagination bar (lines 403-455) *)

(** "Showing [from] to [to] of [n] results" *)
Definition showingFrom (currentPage itemsPerPage : Z) : Z :=
  indexOfFirstItem currentPage itemsPerPage + 1.

Definition showingTo {A} (filtered : list A) (currentPage itemsPerPage : Z) : Z :=
  Z.min (indexOfLastItem currentPage itemsPerPage) (Z.of_nat (length filtered)).

Inductive PageItem : Type :=
| PageButton (pageNumber : Z) (active : bool)
| PageEllipsis
| PageHidden.

(** Lines 418-445: what stands for page [pageNumber] in the bar. *)
Definition pageItem (currentPage totalPages pageNumber : Z) : PageItem :=
  if (pageNumber =? 1) || (pageNumber =? totalPages)
     || ((currentPage - 1 <=? pageNumber) && (pageNumber <=? currentPage + 1))
  then PageButton pageNumber (currentPage =? pageNumber)
  else if (pageNumber =? currentPage - 2) || (pageNumber =? currentPage + 2)
       then PageEllipsis
       else PageHidden.

Definition pageItems (currentPage totalPages : Z) : list PageItem :=
  map (pageItem currentPage totalPages) (pageNumbers totalPages).

Definition isButton (i : PageItem) : bool :=
  match i with PageButton _ _ => true | _ => false end.

Definition isEllipsis (i : PageItem) : bool :=
  match i with PageEllipsis => true | _ => false end.

(** The controls of the bar: the two arrows and the numbered buttons. *)
Inductive PageClick : Type :=
| ClickPrevious
| ClickNext
| ClickPage (pageNumber : Z).

(** The arrows are disabled on the first and on the last page; a number
    can be clicked when the bar shows its button. *)
Definition enabled (currentPage totalPages : Z) (c : PageClick) : bool :=
  match c with
  | ClickPrevious => negb (currentPage =? 1)
  | ClickNext => negb (currentPage =? totalPages)
  | ClickPage n =>
      (1 <=? n) && (n <=? totalPages) && isButton (pageItem currentPage totalPages n)
  end.

(** [paginate], as the controls call it. *)
Definition paginate (currentPage : Z) (c : PageClick) : Z :=
  match c with
  | ClickPrevious => currentPage - 1
  | ClickNext => currentPage + 1
  | ClickPage n => n
  end.

Lemma window_length {A} (l : list A) (from size : nat) :
  length (window l from size) = Nat.min size (length l - from).
Proof. unfold window. now rewrite length_firstn, length_skipn. Qed.

Lemma firstn_min_length {A} (n : nat) (l : list A) :
  firstn (Nat.min n (length l)) l = firstn n l.
Proof.
  destruct (Nat.le_gt_cases n (length l)) as [H | H].
  - now rewrite Nat.min_l.
  - rewrite Nat.min_r by lia. rewrite !firstn_all2 by lia. reflexivity.
Qed.

(** X5. While the admin uses the enabled controls of the pagination bar,
    the page number stays between 1 and the number of pages; and on such
    a page the table is not empty, and the line "Showing a to b of n"
    names exactly the rows of the table: b - a + 1 of them, the records
    at the positions a to b of the view. *)
Theorem pagination_bar_stays_in_range (A : Type) (filtered : list A)
        (size cur : Z) (c : PageClick) :
  0 < size ->
  1 <= cur <= totalPages filtered size ->
  (enabled cur (totalPages filtered size) c = true ->
   1 <= paginate cur c <= totalPages filtered size)
  /\ currentItems filtered cur size <> []
  /\ 1 <= showingFrom cur size <= showingTo filtered cur size
  /\ showingTo filtered cur size <= Z.of_nat (length filtered)
  /\ Z.of_nat (length (currentItems filtered cur size))
     = showingTo filtered cur size - showingFrom cur size + 1
  /\ currentItems filtered cur size
     = firstn (Z.to_nat (showingTo filtered cur size - showingFrom cur size + 1))
              (skipn (Z.to_nat (showingFrom cur size - 1)) filtered).
Proof.
  intros Hsize Hcur.
  pose proof (ceilDiv_bounds (Z.of_nat (length filtered)) size Hsize) as Hb.
  fold (totalPages filtered size) in Hb.
  assert (Hlen : Z.of_nat (length (currentItems filtered cur size))
                 = Z.min size (Z.of_nat (length filtered) - (cur - 1) * size)).
  { rewrite currentItems_window, window_length by lia. nia. }
  unfold showingFrom, showingTo, indexOfFirstItem, indexOfLastItem.
  split; [|split; [|split; [|split; [|split]]]].
  - destruct c as [| |n]; simpl; intros He.
    + apply negb_true_iff, Z.eqb_neq in He. lia.
    + apply negb_true_iff, Z.eqb_neq in He. lia.
    + apply andb_true_iff in He as [He _]. apply andb_true_iff in He as [H1 H2].
      apply Z.leb_le in H1, H2. lia.
  - intros Hnil. rewrite Hnil in Hlen. simpl in Hlen. nia.
  - nia.
  - lia.
  - rewrite Hlen. nia.
  - rewrite currentItems_window by lia. unfold window.
    replace (Z.to_nat (cur * size - size + 1 - 1)) with (Z.to_nat ((cur - 1) * size))
      by (f_equal; lia).
    rewrite <- (firstn_min_length (Z.to_nat size)). f_equal.
    rewrite length_skipn. nia.
Qed.

Lemma pagination_bar_stays_in_range_witness :
  0 < defaultItemsPerPage
  /\ 1 <= 3 <= totalPages (seq 0 25) defaultItemsPerPage
  /\ Z.of_nat (length (currentItems (seq 0 25) 3 defaultItemsPerPage))
     = showingTo (seq 0 25) 3 defaultItemsPerPage - showingFrom 3 defaultItemsPerPage + 1.
Proof.
  assert (H1 : 0 < defaultItemsPerPage) by reflexivity.
  assert (H2 : 1 <= 3 <= totalPages (seq 0 25) defaultItemsPerPage)
    by (split; discriminate).
  split; [exact H1|]. split; [exact H2|].
  exact (proj1 (proj2 (proj2 (proj2 (proj2
          (pagination_bar_stays_in_range nat (seq 0 25) defaultItemsPerPage 3
             ClickNext H1 H2)))))).
Defined.

Lemma pageNumbers_In (total n : Z) : In n (pageNumbers total) <-> 1 <= n <= total.
Proof.
  unfold pageNumbers. rewrite in_map_iff. split.
  - intros (k & <- & Hk). apply in_seq in Hk. lia.
  - intros Hn. exists (Z.to_nat n). split; [lia|]. apply in_seq. lia.
Qed.

Lemma pageNumbers_NoDup (total : Z) : List.NoDup (pageNumbers total).
Proof.
  unfold pageNumbers. apply Finite.Injective_map_NoDup.
  - intros a b H. lia.
  - apply seq_NoDup.
Qed.

Lemma filter_map_length {A B} (f : A -> B) (q : B -> bool) (l : list A) :
  length (List.filter q (map f l)) = length (List.filter (fun x => q (f x)) l).
Proof.
  induction l as [|x l IH]; simpl; [reflexivity|].
  destruct (q (f x)); simpl; now rewrite IH.
Qed.

Lemma few_selected (q : Z -> bool) (candidates : list Z) (total : Z) :
  (forall n, q n = true -> In n candidates) ->
  (length (List.filter q (pageNumbers total)) <= length candidates)%nat.
Proof.
  intros Hq. apply NoDup_incl_length.
  - apply List.NoDup_filter, pageNumbers_NoDup.
  - intros n Hn. apply filter_In in Hn as [_ Hn]. now apply Hq.
Qed.

(** X6. On a page between 1 and the number of pages, the bar shows the
    button of the current page, and marks it and no other as active; it
    shows the buttons of the first and of the last page; it never shows
    more than five buttons and two ellipses; and where a page below, or
    above, the current one has no button, an ellipsis stands two places
    below, or above, the current page. *)
Theorem page_buttons_window (cur total : Z) :
  1 <= cur <= total ->
  pageItem cur total cur = PageButton cur true
  /\ (forall n b, pageItem cur total n = PageButton n b -> (b = true <-> n = cur))
  /\ isButton (pageItem cur total 1) = true
  /\ isButton (pageItem cur total total) = true
  /\ (length (List.filter isButton (pageItems cur total)) <= 5)%nat
  /\ (length (List.filter isEllipsis (pageItems cur total)) <= 2)%nat
  /\ (forall n, 1 <= n <= total -> isButton (pageItem cur total n) = false ->
        (n < cur -> In PageEllipsis (pageItems cur total)
                    /\ pageItem cur total (cur - 2) = PageEllipsis)
        /\ (cur < n -> In PageEllipsis (pageItems cur total)
                       /\ pageItem cur total (cur + 2) = PageEllipsis)).
Proof.
  intros Hcur.
  assert (Hshown : forall n, isButton (pageItem cur total n) = true ->
                             In n [1; total; cur - 1; cur; cur + 1]).
  { intros n. unfold pageItem.
    destruct (n =? 1) eqn:E1; [apply Z.eqb_eq in E1; intros _; simpl; lia|].
    destruct (n =? total) eqn:E2; [apply Z.eqb_eq in E2; intros _; simpl; lia|].
    destruct ((cur - 1 <=? n) && (n <=? cur + 1)) eqn:E3.
    - apply andb_true_iff in E3 as [Ha Hb]. apply Z.leb_le in Ha, Hb.
      intros _. simpl. lia.
    - simpl. destruct (_ || _); discriminate. }
  assert (Hdots : forall n, isEllipsis (pageItem cur total n) = true ->
                            In n [cur - 2; cur + 2]).
  { intros n. unfold pageItem. destruct (_ || _ || _); [discriminate|].
    destruct ((n =? cur - 2) || (n =? cur + 2)) eqn:E; [|discriminate].
    intros _. apply orb_true_iff in E as [E | E]; apply Z.eqb_eq in E; simpl; lia. }
  assert (Hgap : forall n, 1 <= n <= total -> isButton (pageItem cur total n) = false ->
                           n <> 1 /\ n <> total /\ (n < cur - 1 \/ cur + 1 < n)).
  { intros n Hn. unfold pageItem.
    destruct (n =? 1) eqn:E1; [discriminate|].
    destruct (n =? total) eqn:E2; [discriminate|].
    destruct ((cur - 1 <=? n) && (n <=? cur + 1)) eqn:E3; [discriminate|].
    intros _. apply Z.eqb_neq in E1, E2. apply andb_false_iff in E3.
    rewrite !Z.leb_gt in E3. lia. }
  split; [|split; [|split; [|split; [|split; [|split]]]]].
  - unfold pageItem.
    replace ((cur - 1 <=? cur) && (cur <=? cur + 1)) with true
      by (symmetry; apply andb_true_iff; split; apply Z.leb_le; lia).
    rewrite orb_true_r, Z.eqb_refl. reflexivity.
  - intros n b H. unfold pageItem in H. destruct (_ || _ || _).
    + injection H as <-. rewrite Z.eqb_eq. split; congruence.
    + destruct (_ || _); discriminate.
  - unfold pageItem. reflexivity.
  - unfold pageItem. rewrite Z.eqb_refl, orb_true_r. reflexivity.
  - unfold pageItems. rewrite filter_map_length.
    apply (few_selected _ [1; total; cur - 1; cur; cur + 1] total Hshown).
  - unfold pageItems. rewrite filter_map_length.
    apply (few_selected _ [cur - 2; cur + 2] total Hdots).
  - intros n Hn Hb. destruct (Hgap n Hn Hb) as (H1 & H2 & H3). split.
    + intros Hlt.
      assert (He : pageItem cur total (cur - 2) = PageEllipsis).
      { unfold pageItem.
        replace (cur - 2 =? 1) with false by (symmetry; apply Z.eqb_neq; lia).
        replace (cur - 2 =? total) with false by (symmetry; apply Z.eqb_neq; lia).
        replace (cur - 1 <=? cur - 2) with false by (symmetry; apply Z.leb_gt; lia).
        simpl. now rewrite Z.eqb_refl. }
      split; [|exact He]. rewrite <- He. unfold pageItems.
      apply in_map, pageNumbers_In. lia.
    + intros Hgt.
      assert (He : pageItem cur total (cur + 2) = PageEllipsis).
      { unfold pageItem.
        replace (cur + 2 =? 1) with false by (symmetry; apply Z.eqb_neq; lia).
        replace (cur + 2 =? total) with false by (symmetry; apply Z.eqb_neq; lia).
        replace (cur + 2 <=? cur + 1) with false by (symmetry; apply Z.leb_gt; lia).
        rewrite andb_false_r. simpl. now rewrite Z.eqb_refl, orb_true_r. }
      split; [|exact He]. rewrite <- He. unfold pageItems.
      apply in_map, pageNumbers_In. lia.
Qed.

Lemma page_buttons_window_witness :
  1 <= 5 <= 9
  /\ pageItems 5 9
     = [PageButton 1 false; PageHidden; PageEllipsis; PageButton 4 false;
        PageButton 5 true; PageButton 6 false; PageEllipsis; PageHidden;
        PageButton 9 false]
  /\ pageItem 5 9 5 = PageButton 5 true.
Proof.
  assert (H : 1 <= 5 <= 9) by lia.
  split; [exact H|]. split; [reflexivity|].
  exact (proj1 (page_buttons_window 5 9 H)).
Defined.

(* ===================================================================== *)
(** * More of the dashboard *)
(* ===================================================================== *)

Section DashboardOrder.
Variable parse : string -> option Z.
Variables tz now : Z.

(** The clock shows a time at least a week after the epoch. *)
Definition weekAfterEpoch : Prop := 0 <= JsDate.LocalTime tz (weekdaysAgo tz now).

Lemma WeekDay_range (t : Z) : 0 <= JsDate.WeekDay t < 7.
Proof. unfold JsDate.WeekDay. apply Z.mod_pos_bound. lia. Qed.

Lemma DateFromTime_pos (t : Z) : 1 <= JsDate.DateFromTime t.
Proof.
  unfold JsDate.DateFromTime. pose proof (civilFromDays_inv (JsDate.Day t)) as H.
  destruct (JsDate.civilFromDays (JsDate.Day t)) as [[y m] d]. simpl. lia.
Qed.

Lemma weekAfterEpoch_afterEpoch : weekAfterEpoch -> afterEpoch tz now.
Proof.
  unfold weekAfterEpoch, afterEpoch, weekdaysAgo, JsDate.getDay, JsDate.LocalTime.
  pose proof (WeekDay_range (now + tz)) as H. unfold JsDate.msPerDay. lia.
Qed.

Lemma Day_weekdaysAgo :
  JsDate.Day (JsDate.LocalTime tz (weekdaysAgo tz now))
  = JsDate.Day (JsDate.LocalTime tz now) - JsDate.getDay tz now.
Proof.
  unfold weekdaysAgo, JsDate.LocalTime, JsDate.Day, JsDate.getDay, JsDate.LocalTime.
  replace (now - JsDate.WeekDay (now + tz) * JsDate.msPerDay + tz)
    with (now + tz + - JsDate.WeekDay (now + tz) * JsDate.msPerDay) by lia.
  rewrite Z.div_add by discriminate. lia.
Qed.

Lemma monthStart_closed :
  weekAfterEpoch -> monthStart tz now = startOfMonth tz (weekdaysAgo tz now).
Proof.
  intros H. rewrite monthStart_weekdaysAgo. now apply newDateYMD_startOfMonth.
Qed.

(** The three bounds in order: the month count starts first. *)
Lemma monthStart_le_weekdaysAgo : weekAfterEpoch -> monthStart tz now <= weekdaysAgo tz now.
Proof.
  intros H. rewrite monthStart_closed by exact H. unfold startOfMonth, JsDate.UTC.
  pose proof (DateFromTime_pos (JsDate.LocalTime tz (weekdaysAgo tz now))) as Hd.
  pose proof (Day_TimeWithinDay (JsDate.LocalTime tz (weekdaysAgo tz now))) as Hs.
  assert (0 <= JsDate.TimeWithinDay (JsDate.LocalTime tz (weekdaysAgo tz now)))
    by (apply Z.mod_pos_bound; reflexivity).
  unfold JsDate.LocalTime in *. unfold JsDate.msPerDay in *. lia.
Qed.

Lemma monthStart_le_startOfToday : weekAfterEpoch -> monthStart tz now <= startOfToday tz now.
Proof.
  intros H. rewrite monthStart_closed by exact H. unfold startOfMonth, JsDate.UTC.
  rewrite Day_weekdaysAgo.
  pose proof (DateFromTime_pos (JsDate.LocalTime tz (weekdaysAgo tz now))) as Hd.
  pose proof (WeekDay_range (JsDate.LocalTime tz now)) as Hw.
  pose proof (Day_TimeWithinDay (JsDate.LocalTime tz now)) as Hs.
  unfold startOfToday, JsDate.getDay, JsDate.LocalTime in *.
  unfold JsDate.msPerDay in *. lia.
Qed.

Lemma startOfToday_le_now : startOfToday tz now <= now.
Proof.
  unfold startOfToday.
  assert (0 <= JsDate.TimeWithinDay (JsDate.LocalTime tz now))
    by (apply Z.mod_pos_bound; reflexivity).
  lia.
Qed.

Lemma countIf_since_mono (b1 b2 : Z) (l : list Visitor) :
  b1 <= b2 -> countIf (since parse now b2) l <= countIf (since parse now b1) l.
Proof.
  intros Hb. induction l as [|v l IH]; [reflexivity|].
  rewrite !countIf_cons.
  set (c2 := countIf (since parse now b2) l) in *.
  set (c1 := countIf (since parse now b1) l) in *.
  unfold since, timeGe, bump.
  destruct (checkinTime parse now v) as [t|]; [|lia].
  destruct (b2 <=? t) eqn:E2, (b1 <=? t) eqn:E1; lia.
Qed.

Lemma countIf_le_length (q : Visitor -> bool) (l : list Visitor) :
  0 <= countIf q l <= Z.of_nat (length l).
Proof.
  unfold countIf. pose proof (filter_sublist q l) as H.
  apply sublist_length in H. lia.
Qed.

Lemma localStats_fields (l : list Visitor) :
  localStats parse tz now l
  = {| total_visitors := Z.of_nat (length l);
       today_visitors := countIf (since parse now (today tz now)) l;
       this_week_visitors := countIf (since parse now (weekStart tz now)) l;
       this_month_visitors := countIf (since parse now (monthStart tz now)) l |}.
Proof. unfold localStats. rewrite fold_statsStep. reflexivity. Qed.

Lemma localStats_snoc (l : list Visitor) (v : Visitor) :
  localStats parse tz now (l ++ [v])
  = statsStep parse tz now (localStats parse tz now l) v.
Proof. unfold localStats. now rewrite fold_left_app. Qed.

End DashboardOrder.

(** X7. Of the four numbers the dashboard computes from an array of
    records, the month count is at least the today count and at least
    the week count, and no count exceeds the total.  On a Sunday the week
    count is at most the today count; on the other days the today count
    is at most the week count. *)
Theorem dashboard_counts_ordered (parse : string -> option Z) (tz now : Z)
        (stats : Stats) (l : list Visitor) :
  weekAfterEpoch tz now ->
  let s := fetchStats parse tz now stats (okResult (PayloadArray l)) in
  0 <= today_visitors s <= this_month_visitors s
  /\ 0 <= this_week_visitors s <= this_month_visitors s
  /\ this_month_visitors s <= total_visitors s
  /\ (JsDate.getDay tz now = 0 -> this_week_visitors s <= today_visitors s)
  /\ (JsDate.getDay tz now <> 0 -> today_visitors s <= this_week_visitors s).
Proof.
  intros Hweek. cbn zeta. unfold fetchStats, okResult. cbn [success data statsOfPayload].
  rewrite localStats_fields.
  cbn [total_visitors today_visitors this_week_visitors this_month_visitors].
  rewrite today_startOfToday by (now apply weekAfterEpoch_afterEpoch).
  rewrite weekStart_weekdaysAgo.
  pose proof (monthStart_le_weekdaysAgo tz now Hweek) as H1.
  pose proof (monthStart_le_startOfToday tz now Hweek) as H2.
  pose proof (WeekDay_range (JsDate.LocalTime tz now)) as Hw.
  pose proof (Day_TimeWithinDay (JsDate.LocalTime tz now)) as Hs.
  assert (Ht : 0 <= JsDate.TimeWithinDay (JsDate.LocalTime tz now) < JsDate.msPerDay)
    by (apply Z.mod_pos_bound; reflexivity).
  split; [|split; [|split; [|split]]].
  - split; [apply countIf_le_length | now apply countIf_since_mono].
  - split; [apply countIf_le_length | now apply countIf_since_mono].
  - apply countIf_le_length.
  - intros Hday. apply countIf_since_mono.
    unfold startOfToday, weekdaysAgo. rewrite Hday. lia.
  - intros Hday. apply countIf_since_mono.
    unfold startOfToday, weekdaysAgo, JsDate.getDay in *. unfold JsDate.msPerDay in *. lia.
Qed.

Lemma dashboard_counts_ordered_witness :
  weekAfterEpoch 0 wednesdayNoon
  /\ today_visitors (fetchStats (JsDate.parse 0) 0 wednesdayNoon zeroStats
                                (okResult (PayloadArray [sundayMorning; thursdayMorning])))
     <= this_week_visitors
          (fetchStats (JsDate.parse 0) 0 wednesdayNoon zeroStats
                      (okResult (PayloadArray [sundayMorning; thursdayMorning]))).
Proof.
  assert (H : weekAfterEpoch 0 wednesdayNoon) by (vm_compute; discriminate).
  split; [exact H|].
  refine (proj2 (proj2 (proj2 (proj2
           (dashboard_counts_ordered (JsDate.parse 0) 0 wednesdayNoon zeroStats
              [sundayMorning; thursdayMorning] H)))) _).
  vm_compute. discriminate.
Defined.

(** X8. One more record in the array raises the total by one.  If the
    record has no timestamp at all, it counts with the current time and
    raises the today, week and month counts as well; if it has a
    timestamp that does not parse, it raises the total only. *)
Theorem dashboard_counts_undated (parse : string -> option Z) (tz now : Z)
        (l : list Visitor) (v : Visitor) :
  weekAfterEpoch tz now -> Z.abs now <= JsDate.maxTime ->
  let before := localStats parse tz now l in
  let after := localStats parse tz now (l ++ [v]) in
  total_visitors after = total_visitors before + 1
  /\ (v_checkin_time v = None -> v_entry_time v = None -> v_created_at v = None ->
      today_visitors after = today_visitors before + 1
      /\ this_week_visitors after = this_week_visitors before + 1
      /\ this_month_visitors after = this_month_visitors before + 1)
  /\ (forall x, js_or (js_or (v_checkin_time v) (v_entry_time v)) (v_created_at v) = Some x ->
                x <> "" -> parse x = None ->
                today_visitors after = today_visitors before
                /\ this_week_visitors after = this_week_visitors before
                /\ this_month_visitors after = this_month_visitors before).
Proof.
  intros Hweek Hmax. cbn zeta. rewrite localStats_snoc.
  pose proof (weekAfterEpoch_afterEpoch tz now Hweek) as Hnow.
  unfold statsStep. cbn [total_visitors today_visitors this_week_visitors
                         this_month_visitors].
  split; [reflexivity|]. split.
  - intros H1 H2 H3. unfold checkinTime. rewrite H1, H2, H3. cbn [js_or truthy].
    assert (Hclip : JsDate.TimeClip now = Some now).
    { unfold JsDate.TimeClip.
      replace (Z.abs now <=? JsDate.maxTime) with true; [reflexivity|].
      symmetry. now apply Z.leb_le. }
    rewrite Hclip. unfold timeGe, bump.
    pose proof (startOfToday_le_now tz now) as Ht.
    rewrite <- (today_startOfToday tz now Hnow) in Ht.
    pose proof (monthStart_le_startOfToday tz now Hweek) as Hm.
    rewrite <- (today_startOfToday tz now Hnow) in Hm.
    pose proof (WeekDay_range (JsDate.LocalTime tz now)) as Hw.
    assert (Hwk : weekStart tz now <= now).
    { rewrite weekStart_weekdaysAgo. unfold weekdaysAgo, JsDate.getDay, JsDate.msPerDay. lia. }
    replace (today tz now <=? now) with true by (symmetry; apply Z.leb_le; lia).
    replace (weekStart tz now <=? now) with true by (symmetry; apply Z.leb_le; lia).
    replace (monthStart tz now <=? now) with true by (symmetry; apply Z.leb_le; lia).
    repeat split.
  - intros x Hx Hne Hp. unfold checkinTime. rewrite Hx.
    replace (truthy (Some x)) with true by (destruct x; [congruence | reflexivity]).
    cbn [newDate]. rewrite Hp. repeat split.
Qed.

Lemma dashboard_counts_undated_witness :
  weekAfterEpoch 0 wednesdayNoon
  /\ Z.abs wednesdayNoon <= JsDate.maxTime
  /\ today_visitors (localStats (JsDate.parse 0) 0 wednesdayNoon ([sundayMorning] ++ [undated]))
     = today_visitors (localStats (JsDate.parse 0) 0 wednesdayNoon [sundayMorning]) + 1.
Proof.
  assert (H1 : weekAfterEpoch 0 wednesdayNoon) by (vm_compute; discriminate).
  assert (H2 : Z.abs wednesdayNoon <= JsDate.maxTime) by (vm_compute; discriminate).
  split; [exact H1|]. split; [exact H2|].
  exact (proj1 (proj1 (proj2 (dashboard_counts_undated (JsDate.parse 0) 0 wednesdayNoon
                                 [sundayMorning] undated H1 H2))
                      eq_refl eq_refl eq_refl)).
Defined.

(** ** Loading the list (Visitors.jsx, lines 42-56) *)

Definition visitorsOfPayload (p : StatsPayload) : list Visitor :=
  match p with
  | PayloadArray l => l
  | PayloadPaginated results _ => results
  | PayloadStats _ => []
  | PayloadOther _ => []
  end.

Definition setLoading (b : bool) (st : ViewerState) : ViewerState :=
  {| visitors := visitors st;
     filteredVisitors := filteredVisitors st;
     loading := b;
     searchTerm := searchTerm st;
     purposeFilter := purposeFilter st;
     dateRange := dateRange st;
     currentPage := currentPage st;
     itemsPerPage := itemsPerPage st;
     sortOrder := sortOrder st;
     showFilters := showFilters st |}.

Definition fetchVisitors (result : ApiResult StatsPayload) (st : ViewerState) : ViewerState :=
  let st1 := setLoading false st in
  if success result then
    setVisitors (match data result with
                 | Some p => visitorsOfPayload p
                 | None => []
                 end) st1
  else st1.

(** X9. The dashboard and the viewer read the same endpoint.  For the
    same successful answer, the total on the dashboard is the number of
    records the viewer holds, as long as the answer carries no count; a
    count that is not zero is shown instead, whatever the number of
    records; and a failed request changes neither the statistics nor the
    list. *)
Theorem dashboard_total_matches_viewer (parse : string -> option Z) (tz now : Z)
        (stats : Stats) (st : ViewerState) (l : list Visitor) (count : option Z) :
  total_visitors (fetchStats parse tz now stats (okResult (PayloadArray l)))
  = Z.of_nat (length (visitors (fetchVisitors (okResult (PayloadArray l)) st)))
  /\ (count = None \/ count = Some 0 ->
      total_visitors (fetchStats parse tz now stats (okResult (PayloadPaginated l count)))
      = Z.of_nat (length (visitors (fetchVisitors (okResult (PayloadPaginated l count)) st))))
  /\ (forall c, c <> 0 ->
        total_visitors (fetchStats parse tz now stats
                                   (okResult (PayloadPaginated l (Some c)))) = c
        /\ visitors (fetchVisitors (okResult (PayloadPaginated l (Some c))) st) = l)
  /\ (forall msg,
        fetchStats parse tz now stats (mkApiResult false None (Some msg)) = stats
        /\ visitors (fetchVisitors (mkApiResult false None (Some msg)) st) = visitors st).
Proof.
  unfold fetchStats, fetchVisitors, okResult.
  cbn [success data statsOfPayload visitorsOfPayload setVisitors setLoading visitors].
  rewrite !localStats_fields.
  split; [reflexivity|]. split; [|split].
  - intros [-> | ->]; reflexivity.
  - intros c Hc. unfold withCount.
    replace (c =? 0) with false by (symmetry; now apply Z.eqb_neq).
    split; reflexivity.
  - intros msg. split; reflexivity.
Qed.

Lemma dashboard_total_matches_viewer_witness :
  total_visitors (fetchStats (JsDate.parse 0) 0 wednesdayNoon zeroStats
                             (okResult (PayloadPaginated threeToday (Some 0))))
  = Z.of_nat (length (visitors (fetchVisitors (okResult (PayloadPaginated threeToday (Some 0)))
                                              viewerA))).
Proof.
  exact (proj1 (proj2 (dashboard_total_matches_viewer (JsDate.parse 0) 0 wednesdayNoon
                         zeroStats viewerA threeToday (Some 0)))
               (or_intror eq_refl)).
Defined.

(* ===================================================================== *)
(** * More of the registration form *)
(* ===================================================================== *)

(** ** The e-mail pattern *)

Lemma all_app (q : ascii -> bool) (a b : string) :
  JsString.all q (a +:+ b) = JsString.all q a && JsString.all q b.
Proof.
  induction a as [|c a IH]; [reflexivity|].
  change (String c a +:+ b) with (String c (a +:+ b)). simpl.
  rewrite IH. apply andb_assoc.
Qed.

Lemma emailChar_not_at (c : ascii) : emailChar c = true -> c <> "@"%char.
Proof.
  intros H ->. vm_compute in H. discriminate H.
Qed.

Lemma emailChar_dot : emailChar "." = true.
Proof. reflexivity. Qed.

(** The part after the [@]: [b.c], the characters of [b] and [c] of the
    class, [c] not empty, and [b] not empty unless a character was read. *)
Definition domainShape (seen : bool) (s : string) : Prop :=
  exists b c : string,
    s = b +:+ "." +:+ c
    /\ (seen = true \/ b <> "") /\ c <> ""
    /\ JsString.all emailChar b = true /\ JsString.all emailChar c = true.

Lemma domainMatch_spec (seen : bool) (s : string) :
  domainMatch seen s = true <-> domainShape seen s.
Proof.
  revert seen. induction s as [|x s IH]; intros seen.
  - split; [discriminate|]. intros (b & c & H & _). destruct b; discriminate H.
  - cbn [domainMatch]. rewrite orb_true_iff, !andb_true_iff, IH. split.
    + intros [[[[Hseen Hx] Hne] Hall] | [Hx (b & c & -> & _ & Hc & Hb & Hcc)]].
      * apply Ascii.eqb_eq in Hx. subst x. exists "", s.
        split; [reflexivity|]. split; [now left|].
        split; [destruct s; [discriminate | discriminate]|]. now split.
      * exists (String x b), c. split; [reflexivity|].
        split; [right; discriminate|]. split; [exact Hc|].
        split; [simpl; now rewrite Hx | exact Hcc].
    + intros (b & c & Hs & Hseen & Hc & Hb & Hcc). destruct b as [|y b].
      * left. change ("" +:+ "." +:+ c) with (String "." c) in Hs.
        injection Hs as -> ->. destruct Hseen as [-> | Hn]; [|congruence].
        repeat split; try reflexivity; [|exact Hcc].
        destruct c; [congruence | reflexivity].
      * right. change (String y b +:+ "." +:+ c) with (String y (b +:+ "." +:+ c)) in Hs.
        injection Hs as -> ->. simpl in Hb. apply andb_true_iff in Hb as [Hy Hb].
        split; [exact Hy|]. exists b, c. repeat split; auto.
Qed.

Definition emailShape (seen : bool) (s : string) : Prop :=
  exists a b c : string,
    s = a +:+ "@" +:+ b +:+ "." +:+ c
    /\ (seen = true \/ a <> "") /\ b <> "" /\ c <> ""
    /\ JsString.all emailChar a = true
    /\ JsString.all emailChar b = true
    /\ JsString.all emailChar c = true.

Lemma emailMatch_spec (seen : bool) (s : string) :
  emailMatch seen s = true <-> emailShape seen s.
Proof.
  revert seen. induction s as [|x s IH]; intros seen.
  - split; [discriminate|]. intros (a & b & c & H & _). destruct a; discriminate H.
  - cbn [emailMatch]. destruct (Ascii.eqb x "@") eqn:Ex.
    + apply Ascii.eqb_eq in Ex. subst x.
      rewrite andb_true_iff, domainMatch_spec. split.
      * intros [Hseen (b & c & -> & [Hf | Hb] & Hc & Hbb & Hcc)]; [discriminate|].
        exists "", b, c. repeat split; auto.
      * intros (a & b & c & Hs & Hseen & Hb & Hc & Ha & Hbb & Hcc).
        destruct a as [|y a].
        -- change ("" +:+ "@" +:+ b +:+ "." +:+ c) with (String "@" (b +:+ "." +:+ c)) in Hs.
           injection Hs as ->. destruct Hseen as [-> | Hn]; [|congruence].
           split; [reflexivity|]. exists b, c. repeat split; auto.
        -- change (String y a +:+ "@" +:+ b +:+ "." +:+ c)
             with (String y (a +:+ "@" +:+ b +:+ "." +:+ c)) in Hs.
           injection Hs as <- _. simpl in Ha. discriminate Ha.
    + rewrite andb_true_iff, IH. split.
      * intros [Hx (a & b & c & -> & _ & Hb & Hc & Ha & Hbb & Hcc)].
        exists (String x a), b, c. split; [reflexivity|].
        split; [right; discriminate|]. repeat split; auto.
        simpl. now rewrite Hx.
      * intros (a & b & c & Hs & Hseen & Hb & Hc & Ha & Hbb & Hcc).
        destruct a as [|y a].
        -- change ("" +:+ "@" +:+ b +:+ "." +:+ c) with (String "@" (b +:+ "." +:+ c)) in Hs.
           injection Hs as -> _. rewrite Ascii.eqb_refl in Ex. discriminate.
        -- change (String y a +:+ "@" +:+ b +:+ "." +:+ c)
             with (String y (a +:+ "@" +:+ b +:+ "." +:+ c)) in Hs.
           injection Hs as -> ->. simpl in Ha. apply andb_true_iff in Ha as [Hy Ha].
           split; [exact Hy|]. exists a, b, c. repeat split; auto.
Qed.

(** X10. The e-mail pattern of the two forms accepts exactly the strings
    [a@b.c] in which [a], [b] and [c] are not empty and hold neither
    white space nor [@]: one [@], and after it a dot with something on
    both sides. *)
Theorem email_pattern_shape (s : string) :
  emailRegex_test s = true
  <-> exists a b c : string,
        s = a +:+ "@" +:+ b +:+ "." +:+ c
        /\ a <> "" /\ b <> "" /\ c <> ""
        /\ JsString.all emailChar a = true
        /\ JsString.all emailChar b = true
        /\ JsString.all emailChar c = true.
Proof.
  unfold emailRegex_test. rewrite emailMatch_spec. unfold emailShape. split.
  - intros (a & b & c & Hs & [Hf | Ha] & H); [discriminate|].
    exists a, b, c. tauto.
  - intros (a & b & c & Hs & Ha & H). exists a, b, c. tauto.
Qed.

(** ** The whole validation *)

Lemma emailMatch_not_blank (seen : bool) (s : string) :
  emailMatch seen s = true -> JsString.blank s = false.
Proof.
  destruct s as [|x s]; [discriminate|]. cbn [emailMatch]. unfold JsString.blank. simpl.
  destruct (Ascii.eqb x "@") eqn:Ex.
  - apply Ascii.eqb_eq in Ex. subst x. reflexivity.
  - intros H. apply andb_true_iff in H as [Hx _]. unfold emailChar in Hx.
    apply andb_true_iff in Hx as [Hx _]. apply negb_true_iff in Hx. now rewrite Hx.
Qed.

Lemma emailError_None (email : string) :
  emailError email = None <-> emailRegex_test email = true.
Proof.
  unfold emailError. rewrite isEmpty_trim.
  destruct (emailRegex_test email) eqn:E.
  - unfold emailRegex_test in E. rewrite (emailMatch_not_blank _ _ E). simpl. tauto.
  - destruct (JsString.blank email); simpl; split; discriminate.
Qed.

Lemma nameError_None (name : string) :
  nameError name = None <-> 2 <= JsString.len (JsString.trim name).
Proof.
  unfold nameError.
  destruct (JsString.trim name) as [|c t] eqn:E; cbn [JsString.isEmpty].
  - unfold JsString.len. simpl. split; [discriminate | lia].
  - destruct (JsString.len (String c t) <? 2) eqn:L.
    + apply Z.ltb_lt in L. split; [discriminate | lia].
    + apply Z.ltb_ge in L. tauto.
Qed.

Lemma purposeError_None (purpose : string) :
  purposeError purpose = None <-> purpose <> "".
Proof.
  destruct purpose; simpl; split.
  - discriminate.
  - intros H. now contradiction H.
  - discriminate.
  - reflexivity.
Qed.

Lemma setError_empty_iff (f : string) (msg : option string) (e : gmap string string) :
  setError f msg e = ∅ <-> msg = None /\ e = ∅.
Proof.
  destruct msg as [m|]; simpl.
  - split; [intros H; now apply insert_non_empty in H | intros [H _]; discriminate].
  - split; [now split | now intros [_ ->]].
Qed.

(** X11. The registration form passes validation exactly when the name,
    trimmed, has at least two characters, the e-mail address matches the
    pattern, the phone without white space and hyphens is 10 to 15 digits
    and a purpose is chosen; host and message are free.  Then, and only
    then, [handleSubmit] sends the form. *)
Theorem registration_valid_iff (D : Type) (submit : FormData -> ApiResult D)
        (st : FormState) :
  let fd := formData st in
  (newErrors fd = ∅
   <-> 2 <= JsString.len (JsString.trim (fd_name fd))
       /\ emailRegex_test (fd_email fd) = true
       /\ validPhone (fd_phone fd)
       /\ fd_purpose fd <> "")
  /\ (In (CallSubmitVisitorForm fd) (snd (handleSubmit submit st)) <-> newErrors fd = ∅).
Proof.
  cbn zeta. split.
  - unfold newErrors. rewrite !setError_empty_iff.
    rewrite nameError_None, emailError_None, phoneError_None, purposeError_None. tauto.
  - destruct (decide (newErrors (formData st) = ∅)) as [He | Hne].
    + destruct (handleSubmit_calls submit st) as (st' & rest & Hs).
      { now apply bool_decide_eq_true. }
      rewrite Hs. simpl. tauto.
    + rewrite (handleSubmit_blocked submit st) by (now apply bool_decide_eq_false).
      simpl. tauto.
Qed.

(** ** Editing a field (lines 71-78) *)

(** [{ ...prev, [name]: value }] for the names of the six inputs. *)
Definition setField (name value : string) (fd : FormData) : FormData :=
  if String.eqb name "name" then
    mkFormData value (fd_email fd) (fd_phone fd) (fd_host fd) (fd_purpose fd) (fd_message fd)
  else if String.eqb name "email" then
    mkFormData (fd_name fd) value (fd_phone fd) (fd_host fd) (fd_purpose fd) (fd_message fd)
  else if String.eqb name "phone" then
    mkFormData (fd_name fd) (fd_email fd) value (fd_host fd) (fd_purpose fd) (fd_message fd)
  else if String.eqb name "host" then
    mkFormData (fd_name fd) (fd_email fd) (fd_phone fd) value (fd_purpose fd) (fd_message fd)
  else if String.eqb name "purpose" then
    mkFormData (fd_name fd) (fd_email fd) (fd_phone fd) (fd_host fd) value (fd_message fd)
  else if String.eqb name "message" then
    mkFormData (fd_name fd) (fd_email fd) (fd_phone fd) (fd_host fd) (fd_purpose fd) value
  else fd.

Definition handleChange (name value : string) (st : FormState) : FormState :=
  {| formData := setField name value (formData st);
     errors := if truthy (errors st !! name) then <[name := ""]> (errors st)
               else errors st;
     form_loading := form_loading st;
     submitStatus := submitStatus st |}.

(** [errors.field && <p>...</p>]: is a message shown under the field? *)
Definition showsError (st : FormState) (field : string) : bool :=
  truthy (errors st !! field).

(** X12. Editing a field removes the message shown under that field at
    once and leaves the messages of the other fields as they are, without
    validating anything.  What a later submit does depends on the data of
    the form alone: entries left in the error object do not block it. *)
Theorem handleChange_clears_field_error (D : Type) (submit : FormData -> ApiResult D)
        (name value : string) (st st2 : FormState) :
  showsError (handleChange name value st) name = false
  /\ (forall field, field <> name ->
        errors (handleChange name value st) !! field = errors st !! field)
  /\ (formData st2 = formData st ->
      snd (handleSubmit submit st2) = snd (handleSubmit submit st)
      /\ errors (fst (handleSubmit submit st2)) = errors (fst (handleSubmit submit st))).
Proof.
  split; [|split].
  - unfold showsError, handleChange. cbn [errors].
    destruct (truthy (errors st !! name)) eqn:E; [|exact E].
    now rewrite lookup_insert_eq.
  - intros field Hf. unfold handleChange. cbn [errors].
    destruct (truthy (errors st !! name)); [|reflexivity].
    now rewrite lookup_insert_ne.
  - intros Hfd. unfold handleSubmit, validateForm. cbn [formData errors]. rewrite Hfd.
    destruct (noErrors (newErrors (formData st))); cbn [negb formData errors];
      [|split; reflexivity].
    destruct (success (submit (formData st))); split; reflexivity.
Qed.

Lemma handleChange_clears_field_error_witness :
  snd (handleSubmit (fun _ => okResult tt)
         (handleChange "phone" "5550100100"
            (fst (handleSubmit (fun _ => okResult tt) formWith12a))))
  = snd (handleSubmit (fun _ => okResult tt)
           (mkFormState (setField "phone" "5550100100" (formData formWith12a)) ∅ false None)).
Proof.
  exact (proj1 (proj2 (proj2 (handleChange_clears_field_error unit (fun _ => okResult tt)
                                "phone" "5550100100"
                                (mkFormState (setField "phone" "5550100100"
                                                       (formData formWith12a)) ∅ false None)
                                (handleChange "phone" "5550100100"
                                   (fst (handleSubmit (fun _ => okResult tt) formWith12a)))))
                      eq_refl)).
Defined.

Lemma email_pattern_shape_witness : emailRegex_test "ann.lee@mail.example.org" = true.
Proof.
  apply (proj2 (email_pattern_shape "ann.lee@mail.example.org")).
  exists "ann.lee", "mail.example", "org".
  repeat split; try discriminate; reflexivity.
Defined.

Lemma registration_valid_iff_witness :
  newErrors (mkFormData "Al" "al@example.com" "555 010-0100" "" "Other" "") = ∅.
Proof.
  apply (proj2 (proj1 (registration_valid_iff unit (fun _ => okResult tt)
                         (mkFormState (mkFormData "Al" "al@example.com" "555 010-0100"
                                                  "" "Other" "") ∅ false None)))).
  repeat split; try discriminate; reflexivity.
Defined.

(* ===================================================================== *)
(** * More of the token store and of the API client *)
(* ===================================================================== *)

(** ** The request interceptor (services/api, lines 16-33) *)

(** The headers of the request after the interceptor. *)
Definition attachToken (b : Browser) (headers : gmap string string) : gmap string string :=
  match Auth.getItem "authToken" b with
  | Some token =>
      if truthy (Some token) then <["Authorization" := "Bearer " +:+ token]> headers
      else headers
  | None => headers
  end.

Lemma act_other_keys (b : Browser) (a : Action) (k : string) :
  k <> "authToken" -> k <> "adminUser" -> Auth.getItem k (act b a) = Auth.getItem k b.
Proof.
  intros H1 H2. unfold Auth.getItem.
  destruct a as [op raw|token user|]; simpl.
  - rewrite runOperation_browser. destruct raw as [d|e]; [reflexivity|].
    unfold Api.onRejected. destruct (Api.is401 e); [|reflexivity].
    destruct (_ && _); simpl; rewrite !lookup_delete_ne by congruence; reflexivity.
  - unfold Auth.login, Auth.setAdminUser, Auth.setAuthToken, Auth.setItem,
      Auth.ADMIN_USER_KEY, Auth.AUTH_TOKEN_KEY.
    destruct user as [u|], token as [[|c t]|]; simpl;
      rewrite ?lookup_insert_ne by congruence; reflexivity.
  - unfold Auth.logout, Auth.removeAdminUser, Auth.removeAuthToken, Auth.removeItem,
      Auth.ADMIN_USER_KEY, Auth.AUTH_TOKEN_KEY. simpl.
    rewrite !lookup_delete_ne by congruence. reflexivity.
Qed.

Lemma login_token (t : string) (user : option string) (b : Browser) :
  t <> "" -> Auth.getAuthToken (Auth.login (Some t) user b) = Some t.
Proof.
  intros Ht. unfold Auth.login, Auth.setAdminUser, Auth.setAuthToken, Auth.getAuthToken,
    Auth.getItem, Auth.setItem, Auth.ADMIN_USER_KEY, Auth.AUTH_TOKEN_KEY.
  destruct t as [|c t]; [congruence|].
  destruct user as [u|]; simpl.
  - rewrite lookup_insert_ne by discriminate. apply lookup_insert_eq.
  - apply lookup_insert_eq.
Qed.

Lemma login_no_token (token user : option string) (b : Browser) :
  truthy token = false ->
  Auth.getAuthToken (Auth.login token user b) = Auth.getAuthToken b.
Proof.
  intros Ht. unfold Auth.login, Auth.setAdminUser, Auth.setAuthToken, Auth.getAuthToken,
    Auth.getItem, Auth.setItem, Auth.ADMIN_USER_KEY, Auth.AUTH_TOKEN_KEY.
  rewrite Ht.
  destruct user as [u|], token as [t|]; simpl;
    rewrite ?lookup_insert_ne by discriminate; reflexivity.
Qed.

Lemma login_user (token : option string) (u : string) (b : Browser) :
  Auth.getItem "adminUser" (Auth.login token (Some u) b) = Some u.
Proof.
  unfold Auth.login, Auth.setAdminUser, Auth.getItem, Auth.setItem, Auth.ADMIN_USER_KEY.
  simpl. apply lookup_insert_eq.
Qed.

Lemma logout_cleared (b : Browser) :
  Auth.getAuthToken (Auth.logout b) = None
  /\ Auth.getItem "adminUser" (Auth.logout b) = None.
Proof.
  unfold Auth.logout, Auth.removeAdminUser, Auth.removeAuthToken, Auth.removeItem,
    Auth.getAuthToken, Auth.getItem, Auth.ADMIN_USER_KEY, Auth.AUTH_TOKEN_KEY. simpl.
  split.
  - rewrite lookup_delete_ne by discriminate. apply lookup_delete_eq.
  - apply lookup_delete_eq.
Qed.

(** X13. The token store keeps what a login puts in and forgets it at
    logout: after a login with a token that is not empty the guard lets
    the admin in and the stored token is that token; after a logout both
    entries are gone, the guard redirects, and a second logout changes
    nothing.  No login, logout or call through the client touches any
    other key of [localStorage]. *)
Theorem token_store_round_trip (b : Browser) (t u : string) (token user : option string)
        (a : Action) (k : string) :
  (t <> "" ->
   Auth.getAuthToken (Auth.login (Some t) user b) = Some t
   /\ ProtectedRoute (Auth.login (Some t) user b) = RenderChildren)
  /\ Auth.getItem "adminUser" (Auth.login token (Some u) b) = Some u
  /\ (Auth.getAuthToken (Auth.logout (Auth.login token user b)) = None
      /\ Auth.getItem "adminUser" (Auth.logout (Auth.login token user b)) = None
      /\ ProtectedRoute (Auth.logout (Auth.login token user b)) = RedirectToLogin)
  /\ Auth.logout (Auth.logout b) = Auth.logout b
  /\ (k <> "authToken" -> k <> "adminUser" ->
      Auth.getItem k (act b a) = Auth.getItem k b).
Proof.
  split; [|split; [|split; [|split]]].
  - intros Ht. pose proof (login_token t user b Ht) as H. split; [exact H|].
    unfold ProtectedRoute, Auth.isAuthenticated. rewrite H.
    destruct t; [congruence | reflexivity].
  - apply login_user.
  - destruct (logout_cleared (Auth.login token user b)) as [H1 H2].
    split; [exact H1|]. split; [exact H2|].
    unfold ProtectedRoute, Auth.isAuthenticated. now rewrite H1.
  - unfold Auth.logout, Auth.removeAdminUser, Auth.removeAuthToken, Auth.removeItem. simpl.
    f_equal. apply map_eq. intros i.
    destruct (decide (i = "adminUser")) as [-> | Hu]; [now rewrite !lookup_delete_eq|].
    rewrite !(lookup_delete_ne _ "adminUser") by congruence.
    destruct (decide (i = "authToken")) as [-> | Ha]; [now rewrite !lookup_delete_eq|].
    repeat (rewrite ?(lookup_delete_ne _ "authToken"), ?(lookup_delete_ne _ "adminUser")
              by congruence).
    reflexivity.
  - apply act_other_keys.
Qed.

Lemma token_store_round_trip_witness :
  ProtectedRoute (Auth.login (Some "abc.def.ghi") (Some "{}") (mkBrowser ∅ "/admin/login"))
  = RenderChildren.
Proof.
  refine (proj2 (proj1 (token_store_round_trip (mkBrowser ∅ "/admin/login")
                          "abc.def.ghi" "" None (Some "{}") Logout "theme") _)).
  discriminate.
Defined.

(** X14. The request interceptor and the route guard agree: a request
    carries [Authorization: Bearer <token>] with the stored token exactly
    when the guard lets the admin in; otherwise the headers go out as
    they came, and no other header is ever changed.  After a 401 answer
    the next request carries no token of its own. *)
Theorem requests_carry_token_while_authenticated (b : Browser)
        (headers : gmap string string) (op : Operation) (e : Api.AxiosError) :
  (ProtectedRoute b = RenderChildren ->
   exists t, Auth.getAuthToken b = Some t
             /\ attachToken b headers !! "Authorization" = Some ("Bearer " +:+ t))
  /\ (ProtectedRoute b = RedirectToLogin -> attachToken b headers = headers)
  /\ (forall k, k <> "Authorization" -> attachToken b headers !! k = headers !! k)
  /\ (Api.is401 e = true ->
      attachToken (snd (runOperation op (Api.Rejected (A := unit) e) b)) headers
      = headers).
Proof.
  unfold ProtectedRoute, Auth.isAuthenticated, attachToken, Auth.getAuthToken,
    Auth.AUTH_TOKEN_KEY.
  split; [|split; [|split]].
  - destruct (Auth.getItem "authToken" b) as [t|]; [|discriminate].
    destruct (truthy (Some t)); [|discriminate].
    intros _. exists t. split; [reflexivity | apply lookup_insert_eq].
  - destruct (Auth.getItem "authToken" b) as [t|]; [|reflexivity].
    destruct (truthy (Some t)); [discriminate | reflexivity].
  - intros k Hk. destruct (Auth.getItem "authToken" b) as [t|]; [|reflexivity].
    destruct (truthy (Some t)); [|reflexivity].
    now rewrite lookup_insert_ne.
  - intros H401. rewrite runOperation_browser.
    pose proof (onRejected_token e b) as H. rewrite H401 in H.
    unfold Auth.getAuthToken, Auth.AUTH_TOKEN_KEY in H. now rewrite H.
Qed.

Lemma requests_carry_token_while_authenticated_witness :
  attachToken loggedIn ∅ !! "Authorization" = Some "Bearer eyJhbGciOi"
  /\ attachToken (snd (runOperation ListVisitors (Api.Rejected (A := unit) expired) loggedIn))
                 ∅ = ∅.
Proof.
  split; [vm_compute; reflexivity|].
  exact (proj2 (proj2 (proj2 (requests_carry_token_while_authenticated loggedIn ∅
                                 ListVisitors expired)))
               eq_refl).
Defined.

(** X15. A failed call leaves the browser alone unless the answer is a
    401.  On a 401 the two entries of the token store are removed, and
    the browser is sent to the login screen exactly when its path begins
    with [/admin]; on any other path, a public page, it stays. *)
Theorem only_unauthorized_touches_browser (D : Type) (op : Operation)
        (raw : Api.Settled D) (b : Browser) :
  let b' := snd (runOperation op raw b) in
  match raw with
  | Api.Fulfilled _ => b' = b
  | Api.Rejected e =>
      if Api.is401 e then
        localStorage b' = delete "adminUser" (delete "authToken" (localStorage b))
        /\ pathname b' = (if JsString.startsWith (pathname b) "/admin"
                          then "/admin/login" else pathname b)
      else b' = b
  end.
Proof.
  cbn zeta. rewrite runOperation_browser. destruct raw as [d|e]; [reflexivity|].
  destruct (Api.is401 e) eqn:E; [|unfold Api.onRejected; now rewrite E].
  split; [now apply onRejected_401|].
  unfold Api.onRejected. rewrite E. cbn [Auth.removeItem pathname].
  destruct (JsString.startsWith (pathname b) "/admin") eqn:Es; cbn [andb].
  - destruct (String.eqb (pathname b) "/admin/login") eqn:Ep; cbn [negb pathname].
    + now apply String.eqb_eq in Ep.
    + reflexivity.
  - reflexivity.
Qed.

(* ===================================================================== *)
(** * The login form (admin/AdminLogin) *)
(* ===================================================================== *)

Record LoginForm : Type := mkLoginForm {
  lf_email : string;
  lf_password : string
}.

Definition passwordError (password : string) : option string :=
  if JsString.isEmpty password then Some "Password is required"
  else if JsString.len password <? 6
       then Some "Password must be at least 6 characters"
       else None.

(** The object [newErrors] of the login form's [validateForm]. *)
Definition loginNewErrors (f : LoginForm) : gmap string string :=
  setError "password" (passwordError (lf_password f))
    (setError "email" (emailError (lf_email f)) ∅).

(** The state of the login form.  [loginError] holds what
    [setLoginError] was given: [''] or the [error] of a failed login, a
    key that [adminLogin] always sets (a result without it would read as
    [null], which shows no more than [undefined] does). *)
Record LoginState : Type := mkLoginState {
  loginForm : LoginForm;
  loginErrors : gmap string string;
  login_loading : bool;
  loginError : Json
}.

Inductive LoginEffect : Type :=
| CallAdminLogin (email password : string)
| LoginNavigate (path : string).

(** An event handler runs to its end, or stops at an exception nobody
    catches. *)
Inductive Handled (A : Type) : Type :=
| Finished (a : A)
| Uncaught.

Arguments Finished {A} a.
Arguments Uncaught {A}.

(** [navigate(path)] *)
Definition navigateTo (path : string) (b : Browser) : Browser :=
  {| localStorage := localStorage b; pathname := path |}.

(** [{ ...userData, name: userData.username }], [userData] being the
    answer without [access] and [refresh].  The answer is an object of
    strings; a property set to [undefined] is no property once stored. *)
Definition userToStore (data : gmap string string) : gmap string string :=
  let userData := delete "refresh" (delete "access" data) in
  match userData !! "username" with
  | Some n => <["name" := n]> userData
  | None => delete "name" userData
  end.

Section AdminLogin.
(** [JSON.stringify] on such objects. *)
Variable stringify : gmap string string -> string.
(** What the server answers to a pair of e-mail address and password. *)
Variable server : string -> string -> Api.Settled (gmap string string).

(** [handleSubmit] of the login form. *)
Definition loginHandleSubmit (st : LoginState) (b : Browser)
  : Handled (LoginState * Browser * list LoginEffect) :=
  let e := loginNewErrors (loginForm st) in
  if negb (noErrors e) then
    Finished (mkLoginState (loginForm st) e (login_loading st) "", b, [])
  else
    let email := lf_email (loginForm st) in
    let password := lf_password (loginForm st) in
    match Api.adminLogin (server email password) b with
    | (Api.Rejected _, _) => Uncaught
    | (Api.Fulfilled result, b1) =>
        if success result then
          match data result with
          | None => Uncaught
          | Some d =>
              let b2 := Auth.login (d !! "access") (Some (stringify (userToStore d))) b1 in
              Finished (mkLoginState (loginForm st) e false "",
                        navigateTo "/admin/dashboard" b2,
                        [CallAdminLogin email password; LoginNavigate "/admin/dashboard"])
          end
        else
          Finished (mkLoginState (loginForm st) e false (default JNull (error result)),
                    b1, [CallAdminLogin email password])
    end.

Lemma loginHandleSubmit_invalid (st : LoginState) (b : Browser) :
  loginNewErrors (loginForm st) <> ∅ ->
  loginHandleSubmit st b
  = Finished (mkLoginState (loginForm st) (loginNewErrors (loginForm st))
                           (login_loading st) "", b, []).
Proof.
  intros H. unfold loginHandleSubmit.
  replace (noErrors (loginNewErrors (loginForm st))) with false; [reflexivity|].
  symmetry. now apply bool_decide_eq_false.
Qed.

Lemma loginHandleSubmit_valid (st : LoginState) (b : Browser) :
  loginNewErrors (loginForm st) = ∅ ->
  loginHandleSubmit st b
  = match server (lf_email (loginForm st)) (lf_password (loginForm st)) with
    | Api.Fulfilled d =>
        Finished (mkLoginState (loginForm st) ∅ false "",
                  navigateTo "/admin/dashboard"
                    (Auth.login (d !! "access") (Some (stringify (userToStore d))) b),
                  [CallAdminLogin (lf_email (loginForm st)) (lf_password (loginForm st));
                   LoginNavigate "/admin/dashboard"])
    | Api.Rejected e =>
        Finished (mkLoginState (loginForm st) ∅ false (Api.loginErrorMessage e),
                  Api.onRejected e b,
                  [CallAdminLogin (lf_email (loginForm st)) (lf_password (loginForm st))])
    end.
Proof.
  intros H. unfold loginHandleSubmit. rewrite H.
  replace (noErrors ∅) with true by (symmetry; now apply bool_decide_eq_true).
  cbn [negb]. unfold Api.adminLogin, Api.interceptResponse, Api.tryCatch.
  destruct (server _ _) as [d|e]; reflexivity.
Qed.

End AdminLogin.

Lemma passwordError_None (password : string) :
  passwordError password = None <-> 6 <= JsString.len password.
Proof.
  unfold passwordError. destruct password as [|c p]; cbn [JsString.isEmpty].
  - unfold JsString.len. simpl. split; [discriminate | lia].
  - destruct (JsString.len (String c p) <? 6) eqn:L.
    + apply Z.ltb_lt in L. split; [discriminate | lia].
    + apply Z.ltb_ge in L. tauto.
Qed.

(** X16. The login form passes validation exactly when the e-mail
    address matches the pattern and the password has at least six
    characters, white space counting; otherwise nothing is sent and the
    token store stays as it is. *)
Theorem login_valid_iff (stringify : gmap string string -> string)
        (server : string -> string -> Api.Settled (gmap string string))
        (st : LoginState) (b : Browser) :
  (loginNewErrors (loginForm st) = ∅
   <-> emailRegex_test (lf_email (loginForm st)) = true
       /\ 6 <= JsString.len (lf_password (loginForm st)))
  /\ (loginNewErrors (loginForm st) <> ∅ ->
      exists st', loginHandleSubmit stringify server st b = Finished (st', b, [])
                  /\ loginErrors st' = loginNewErrors (loginForm st)).
Proof.
  split.
  - unfold loginNewErrors. rewrite !setError_empty_iff.
    rewrite emailError_None, passwordError_None. tauto.
  - intros H. rewrite loginHandleSubmit_invalid by exact H.
    eexists. split; reflexivity.
Qed.

Lemma login_valid_iff_witness :
  exists st',
    loginHandleSubmit (fun _ => "{}") (fun _ _ => Api.Fulfilled ∅)
                      (mkLoginState (mkLoginForm "admin@example.com" "12345") ∅ false "")
                      loggedIn
    = Finished (st', loggedIn, [])
    /\ loginErrors st'
       = loginNewErrors (mkLoginForm "admin@example.com" "12345").
Proof.
  refine (proj2 (login_valid_iff (fun _ => "{}") (fun _ _ => Api.Fulfilled ∅)
                   (mkLoginState (mkLoginForm "admin@example.com" "12345") ∅ false "")
                   loggedIn) _).
  intros H.
  assert (Hp : loginNewErrors (mkLoginForm "admin@example.com" "12345") !! "password"
               = Some "Password must be at least 6 characters") by reflexivity.
  cbn [loginForm] in H. rewrite H, lookup_empty in Hp. discriminate Hp.
Defined.

(** X17. What a submit of a valid login form leaves behind.  When the
    server answers with an access token that is not empty, the token is
    stored, the profile stored holds neither the access nor the refresh
    token, and the guard lets the admin into the dashboard.  When the
    answer has no access token, the form navigates to the dashboard all
    the same, the token that was stored before stays, and the guard
    decides as before.  When the server rejects, the form shows the
    message of the failed login, which is truthy, and does not navigate;
    a 401 removes both the token and the profile from the store, so the
    guard redirects, whoever was logged in; any other error leaves the
    browser as it was. *)
Theorem login_outcomes (stringify : gmap string string -> string)
        (server : string -> string -> Api.Settled (gmap string string))
        (st : LoginState) (b : Browser) :
  loginNewErrors (loginForm st) = ∅ ->
  exists st' b' effects,
    loginHandleSubmit stringify server st b = Finished (st', b', effects)
    /\ match server (lf_email (loginForm st)) (lf_password (loginForm st)) with
       | Api.Fulfilled d =>
           pathname b' = "/admin/dashboard"
           /\ Auth.getItem "adminUser" b' = Some (stringify (userToStore d))
           /\ userToStore d !! "access" = None
           /\ userToStore d !! "refresh" = None
           /\ (forall t, d !! "access" = Some t -> t <> "" ->
                         Auth.getAuthToken b' = Some t
                         /\ ProtectedRoute b' = RenderChildren)
           /\ (truthy (d !! "access") = false ->
               Auth.getAuthToken b' = Auth.getAuthToken b
               /\ ProtectedRoute b' = ProtectedRoute b)
       | Api.Rejected e =>
           jsTruthy (loginError st') = true
           /\ effects = [CallAdminLogin (lf_email (loginForm st)) (lf_password (loginForm st))]
           /\ (Api.is401 e = true ->
               localStorage b' = delete "adminUser" (delete "authToken" (localStorage b))
               /\ Auth.getItem "authToken" b' = None
               /\ Auth.getItem "adminUser" b' = None
               /\ ProtectedRoute b' = RedirectToLogin)
           /\ (Api.is401 e = false -> b' = b)
       end.
Proof.
  intros Hvalid. rewrite (loginHandleSubmit_valid stringify server st b Hvalid).
  destruct (server _ _) as [d|e]; do 3 eexists; (split; [reflexivity|]).
  - split; [reflexivity|].
    assert (Hget : forall bb, Auth.getItem "adminUser" (navigateTo "/admin/dashboard" bb)
                              = Auth.getItem "adminUser" bb) by reflexivity.
    assert (Htok : forall bb, Auth.getAuthToken (navigateTo "/admin/dashboard" bb)
                              = Auth.getAuthToken bb) by reflexivity.
    assert (Hroute : forall bb, ProtectedRoute (navigateTo "/admin/dashboard" bb)
                                = ProtectedRoute bb) by reflexivity.
    split; [rewrite Hget; apply login_user|].
    assert (Hkeys : userToStore d !! "access" = None /\ userToStore d !! "refresh" = None).
    { unfold userToStore. destruct (delete "refresh" (delete "access" d) !! "username");
        rewrite ?lookup_insert_ne, ?(lookup_delete_ne _ "name") by discriminate;
        (split; [rewrite (lookup_delete_ne _ "refresh") by discriminate|];
         apply lookup_delete_eq). }
    split; [apply Hkeys|]. split; [apply Hkeys|]. split.
    + intros t Ht Hne. rewrite Htok, Hroute, Ht.
      pose proof (login_token t (Some (stringify (userToStore d))) b Hne) as H.
      split; [exact H|]. unfold ProtectedRoute, Auth.isAuthenticated. rewrite H.
      destruct t; [congruence | reflexivity].
    + intros Hno. rewrite Htok, Hroute.
      pose proof (login_no_token (d !! "access") (Some (stringify (userToStore d))) b Hno)
        as H.
      split; [exact H|]. unfold ProtectedRoute, Auth.isAuthenticated. now rewrite H.
  - split; [apply loginErrorMessage_truthy|]. split; [reflexivity|]. split.
    + intros H401. pose proof (onRejected_401 e b H401) as Hstore.
      split; [exact Hstore|]. unfold Auth.getItem. rewrite Hstore.
      split; [|split].
      * rewrite lookup_delete_ne by discriminate. apply lookup_delete_eq.
      * apply lookup_delete_eq.
      * unfold ProtectedRoute, Auth.isAuthenticated.
        rewrite onRejected_token, H401. reflexivity.
    + intros H401. unfold Api.onRejected. now rewrite H401.
Qed.

Definition wrongPassword : Api.AxiosError :=
  Api.mkAxiosError (Some "ERR_BAD_REQUEST") "Request failed with status code 401"
    (Some (Api.mkErrorResponse 401
             (Some (JObject [("detail", JString "No active account found")])))).

Lemma login_outcomes_witness :
  Auth.getItem "authToken" loggedIn = Some "eyJhbGciOi"
  /\ Auth.getItem "adminUser" loggedIn = Some "{}"
  /\ Api.is401 wrongPassword = true
  /\ exists st' b' effects,
      loginHandleSubmit (fun _ => "{}") (fun _ _ => Api.Rejected wrongPassword)
                        (mkLoginState (mkLoginForm "admin@example.com" "secret1") ∅ false "")
                        loggedIn
      = Finished (st', b', effects)
      /\ jsTruthy (loginError st') = true
      /\ effects = [CallAdminLogin "admin@example.com" "secret1"]
      /\ localStorage b' = delete "adminUser" (delete "authToken" (localStorage loggedIn))
      /\ Auth.getItem "authToken" b' = None
      /\ Auth.getItem "adminUser" b' = None
      /\ ProtectedRoute b' = RedirectToLogin.
Proof.
  split; [reflexivity|]. split; [reflexivity|]. split; [reflexivity|].
  destruct (login_outcomes (fun _ => "{}") (fun _ _ => Api.Rejected wrongPassword)
              (mkLoginState (mkLoginForm "admin@example.com" "secret1") ∅ false "")
              loggedIn eq_refl)
    as (st' & b' & effects & Hrun & Htruthy & Heffects & H401 & _).
  exists st', b', effects.
  split; [exact Hrun|]. split; [exact Htruthy|]. split; [exact Heffects|].
  exact (H401 eq_refl).
Defined.

(* ===================================================================== *)
(** * The CSV export (admin/Visitors.jsx, lines 133-155) *)
(* ===================================================================== *)

(** A record of the view with the two properties only the export reads. *)
Record ExportRow : Type := mkExportRow {
  row_visitor : Visitor;
  row_message : option string;
  row_additional_details : option string
}.

Definition newline : string := String (ascii_of_nat 10) EmptyString.
Definition doubleQuote : string := String (ascii_of_nat 34) EmptyString.

(** [parts.join(sep)] *)
Fixpoint join (sep : string) (parts : list string) : string :=
  match parts with
  | [] => ""
  | [x] => x
  | x :: rest => x +:+ sep +:+ join sep rest
  end.

(** A value inside a template literal: a string as it is, [null] and
    [undefined] as their names. *)
Definition templateText (x : option string) (null : bool) : string :=
  match x with
  | Some s => s
  | None => if null then "null" else "undefined"
  end.

Definition csvHeaders : list string :=
  ["Name"; "Email"; "Phone"; "Purpose"; "Message"; "Check-in Time"].

Section CsvExport.
Variable parse : string -> option Z.
(** [Date.prototype.toLocaleString], which depends on the locale. *)
Variable toLocaleString : option Z -> string.

(** Lines 135-142: the cells of a record, as the template literal of
    line 146 prints them.  When [||] falls through to its right operand,
    that operand says whether the value is [null] or [undefined]. *)
Definition csvCells (r : ExportRow) : list string :=
  let v := row_visitor r in
  [templateText (js_or (v_name v) (v_full_name v)) (isNull v "full_name");
   templateText (v_email v) (isNull v "email");
   templateText (js_or (v_phone v) (v_phone_number v)) (isNull v "phone_number");
   templateText (v_purpose v) (isNull v "purpose");
   orEmpty (js_or (row_message r) (row_additional_details r));
   " " +:+ toLocaleString (checkinDate parse v)].

(** Line 146: every cell between double quotes, the cells joined by commas. *)
Definition csvRow (cells : list string) : string :=
  join "," (map (fun cell => doubleQuote +:+ cell +:+ doubleQuote) cells).

(** Lines 144-147 *)
Definition csvContent (rows : list ExportRow) : string :=
  join newline (join "," csvHeaders :: map (fun r => csvRow (csvCells r)) rows).

(** Line 153: the name of the file, from the clock. *)
Definition csvFileName (now : Z) : Completion string :=
  iso ← JsDate.toISOString (JsDate.TimeClip now);
  Normal ("visitors_" +:+ JsDate.beforeT iso +:+ ".csv").

End CsvExport.

(** [s.split('\n')] *)
Fixpoint splitLines (s : string) : list string :=
  match s with
  | EmptyString => [""]
  | String c s' =>
      if Ascii.eqb c (ascii_of_nat 10) then "" :: splitLines s'
      else match splitLines s' with
           | [] => [String c ""]
           | l :: ls => String c l :: ls
           end
  end.

Definition oneLine (s : string) : Prop :=
  JsString.all (fun c => negb (Ascii.eqb c (ascii_of_nat 10))) s = true.

Lemma splitLines_oneLine (s : string) : oneLine s -> splitLines s = [s].
Proof.
  unfold oneLine. induction s as [|c s IH]; [reflexivity|]. simpl.
  intros H. apply andb_true_iff in H as [Hc Hs]. apply negb_true_iff in Hc.
  rewrite Hc, (IH Hs). reflexivity.
Qed.

Lemma splitLines_app (a b : string) :
  oneLine a -> splitLines (a +:+ newline +:+ b) = a :: splitLines b.
Proof.
  unfold oneLine. induction a as [|c a IH]; [reflexivity|].
  change (String c a +:+ newline +:+ b) with (String c (a +:+ newline +:+ b)). simpl.
  intros H. apply andb_true_iff in H as [Hc Ha]. apply negb_true_iff in Hc.
  rewrite Hc, (IH Ha). reflexivity.
Qed.

Lemma splitLines_join (lines : list string) :
  lines <> [] -> Forall oneLine lines -> splitLines (join newline lines) = lines.
Proof.
  intros Hne Hall. induction Hall as [|l ls Hl Hls IH]; [congruence|].
  destruct ls as [|l2 ls].
  - simpl. now apply splitLines_oneLine.
  - change (join newline (l :: l2 :: ls)) with (l +:+ newline +:+ join newline (l2 :: ls)).
    rewrite splitLines_app by exact Hl. f_equal. apply IH. discriminate.
Qed.

Lemma oneLine_app (a b : string) : oneLine (a +:+ b) <-> oneLine a /\ oneLine b.
Proof. unfold oneLine. rewrite all_app, andb_true_iff. tauto. Qed.

Lemma oneLine_join (sep : string) (parts : list string) :
  oneLine sep -> Forall oneLine parts -> oneLine (join sep parts).
Proof.
  intros Hsep Hall. induction Hall as [|x rest Hx Hrest IH]; [reflexivity|].
  destruct rest as [|y rest]; [exact Hx|].
  change (join sep (x :: y :: rest)) with (x +:+ sep +:+ join sep (y :: rest)).
  rewrite !oneLine_app. tauto.
Qed.

Lemma csvRow_oneLine (cells : list string) : Forall oneLine cells -> oneLine (csvRow cells).
Proof.
  intros H. unfold csvRow. apply oneLine_join; [reflexivity|].
  induction H as [|c cells Hc _ IH]; simpl; constructor; [|exact IH].
  apply oneLine_app. split; [reflexivity|].
  apply oneLine_app. split; [exact Hc | reflexivity].
Qed.

(** A cell between double quotes. *)
Definition quoted (cell : string) : string := doubleQuote +:+ cell +:+ doubleQuote.

(** X18. The export writes the header line and then one line for each
    record of the view, in the order of the view, provided no cell holds
    a line break; of an empty view it writes the header line alone.  A
    line is the six cells of its record, each between double quotes and
    as it is, with commas in between: name, e-mail address, phone,
    purpose, message and, after a space, the check-in time in the
    locale's notation; a missing e-mail address goes out as the word
    undefined.  The file is named after the calendar date in UTC. *)
Theorem csv_one_line_per_record (parse : string -> option Z)
        (toLocaleString : option Z -> string) (rows : list ExportRow) (now : Z) :
  Forall (fun r => Forall oneLine (csvCells parse toLocaleString r)) rows ->
  splitLines (csvContent parse toLocaleString rows)
  = "Name,Email,Phone,Purpose,Message,Check-in Time"
    :: map (fun r => join "," (map quoted (csvCells parse toLocaleString r))) rows
  /\ length (splitLines (csvContent parse toLocaleString rows)) = S (length rows)
  /\ csvContent parse toLocaleString []
     = "Name,Email,Phone,Purpose,Message,Check-in Time"
  /\ (forall r, length (csvCells parse toLocaleString r) = 6%nat)
  /\ (forall r name email phone purpose message,
        v_name (row_visitor r) = Some name -> name <> "" ->
        v_email (row_visitor r) = Some email ->
        v_phone (row_visitor r) = Some phone -> phone <> "" ->
        v_purpose (row_visitor r) = Some purpose ->
        row_message r = Some message -> message <> "" ->
        csvCells parse toLocaleString r
        = [name; email; phone; purpose; message;
           " " +:+ toLocaleString (checkinDate parse (row_visitor r))]
        /\ csvContent parse toLocaleString [r]
           = "Name,Email,Phone,Purpose,Message,Check-in Time" +:+ newline
             +:+ quoted name +:+ "," +:+ quoted email +:+ "," +:+ quoted phone +:+ ","
             +:+ quoted purpose +:+ "," +:+ quoted message +:+ ","
             +:+ quoted (" " +:+ toLocaleString (checkinDate parse (row_visitor r))))
  /\ (forall r, v_email (row_visitor r) = None ->
                isNull (row_visitor r) "email" = false ->
                nth 1 (csvCells parse toLocaleString r) "" = "undefined")
  /\ (Z.abs now <= JsDate.maxTime ->
      csvFileName now = Normal ("visitors_" +:+ utcDateString now +:+ ".csv")).
Proof.
  intros Hrows.
  assert (Hsplit : splitLines (csvContent parse toLocaleString rows)
                   = "Name,Email,Phone,Purpose,Message,Check-in Time"
                     :: map (fun r => csvRow (csvCells parse toLocaleString r)) rows).
  { unfold csvContent. apply splitLines_join; [discriminate|].
    constructor; [reflexivity|].
    induction Hrows as [|r rows Hr _ IH]; simpl; constructor; [|exact IH].
    now apply csvRow_oneLine. }
  split; [exact Hsplit|]. split; [|split; [|split; [|split; [|split]]]].
  - rewrite Hsplit. simpl. now rewrite length_map.
  - reflexivity.
  - reflexivity.
  - intros r name email phone purpose message Hn Hne He Hp Hpe Hpu Hm Hme.
    assert (Hcells : csvCells parse toLocaleString r
                     = [name; email; phone; purpose; message;
                        " " +:+ toLocaleString (checkinDate parse (row_visitor r))]).
    { unfold csvCells. cbn zeta. rewrite Hn, He, Hp, Hpu, Hm.
      destruct name; [congruence|]. destruct phone; [congruence|].
      destruct message; [congruence|]. reflexivity. }
    split; [exact Hcells|].
    unfold csvContent. cbn [map]. rewrite Hcells.
    unfold csvRow, quoted. cbn [map join csvHeaders].
    rewrite <- !append_assoc. reflexivity.
  - intros r He Hnull. unfold csvCells. cbn zeta. cbn [nth]. rewrite He, Hnull. reflexivity.
  - intros Hnow. unfold csvFileName, JsDate.TimeClip.
    replace (Z.abs now <=? JsDate.maxTime) with true by (symmetry; now apply Z.leb_le).
    pose proof (toISOString_date now) as H.
    destruct (JsDate.toISOString (Some now)) as [iso|e]; [|discriminate H].
    cbn [mbind completion_bind] in *. injection H as ->. reflexivity.
Qed.

Definition aliceRow : ExportRow := mkExportRow alice (Some "Second interview") None.
Definition undatedRow : ExportRow := mkExportRow undated None None.

Lemma csv_one_line_per_record_witness :
  Forall (fun r => Forall oneLine (csvCells (JsDate.parse 0) (fun _ => "1/1/2024") r))
         [aliceRow; undatedRow]
  /\ splitLines (csvContent (JsDate.parse 0) (fun _ => "1/1/2024") [aliceRow; undatedRow])
     = ["Name,Email,Phone,Purpose,Message,Check-in Time";
        quoted "Alice" +:+ "," +:+ quoted "alice@example.com" +:+ ","
        +:+ quoted "5550100100" +:+ "," +:+ quoted "Interview" +:+ ","
        +:+ quoted "Second interview" +:+ "," +:+ quoted " 1/1/2024";
        quoted "Eve" +:+ "," +:+ quoted "eve@example.com" +:+ ","
        +:+ quoted "5550100900" +:+ "," +:+ quoted "Other" +:+ ","
        +:+ quoted "" +:+ "," +:+ quoted " 1/1/2024"]
  /\ quoted "Alice"
     = String (ascii_of_nat 34) ("Alice" +:+ String (ascii_of_nat 34) EmptyString).
Proof.
  assert (H : Forall (fun r => Forall oneLine
                                      (csvCells (JsDate.parse 0) (fun _ => "1/1/2024") r))
                     [aliceRow; undatedRow]).
  { repeat constructor. }
  split; [exact H|].
  split; [|reflexivity].
  exact (proj1 (csv_one_line_per_record (JsDate.parse 0) (fun _ => "1/1/2024")
                  [aliceRow; undatedRow] 0 H)).
Defined.

(* ===================================================================== *)
(** * From the form to the viewer *)
(* ===================================================================== *)

(** ** Timestamps written by [toISOString] and read by [Date.parse] *)

Lemma digitVal_digitChar (k : Z) :
  0 <= k <= 9 -> JsDate.digitVal (JsDate.digitChar k) = Some k.
Proof.
  intros H. destruct k as [|p|p]; [reflexivity| |lia].
  do 4 (destruct p as [p|p|]; try lia; try reflexivity).
Qed.

Lemma num2_pad (n : Z) :
  0 <= n <= 99 ->
  JsDate.num2 (JsDate.digitChar (n / 10 mod 10)) (JsDate.digitChar (n mod 10)) = Some n.
Proof.
  intros H. unfold JsDate.num2.
  rewrite !digitVal_digitChar by (Z.div_mod_to_equations; lia).
  cbn [mbind option_bind]. f_equal. Z.div_mod_to_equations. lia.
Qed.


Lemma num3_pad (n : Z) :
  0 <= n <= 999 ->
  JsDate.num3 (JsDate.digitChar (n / 10 / 10 mod 10)) (JsDate.digitChar (n / 10 mod 10))
              (JsDate.digitChar (n mod 10)) = Some n.
Proof.
  intros H. unfold JsDate.num3, JsDate.num2.
  rewrite !digitVal_digitChar by (Z.div_mod_to_equations; lia).
  cbn [mbind option_bind]. f_equal. Z.div_mod_to_equations. lia.
Qed.

Lemma num4_pad (n : Z) :
  0 <= n <= 9999 ->
  JsDate.num4 (JsDate.digitChar (n / 10 / 10 / 10 mod 10))
              (JsDate.digitChar (n / 10 / 10 mod 10))
              (JsDate.digitChar (n / 10 mod 10)) (JsDate.digitChar (n mod 10)) = Some n.
Proof.
  intros H. unfold JsDate.num4, JsDate.num2.
  rewrite !digitVal_digitChar by (Z.div_mod_to_equations; lia).
  cbn [mbind option_bind]. f_equal. Z.div_mod_to_equations. lia.
Qed.

(** [Date.parse] on a string of the shape that [toISOString] writes. *)
Lemma parse_iso_shape (tz : Z) (y1 y2 y3 y4 m1 m2 d1 d2 h1 h2 i1 i2 s1 s2 f1 f2 f3 : ascii) :
  JsDate.parse tz
    (String y1 (String y2 (String y3 (String y4 ""))) +:+ "-" +:+
     String m1 (String m2 "") +:+ "-" +:+ String d1 (String d2 "") +:+ "T" +:+
     String h1 (String h2 "") +:+ ":" +:+ String i1 (String i2 "") +:+ ":" +:+
     String s1 (String s2 "") +:+ "." +:+ String f1 (String f2 (String f3 "")) +:+ "Z")
  = (y ← JsDate.num4 y1 y2 y3 y4; m ← JsDate.num2 m1 m2; d ← JsDate.num2 d1 d2;
     tm ← (h ← JsDate.num2 h1 h2; mi ← JsDate.num2 i1 i2;
           sz ← (s ← JsDate.num2 s1 s2; f ← JsDate.num3 f1 f2 f3; z ← Some 0;
                 if s <=? 59 then Some (s * 1000 + f, z) else None);
           if (h <=? 23) && (mi <=? 59)
           then Some (h * 3600000 + mi * 60000 + fst sz, snd sz) else None);
     if (1 <=? m) && (m <=? 12) && (1 <=? d) && (d <=? JsDate.daysInMonth y m)
     then JsDate.TimeClip (JsDate.MakeDate (JsDate.daysFromCivil y m d) (fst tm) - snd tm)
     else None).
Proof. reflexivity. Qed.
Lemma year_length (doe : Z) :
  0 <= doe < 146097 ->
  let yoe := (doe - doe / 1460 + doe / 36524 - doe / 146096) / 365 in
  yoe < 399 -> doe < 365 * (yoe + 1) + (yoe + 1) / 4 - (yoe + 1) / 100.
Proof. intros H yoe. subst yoe. Z.div_mod_to_equations. lia. Qed.

Lemma month_length (doy : Z) :
  0 <= doy <= 365 ->
  let mp := (5 * doy + 2) / 153 in
  mp < 11 -> doy < (153 * (mp + 1) + 2) / 5.
Proof. intros H mp. subst mp. Z.div_mod_to_equations. lia. Qed.

Lemma civilFromDays_day_in_month (z : Z) :
  let '(y, m, d) := JsDate.civilFromDays z in d <= JsDate.daysInMonth y m.
Proof.
  unfold JsDate.civilFromDays.
  set (era := (z + 719468) / 146097).
  set (doe := z + 719468 - era * 146097).
  assert (Hdoe : 0 <= doe < 146097).
  { subst doe era. Z.div_mod_to_equations. lia. }
  unfold JsDate.civilOfDoe.
  destruct (civilOfDoe_bounds doe Hdoe) as [Hy Hdoy].
  pose proof (year_length doe Hdoe) as Hyl. cbn zeta in Hyl.
  set (yoe := (doe - doe / 1460 + doe / 36524 - doe / 146096) / 365) in *.
  set (doy := doe - (365 * yoe + yoe / 4 - yoe / 100)) in *.
  destruct (month_day_bounds doy Hdoy) as [Hmp Hd].
  pose proof (month_length doy Hdoy) as Hml. cbn zeta in Hml.
  set (mp := (5 * doy + 2) / 153) in *.
  unfold JsDate.daysInMonth, JsDate.daysFromCivil, JsDate.doeOfCivil.
  destruct (mp <? 10) eqn:E.
  - apply Z.ltb_lt in E.
    replace (mp + 3 <=? 2) with false by (symmetry; apply Z.leb_gt; lia).
    replace (2 <? mp + 3) with true by (symmetry; apply Z.ltb_lt; lia).
    rewrite Z.add_0_r.
    replace ((yoe + era * 400) / 400) with era by (Z.div_mod_to_equations; lia).
    destruct (Z.eq_dec mp 9) as [-> | Hne].
    + change ((9 + 3) / 12) with 1. change ((9 + 3) mod 12 + 1) with 1.
      change (1 <=? 2) with true. change (2 <? 1) with false.
      replace ((yoe + era * 400 + 1 - 1) / 400) with era by (Z.div_mod_to_equations; lia).
      specialize (Hml ltac:(lia)). Z.div_mod_to_equations. lia.
    + replace ((mp + 3) / 12) with 0 by (Z.div_mod_to_equations; lia).
      replace ((mp + 3) mod 12 + 1) with (mp + 4) by (Z.div_mod_to_equations; lia).
      replace (mp + 4 <=? 2) with false by (symmetry; apply Z.leb_gt; lia).
      replace (2 <? mp + 4) with true by (symmetry; apply Z.ltb_lt; lia).
      rewrite Z.add_0_r.
      replace ((yoe + era * 400) / 400) with era by (Z.div_mod_to_equations; lia).
      specialize (Hml ltac:(lia)). Z.div_mod_to_equations. lia.
  - apply Z.ltb_ge in E.
    replace (mp - 9 <=? 2) with true by (symmetry; apply Z.leb_le; lia).
    replace (2 <? mp - 9) with false by (symmetry; apply Z.ltb_ge; lia).
    replace ((mp - 9) / 12) with 0 by (Z.div_mod_to_equations; lia).
    replace ((mp - 9) mod 12 + 1) with (mp - 8) by (Z.div_mod_to_equations; lia).
    rewrite Z.add_0_r.
    replace ((yoe + era * 400 + 1 - 1) / 400) with era by (Z.div_mod_to_equations; lia).
    destruct (Z.eq_dec mp 10) as [-> | Hne].
    + change (10 - 8 <=? 2) with true. change (2 <? 10 - 8) with false.
      replace ((yoe + era * 400 + 1 - 1) / 400) with era by (Z.div_mod_to_equations; lia).
      specialize (Hml ltac:(lia)). Z.div_mod_to_equations. lia.
    + assert (H11 : mp = 11) by lia. rewrite H11.
      change (11 - 8 <=? 2) with false. change (2 <? 11 - 8) with true.
      change (11 - 8 - 3) with 0. change ((153 * 0 + 2) / 5) with 0.
      destruct (Z.eq_dec yoe 399) as [Hy399 | Hy399].
      * replace ((yoe + era * 400 + 1) / 400) with (era + 1) by (Z.div_mod_to_equations; lia).
        unfold doy in *. Z.div_mod_to_equations. lia.
      * replace ((yoe + era * 400 + 1) / 400) with era by (Z.div_mod_to_equations; lia).
        specialize (Hyl ltac:(lia)). unfold doy in *. Z.div_mod_to_equations. lia.
Qed.

Lemma TimeWithinDay_range (t : Z) : 0 <= JsDate.TimeWithinDay t < 86400000.
Proof. unfold JsDate.TimeWithinDay, JsDate.msPerDay. apply Z.mod_pos_bound. lia. Qed.

(** What [toISOString] writes, [Date.parse] reads back, to the millisecond. *)
Lemma parse_toISOString (tz t : Z) :
  0 <= JsDate.YearFromTime t <= 9999 -> Z.abs t <= JsDate.maxTime ->
  exists s, JsDate.toISOString (Some t) = Normal s /\ JsDate.parse tz s = Some t.
Proof.
  intros Hyear Hclip. unfold JsDate.toISOString, JsDate.YearFromTime in *.
  pose proof (civilFromDays_inv (JsDate.Day t)) as Hinv.
  pose proof (civilFromDays_day_in_month (JsDate.Day t)) as Hdim.
  destruct (JsDate.civilFromDays (JsDate.Day t)) as [[y m] d]. simpl in Hyear.
  destruct Hinv as (Hm & Hd & Hinv).
  pose proof (TimeWithinDay_range t) as Htw.
  eexists. split; [reflexivity|].
  unfold JsDate.yearString.
  replace ((0 <=? y) && (y <=? 9999)) with true
    by (symmetry; apply andb_true_iff; split; apply Z.leb_le; lia).
  unfold JsDate.pad, JsDate.padDigits. rewrite parse_iso_shape.
  rewrite num4_pad by lia. rewrite (num2_pad m), (num2_pad d) by lia.
  rewrite (num2_pad (JsDate.TimeWithinDay t / 3600000)) by (Z.div_mod_to_equations; lia).
  rewrite (num2_pad (JsDate.TimeWithinDay t / 60000 mod 60)) by (Z.div_mod_to_equations; lia).
  rewrite (num2_pad (JsDate.TimeWithinDay t / 1000 mod 60)) by (Z.div_mod_to_equations; lia).
  rewrite (num3_pad (JsDate.TimeWithinDay t mod 1000)) by (Z.div_mod_to_equations; lia).
  cbn [mbind option_bind].
  replace (JsDate.TimeWithinDay t / 1000 mod 60 <=? 59) with true
    by (symmetry; apply Z.leb_le; Z.div_mod_to_equations; lia).
  cbn [mbind option_bind].
  replace ((JsDate.TimeWithinDay t / 3600000 <=? 23)
           && (JsDate.TimeWithinDay t / 60000 mod 60 <=? 59)) with true
    by (symmetry; apply andb_true_iff; split; apply Z.leb_le; Z.div_mod_to_equations; lia).
  cbn [mbind option_bind fst snd].
  replace ((1 <=? m) && (m <=? 12) && (1 <=? d) && (d <=? JsDate.daysInMonth y m)) with true
    by (symmetry; rewrite !andb_true_iff, !Z.leb_le; lia).
  rewrite Hinv. unfold JsDate.MakeDate, JsDate.TimeClip.
  pose proof (Day_TimeWithinDay t) as Hsplit.
  assert (Hsum : JsDate.TimeWithinDay t / 3600000 * 3600000
                 + JsDate.TimeWithinDay t / 60000 mod 60 * 60000
                 + (JsDate.TimeWithinDay t / 1000 mod 60 * 1000
                    + JsDate.TimeWithinDay t mod 1000)
                 = JsDate.TimeWithinDay t) by (Z.div_mod_to_equations; lia).
  rewrite Hsum, Z.sub_0_r, <- Hsplit.
  replace (Z.abs t <=? JsDate.maxTime) with true by (symmetry; now apply Z.leb_le).
  reflexivity.
Qed.

(** ** The body of the request (services/api, lines 60-69) *)

Record EntryBody : Type := mkEntryBody {
  eb_full_name : string;
  eb_email : string;
  eb_phone_number : string;
  eb_host : string;
  eb_purpose : string;
  eb_additional_details : string;
  eb_checkin_time : string
}.

(** The object that [submitVisitorForm] posts, [now] being the clock. *)
Definition entryBody (now : Z) (visitorData : FormData) : Completion EntryBody :=
  iso ← JsDate.toISOString (JsDate.TimeClip now);
  Normal {| eb_full_name := fd_name visitorData;
            eb_email := fd_email visitorData;
            eb_phone_number := fd_phone visitorData;
            eb_host := fd_host visitorData;
            eb_purpose := fd_purpose visitorData;
            eb_additional_details := fd_message visitorData;
            eb_checkin_time := iso |}.

(** The record of the list when the backend stores the body as it came,
    under an id of its own. *)
Definition entryOfBody (id : Z) (body : EntryBody) : ExportRow :=
  {| row_visitor :=
       {| v_id := id; v_name := None; v_full_name := Some (eb_full_name body);
          v_email := Some (eb_email body);
          v_phone := None; v_phone_number := Some (eb_phone_number body);
          v_purpose := Some (eb_purpose body);
          v_checkin_time := Some (eb_checkin_time body);
          v_entry_time := None; v_created_at := None; v_null := [] |};
     row_message := None;
     row_additional_details := Some (eb_additional_details body) |}.

Lemma startsWith_refl (s : string) : JsString.startsWith s s = true.
Proof. induction s as [|c s IH]; simpl; [reflexivity|]. rewrite Ascii.eqb_refl. exact IH. Qed.

Lemma includes_refl (s : string) : JsString.includes s s = true.
Proof. destruct s; cbn [JsString.includes]; now rewrite startsWith_refl. Qed.

Lemma ltb_irrefl (s : string) : JsString.ltb s s = false.
Proof.
  induction s as [|c s IH]; [reflexivity|]. cbn [JsString.ltb].
  rewrite Z.ltb_irrefl. exact IH.
Qed.

(** X19. What the registration form sends, the admin finds.  The names
    under which [submitVisitorForm] posts the fields are names the viewer
    reads: for a record stored as posted, the viewer sees the name, the
    e-mail address and the phone as typed, finds the record by searching
    for the name as typed and by the purpose chosen, reads the instant of
    the submission back from the timestamp to the millisecond, files the
    record under the UTC date of that instant, and exports the message. *)
Theorem submitted_entry_is_found (tz now id : Z) (fd : FormData) :
  0 <= JsDate.YearFromTime now <= 9999 -> Z.abs now <= JsDate.maxTime ->
  exists body,
    entryBody now fd = Normal body
    /\ let r := entryOfBody id body in
       let v := row_visitor r in
       nameOf v = fd_name fd /\ emailOf v = fd_email fd /\ phoneOf v = fd_phone fd
       /\ searchFilter (fd_name fd) [v] = Normal [v]
       /\ purposeFilterStage (fd_purpose fd) [v] = [v]
       /\ checkinDate (JsDate.parse tz) v = Some now
       /\ dateFilter (JsDate.parse tz)
                     (mkDateRange (utcDateString now) (utcDateString now)) [v]
          = Normal [v]
       /\ (forall toLocaleString,
             nth_error (csvCells (JsDate.parse tz) toLocaleString r) 4
             = Some (fd_message fd)).
Proof.
  intros Hyear Hclip.
  destruct (parse_toISOString tz now Hyear Hclip) as (iso & Hiso & Hparse).
  unfold entryBody, JsDate.TimeClip.
  replace (Z.abs now <=? JsDate.maxTime) with true by (symmetry; now apply Z.leb_le).
  rewrite Hiso. cbn [mbind completion_bind]. eexists. split; [reflexivity|].
  cbn zeta. cbn [entryOfBody row_visitor eb_full_name eb_email eb_phone_number eb_purpose
                 eb_additional_details eb_checkin_time].
  set (v := mkVisitor _ _ _ _ _ _ _ _ _ _ _).
  assert (Hname : nameOf v = fd_name fd) by (unfold nameOf; simpl; now destruct (fd_name fd)).
  assert (Hphone : phoneOf v = fd_phone fd)
    by (unfold phoneOf; simpl; now destruct (fd_phone fd)).
  assert (Hdate : checkinDate (JsDate.parse tz) v = Some now).
  { unfold checkinDate. simpl. destruct iso; [|exact Hparse].
    exfalso. vm_compute in Hparse. discriminate Hparse. }
  split; [exact Hname|]. split; [reflexivity|]. split; [exact Hphone|].
  split; [|split; [|split; [exact Hdate|split]]].
  - rewrite searchFilter_hasEmail by (repeat constructor; eexists; reflexivity).
    simpl. unfold matchesb. rewrite Hname, includes_refl. reflexivity.
  - unfold purposeFilterStage. destruct (_ && _); [|reflexivity].
    subst v. unfold purposeMatch. cbn [List.filter v_purpose].
    now rewrite String.eqb_refl.
  - rewrite dateFilter_valid by (repeat constructor; exists now; exact Hdate).
    simpl. unfold utcDate. rewrite Hdate. unfold inRange. simpl.
    unfold JsString.geb, JsString.leb. rewrite ltb_irrefl. simpl.
    now rewrite !orb_true_r.
  - intros toLocaleString. simpl. now destruct (fd_message fd).
Qed.

Lemma submitted_entry_is_found_witness :
  exists body,
    entryBody wednesdayNoon (mkFormData "Al" "al@example.com" "555 010-0100" "" "Other" "hi")
    = Normal body
    /\ checkinDate (JsDate.parse 0) (row_visitor (entryOfBody 30 body)) = Some wednesdayNoon.
Proof.
  assert (H1 : 0 <= JsDate.YearFromTime wednesdayNoon <= 9999)
    by (split; vm_compute; discriminate).
  assert (H2 : Z.abs wednesdayNoon <= JsDate.maxTime) by (vm_compute; discriminate).
  destruct (submitted_entry_is_found 0 wednesdayNoon 30
              (mkFormData "Al" "al@example.com" "555 010-0100" "" "Other" "hi") H1 H2)
    as (body & Hb & _ & _ & _ & _ & _ & Hd & _).
  exists body. split; [exact Hb | exact Hd].
Defined.
